(** * The dispatcher of internvl-backend

    A shallow embedding of [dispatcher.py] (the worker [process_thread], the
    api dispatch [process_api], the listener loop of [__main__]), of
    [vlchat.py] ([load_image_b64]; the device map of [split_model]; the tiles
    of [find_closest_aspect_ratio] and [dynamic_preprocess]) and of
    [settings.py], with the properties the specification states about them
    and further properties of the code.

    Python values are the values [json.loads] produces.  Exceptions are the
    instances of [Exception]; [KeyboardInterrupt] and [SystemExit], which end
    the process, are not represented.  Effects are a trace of events, the
    state of the engine and the state of the broker. *)

From Stdlib Require Import List String Ascii ZArith Bool Lia Permutation.
From Stdlib Require Import DecimalString DecimalZ Floats Sorted.
Import ListNotations.
Set Warnings "-register-all".
Local Open Scope string_scope.
Local Open Scope Z_scope.

(** ** Python values *)

Inductive value : Type :=
| VNone
| VBool (b : bool)
| VInt (n : Z)
| VFloat (repr : string)
| VStr (s : string)
| VList (items : list value)
| VDict (entries : list (string * value)).

Definition type_name (v : value) : string :=
  match v with
  | VNone => "NoneType"
  | VBool _ => "bool"
  | VInt _ => "int"
  | VFloat _ => "float"
  | VStr _ => "str"
  | VList _ => "list"
  | VDict _ => "dict"
  end.

(** A dict keeps its keys in insertion order; keys are unique. *)
Fixpoint dict_lookup (k : string) (d : list (string * value)) : option value :=
  match d with
  | [] => None
  | (k', v) :: rest => if String.eqb k k' then Some v else dict_lookup k rest
  end.

Fixpoint dict_set (k : string) (v : value) (d : list (string * value))
  : list (string * value) :=
  match d with
  | [] => [(k, v)]
  | (k', v') :: rest =>
      if String.eqb k k' then (k, v) :: rest else (k', v') :: dict_set k v rest
  end.

(** ** Exceptions *)

Inductive exn_class : Type :=
| BinasciiError          (* binascii.Error *)
| JSONDecodeError        (* json.decoder.JSONDecodeError *)
| UnicodeDecodeError
| ValueError
| KeyError
| TypeError
| AttributeError
| OtherError (name : string).

Record exn : Type := Raise { exn_kind : exn_class; exn_str : string }.

Definition is_BinasciiError (e : exn) : bool :=
  match exn_kind e with BinasciiError => true | _ => false end.

Definition is_JSONDecodeError (e : exn) : bool :=
  match exn_kind e with JSONDecodeError => true | _ => false end.

Definition dquote : string := String (ascii_of_nat 34) EmptyString.

(** [x[k]] for a string key [k]. *)
Definition subscript (x : value) (k : string) : exn + value :=
  match x with
  | VDict d =>
      match dict_lookup k d with
      | Some v => inr v
      | None => inl (Raise KeyError ("'" ++ k ++ "'"))
      end
  | VList _ => inl (Raise TypeError "list indices must be integers or slices, not str")
  | VStr _ => inl (Raise TypeError "string indices must be integers, not 'str'")
  | _ => inl (Raise TypeError ("'" ++ type_name x ++ "' object is not subscriptable"))
  end.

(** [x.get(k, default)]. *)
Definition get_method (x : value) (k : string) (default : value) : exn + value :=
  match x with
  | VDict d =>
      match dict_lookup k d with
      | Some v => inr v
      | None => inr default
      end
  | _ => inl (Raise AttributeError
                ("'" ++ type_name x ++ "' object has no attribute 'get'"))
  end.

(** [x == s] for a string literal [s]. *)
Definition eq_str (x : value) (s : string) : bool :=
  match x with
  | VStr t => String.eqb t s
  | _ => false
  end.

(** [s + x] for a string literal [s]. *)
Definition str_concat (s : string) (x : value) : exn + string :=
  match x with
  | VStr t => inr (s ++ t)
  | _ => inl (Raise TypeError
                ("can only concatenate str (not " ++ dquote ++ type_name x
                   ++ dquote ++ ") to str"))
  end.

(** ** settings.py *)

Definition model_path : string := "../../LLMs/lm_model/InternVL2_5-1B".

Definition MAX_DISPATCHER_WORKERS : nat := 1.

Definition REDIS_CONFIG_REQUEST_QUEUE : string :=
  "InternVL-synchronous-asynchronous-queue".

(** ** Results *)

Record Result : Type := mkResult {
  code : Z;
  msg : string;
  result : option value
}.

Definition msg_unknown_api : string := "未知 api 调用".
Definition msg_base64 : string := "base64编码异常: ".
Definition msg_json : string := "json编码异常: ".
Definition msg_unknown_error : string := "未知错误: ".

(** ** base64.b64decode

    The decoder of the Python standard library as [load_image_b64] calls it:
    [validate] is left at its default [False], so [binascii.a2b_base64] runs
    with [strict_mode] off and skips every character outside the alphabet. *)

Definition bytes : Type := list Z.

Definition bytes_of_string (s : string) : bytes :=
  map (fun c => Z.of_nat (nat_of_ascii c)) (list_ascii_of_string s).

Definition string_of_Z (n : Z) : string :=
  NilZero.string_of_int (Z.to_int n).

(** [table_a2b_base64]: the 6-bit value of an alphabet character. *)
Definition table_a2b_base64 (c : Z) : option Z :=
  if (65 <=? c) && (c <=? 90) then Some (c - 65)
  else if (97 <=? c) && (c <=? 122) then Some (c - 71)
  else if (48 <=? c) && (c <=? 57) then Some (c + 4)
  else if c =? 43 then Some 62
  else if c =? 47 then Some 63
  else None.

Definition BASE64_PAD : Z := 61.

(** The loop of [binascii.a2b_base64]; [out] is the output so far. *)
Fixpoint a2b_base64_loop (data : bytes) (quad_pos leftchar pads : Z)
    (out : bytes) : exn + bytes :=
  match data with
  | [] =>
      if quad_pos =? 0 then inr out
      else if quad_pos =? 1 then
        inl (Raise BinasciiError
               ("Invalid base64-encoded string: number of data characters ("
                  ++ string_of_Z (Z.of_nat (List.length out) / 3 * 4 + 1)
                  ++ ") cannot be 1 more than a multiple of 4"))
      else inl (Raise BinasciiError "Incorrect padding")
  | this_ch :: rest =>
      if this_ch =? BASE64_PAD then
        if 2 <=? quad_pos then
          if 4 <=? quad_pos + (pads + 1) then inr out
          else a2b_base64_loop rest quad_pos leftchar (pads + 1) out
        else a2b_base64_loop rest quad_pos leftchar pads out
      else
        match table_a2b_base64 this_ch with
        | None => a2b_base64_loop rest quad_pos leftchar pads out
        | Some v =>
            if quad_pos =? 0 then a2b_base64_loop rest 1 v 0 out
            else if quad_pos =? 1 then
              a2b_base64_loop rest 2 (Z.land v 15) 0
                (out ++ [Z.land (Z.lor (Z.shiftl leftchar 2) (Z.shiftr v 4)) 255])%list
            else if quad_pos =? 2 then
              a2b_base64_loop rest 3 (Z.land v 3) 0
                (out ++ [Z.land (Z.lor (Z.shiftl leftchar 4) (Z.shiftr v 2)) 255])%list
            else
              a2b_base64_loop rest 0 0 0
                (out ++ [Z.land (Z.lor (Z.shiftl leftchar 6) v) 255])%list
        end
  end.

Definition a2b_base64 (data : bytes) : exn + bytes :=
  a2b_base64_loop data 0 0 0 [].

Definition is_ascii (data : bytes) : bool := forallb (fun c => c <? 128) data.

(** [base64.b64decode(s)]: a [str] is encoded as ASCII first, everything
    else [json.loads] can produce is refused. *)
Definition b64decode (s : value) : exn + bytes :=
  match s with
  | VStr t =>
      if is_ascii (bytes_of_string t) then a2b_base64 (bytes_of_string t)
      else inl (Raise ValueError "string argument should contain only ASCII characters")
  | _ =>
      inl (Raise TypeError
             ("argument should be a bytes-like object or ASCII string, not '"
                ++ type_name s ++ "'"))
  end.

(** The specification's "valid base64" (RFC 4648): characters of the
    alphabet, a multiple of four of them, the last one or two of which may
    be the padding character. *)
Definition is_alphabet (c : Z) : bool :=
  match table_a2b_base64 c with
  | Some _ => true
  | None => false
  end.

(** A reversed string without its padding: one or two padding characters
    at the end. *)
Definition strip_padding (reversed : bytes) : bytes :=
  match reversed with
  | a :: b :: r =>
      if (a =? BASE64_PAD) && (b =? BASE64_PAD) then r
      else if a =? BASE64_PAD then b :: r
      else reversed
  | [a] => if a =? BASE64_PAD then [] else reversed
  | [] => []
  end.

Definition valid_base64_bytes (cs : bytes) : bool :=
  (Z.of_nat (List.length cs) mod 4 =? 0)
  && forallb is_alphabet (strip_padding (rev cs)).

Definition valid_base64 (t : string) : bool :=
  valid_base64_bytes (bytes_of_string t).

(** ** Collaborators

    What the dispatcher calls and does not define: the image library, the
    engine, the broker helper and the decoders of the runtime. *)

Class Collaborators : Type := {
  Image : Type;
  Engine : Type;
  Broker : Type;
  (** PIL: [Image.open(BytesIO(data)).convert('RGB')]. *)
  Image_open : bytes -> exn + Image;
  (** The engine's [chat_w_image(question, image)]; it samples, so it
      reads and changes the engine's state. *)
  engine_chat : Engine -> value -> Image -> Engine * (exn + value);
  (** The broker's answer to a publication: [None] when it took it. *)
  broker_publish : Broker -> value -> Result -> Broker * option exn;
  (** [bytes.decode('utf-8')]. *)
  decode_utf8 : bytes -> exn + string;
  (** [json.loads]. *)
  json_loads : string -> exn + value
}.

Inductive level : Type := INFO | ERROR.

Inductive logarg : Type :=
| AVal (v : value)
| AStr (s : string)
| AExn (e : exn)
| AElapsed          (* a [datetime] difference *)
| APoolThreads      (* [len(executor._threads)] *)
| APoolPending      (* [executor._work_queue.qsize()] *)
| AFuture.          (* [str(future)] *)

Section Dispatcher.

Context {C : Collaborators}.

(** What a run does that can be seen from outside, in the order it does it. *)
Inductive event : Type :=
| EvLog (lvl : level) (text : string) (args : list logarg)
| EvEngine (question : value) (image : Image)
| EvPublish (channel : value) (r : Result) (refused : option exn)
| EvFlush
| EvSubscribe (channel : string) (refused : option exn)
| EvExecutor (max_workers : nat)
| EvSubmit (msg_body : value)
| EvSleep (seconds : Z).

Record State : Type := mkState { engine : Engine; broker : Broker }.

(** A computation: the events it emits, the state it leaves, and either the
    exception it raises or its value. *)
Definition M (A : Type) : Type := State -> list event * State * (exn + A).

Definition ret {A} (a : A) : M A := fun s => ([], s, inr a).

Definition raise {A} (e : exn) : M A := fun s => ([], s, inl e).

Definition bind {A B} (m : M A) (f : A -> M B) : M B :=
  fun s =>
    match m s with
    | (ev, s1, inl e) => (ev, s1, inl e)
    | (ev, s1, inr a) =>
        match f a s1 with
        | (ev', s2, r) => ((ev ++ ev')%list, s2, r)
        end
    end.

(** [try: m  except Exception as e: h e]. *)
Definition try_except {A} (m : M A) (h : exn -> M A) : M A :=
  fun s =>
    match m s with
    | (ev, s1, inr a) => (ev, s1, inr a)
    | (ev, s1, inl e) =>
        match h e s1 with
        | (ev', s2, r) => ((ev ++ ev')%list, s2, r)
        end
    end.

Definition lift {A} (r : exn + A) : M A := fun s => ([], s, r).

Definition emit (e : event) : M unit := fun s => ([e], s, inr tt).

Definition log (lvl : level) (text : string) (args : list logarg) : M unit :=
  emit (EvLog lvl text args).

Notation "x <- m ;; k" := (bind m (fun x => k))
  (at level 61, m at next level, right associativity).
Notation "m ;;; k" := (bind m (fun _ => k))
  (at level 61, right associativity).

(** ** vlchat.py *)

(** [load_image_b64(b64_data)]. *)
Definition load_image_b64 (b64_data : value) : exn + Image :=
  match b64decode b64_data with
  | inl e => inl e
  | inr data => Image_open data
  end.

(** [vlchat_model.chat_w_image(question, img)] as the dispatcher sees it. *)
Definition chat_w_image (question : value) (img : Image) : M value :=
  fun s =>
    match engine_chat (engine s) question img with
    | (eng, r) => ([EvEngine question img], mkState eng (broker s), r)
    end.

(** Modelled from the spec: [utils.helper.redis_publish] is not among the
    sources.  It serialises the Result and publishes it on the channel named
    by [request_id]; when the broker does not take it, it raises. *)
Definition redis_publish (request_id : value) (r : Result) : M unit :=
  fun s =>
    match broker_publish (broker s) request_id r with
    | (b, None) => ([EvPublish request_id r None], mkState (engine s) b, inr tt)
    | (b, Some e) =>
        ([EvPublish request_id r (Some e)], mkState (engine s) b, inl e)
    end.

(** ** dispatcher.py *)

Definition api_chat : string := "/api/internvl/chat".

(** The [try] block of [process_api]. *)
Definition process_api_try (request : value) : M Result :=
  api <- lift (subscript request "api") ;;
  if eq_str api api_chat then
    params <- lift (subscript request "params") ;;
    image <- lift (subscript params "image") ;;
    img <- lift (load_image_b64 image) ;;
    params' <- lift (subscript request "params") ;;
    text <- lift (subscript params' "text") ;;
    r1 <- chat_w_image text img ;;
    ret (mkResult 0 "success" (Some r1))
  else
    api' <- lift (subscript request "api") ;;
    line <- lift (str_concat "Unknown api: " api') ;;
    log ERROR line [] ;;;
    ret (mkResult 9900 msg_unknown_api None).

(** The [except] clauses of [process_api], in their order. *)
Definition process_api_except (e : exn) : M Result :=
  if is_BinasciiError e then
    log ERROR "编码转换异常: %s" [AExn e] ;;;
    ret (mkResult 9901 (msg_base64 ++ exn_str e) None)
  else if is_JSONDecodeError e then
    log ERROR "json转换异常: %s" [AExn e] ;;;
    ret (mkResult 9902 (msg_json ++ exn_str e) None)
  else
    log ERROR "未知异常: %s" [AExn e] ;;;
    ret (mkResult 9998 (msg_unknown_error ++ exn_str e) None).

Definition process_api (request_id : value) (request_msg : value) : M Result :=
  let request := request_msg in
  try_except (process_api_try request) process_api_except.

(** The [try] block of [process_thread]. *)
Definition process_thread_try (msg_body : value) : M unit :=
  rid <- lift (subscript msg_body "request_id") ;;
  data <- lift (subscript msg_body "data") ;;
  api <- lift (get_method data "api" (VStr "Unknown")) ;;
  log INFO "{} Calling api: {}" [AVal rid; AVal api] ;;;
  rid <- lift (subscript msg_body "request_id") ;;
  data <- lift (subscript msg_body "data") ;;
  api_result <- process_api rid data ;;
  log INFO "1 ===> [Time taken: {!s}]" [AElapsed] ;;;
  rid <- lift (subscript msg_body "request_id") ;;
  redis_publish rid api_result ;;;
  rid <- lift (subscript msg_body "request_id") ;;
  data <- lift (subscript msg_body "data") ;;
  api <- lift (subscript data "api") ;;
  log INFO "{} {} [Time taken: {!s}]" [AVal rid; AVal api; AElapsed] ;;;
  emit EvFlush.

Definition process_thread (msg_body : value) : M unit :=
  try_except (process_thread_try msg_body)
    (fun e => log ERROR "process_thread异常: %s" [AExn e]).

(** The publications a run asked for, and those the broker took. *)
Fixpoint publish_calls (evs : list event) : list (value * Result) :=
  match evs with
  | [] => []
  | EvPublish ch r _ :: rest => (ch, r) :: publish_calls rest
  | _ :: rest => publish_calls rest
  end.

Fixpoint published (evs : list event) : list (value * Result) :=
  match evs with
  | [] => []
  | EvPublish ch r None :: rest => (ch, r) :: published rest
  | _ :: rest => published rest
  end.

Fixpoint engine_calls (evs : list event) : list (value * Image) :=
  match evs with
  | [] => []
  | EvEngine q img :: rest => (q, img) :: engine_calls rest
  | _ :: rest => engine_calls rest
  end.

Fixpoint submitted_jobs (evs : list event) : list value :=
  match evs with
  | [] => []
  | EvSubmit msg_body :: rest => msg_body :: submitted_jobs rest
  | _ :: rest => submitted_jobs rest
  end.

Fixpoint sleeps (evs : list event) : list Z :=
  match evs with
  | [] => []
  | EvSleep n :: rest => n :: sleeps rest
  | _ :: rest => sleeps rest
  end.

Fixpoint subscribe_calls (evs : list event) : list string :=
  match evs with
  | [] => []
  | EvSubscribe ch _ :: rest => ch :: subscribe_calls rest
  | _ :: rest => subscribe_calls rest
  end.

(** *** The listener loop of [__main__] *)

(** An item of [ps.listen()]: its ['type'] and its ['data']. *)
Record item : Type := mkItem { item_type : string; item_data : bytes }.

(** How [ps.listen()] stops yielding. *)
Inductive listen_end : Type :=
| ListenRaises (e : exn)
| ListenReturns.

(** What the broker does with one pass of the [while] loop. *)
Inductive subscription : Type :=
| SubscribeRaises (e : exn)
| Subscribed (items : list item) (fin : listen_end).

(** Modelled from the spec: [utils.helper.redis_subscribe] is not among the
    sources.  It subscribes to the named channel and returns the object
    whose [listen()] yields the broker's events, or raises. *)
Definition redis_subscribe (channel : string) (sub : subscription)
  : M (list item * listen_end) :=
  match sub with
  | SubscribeRaises e =>
      emit (EvSubscribe channel (Some e)) ;;; raise e
  | Subscribed items fin =>
      emit (EvSubscribe channel None) ;;; ret (items, fin)
  end.

(** [json.loads(item['data'].decode('utf-8'))]. *)
Definition decode_payload (data : bytes) : exn + value :=
  match decode_utf8 data with
  | inl e => inl e
  | inr text => json_loads text
  end.

(** The line logged for every item. *)
Definition received (it : item) : event :=
  EvLog INFO "reveived: type=%s running=%d pending=%d"
    [AStr (item_type it); APoolThreads; APoolPending].

(** [REDIS_CONFIG['REQUEST-QUEUE']+queue_no]. *)
Definition request_queue (queue_no : string) : string :=
  REDIS_CONFIG_REQUEST_QUEUE ++ queue_no.

(** [for item in ps.listen(): ...]. *)
Fixpoint listen_loop (items : list item) (fin : listen_end) : M unit :=
  match items with
  | [] =>
      match fin with
      | ListenRaises e => raise e
      | ListenReturns => ret tt
      end
  | it :: rest =>
      emit (received it) ;;;
      (if String.eqb (item_type it) "message" then
         msg_body <- lift (decode_payload (item_data it)) ;;
         emit (EvSubmit msg_body) ;;;
         log INFO "Thread future: " [AFuture]
       else ret tt) ;;;
      emit EvFlush ;;;
      listen_loop rest fin
  end.

(** The payloads of the data messages among [items] that decode, in the
    order of the items. *)
Fixpoint decoded_messages (items : list item) : list value :=
  match items with
  | [] => []
  | it :: rest =>
      if String.eqb (item_type it) "message" then
        match decode_payload (item_data it) with
        | inr msg_body => msg_body :: decoded_messages rest
        | inl _ => decoded_messages rest
        end
      else decoded_messages rest
  end.

(** The [try] block of the [while 1] loop. *)
Definition listener_try (queue_no : string) (sub : subscription) : M unit :=
  ps <- redis_subscribe (request_queue queue_no) sub ;;
  emit (EvExecutor MAX_DISPATCHER_WORKERS) ;;;
  listen_loop (fst ps) (snd ps).

(** Its [except Exception as e] clause. *)
Definition listener_except (e : exn) : M unit :=
  log INFO ("Exception: " ++ exn_str e) [] ;;;
  emit (EvSleep 20).

(** One pass of [while 1: try: ... except Exception as e: ...]. *)
Definition listener_pass (queue_no : string) (sub : subscription) : M unit :=
  try_except (listener_try queue_no sub) listener_except.

(** The [while 1] loop, for as many passes as the broker is observed. *)
Fixpoint listener (queue_no : string) (subs : list subscription) : M unit :=
  match subs with
  | [] => ret tt
  | sub :: rest => listener_pass queue_no sub ;;; listener queue_no rest
  end.

(** The jobs of a list, one after the other: what one worker does. *)
Fixpoint worker_run (jobs : list value) : M unit :=
  match jobs with
  | [] => ret tt
  | msg_body :: rest => process_thread msg_body ;;; worker_run rest
  end.

(** The listener over the observed passes, then the jobs it submitted, in
    the order of submission: the schedule in which the worker starts when the
    listener has handed over the last job. *)
Definition dispatcher_run (queue_no : string) (subs : list subscription)
  : M unit :=
  fun s =>
    match listener queue_no subs s with
    | (ev, s1, inl e) => (ev, s1, inl e)
    | (ev, s1, inr _) =>
        match worker_run (submitted_jobs ev) s1 with
        | (ev', s2, r) => ((ev ++ ev')%list, s2, r)
        end
    end.

(** *** The envelopes of the specification *)

(** A decoded payload that is a RequestEnvelope: an object with a string
    [request_id] and a [data] object holding a string [api] and an object
    [params]. *)
Definition is_envelope (msg_body : value) (request_id api : string)
    (params : list (string * value)) : Prop :=
  exists m d,
    msg_body = VDict m /\
    dict_lookup "request_id" m = Some (VStr request_id) /\
    dict_lookup "data" m = Some (VDict d) /\
    dict_lookup "api" d = Some (VStr api) /\
    dict_lookup "params" d = Some (VDict params).

(** The work channel message that carries an envelope. *)
Definition envelope (request_id api : string) (params : list (string * value))
  : value :=
  VDict [("request_id", VStr request_id);
         ("data", VDict [("api", VStr api); ("params", VDict params)])].

(** The [data] of a payload, as [process_thread] hands it to [process_api]. *)
Definition data_of (msg_body : value) : value :=
  match subscript msg_body "data" with
  | inr d => d
  | inl _ => VNone
  end.

Definition events_of {A} (r : list event * State * (exn + A)) : list event :=
  fst (fst r).

Definition state_of {A} (r : list event * State * (exn + A)) : State :=
  snd (fst r).

Definition outcome_of {A} (r : list event * State * (exn + A)) : exn + A :=
  snd r.

End Dispatcher.

(** ** The dispatch pool

    [concurrent.futures.ThreadPoolExecutor(max_workers=...)] as the listener
    uses it: [submit] queues a job, a free worker takes the oldest queued
    job, and a running job ends at some later point.  Which of the enabled
    steps happens next is the scheduler's choice. *)

Module Pool.
Section Pool.

Variable J : Type.

Record t : Type := mk {
  max_workers : nat;
  work_queue : list J;      (* queued, oldest first *)
  running : list J;         (* taken by a worker, not ended *)
  completed : list J;       (* ended, in the order they ended *)
  submitted : list J        (* every job given to [submit], in order *)
}.

(** Modelled from the spec: the pool is the standard library's, not code of
    the sources.  A new pool has [max_workers] workers and nothing queued. *)
Definition create (k : nat) : t := mk k [] [] [] [].

Inductive action : Type :=
| Submit (j : J)      (* [executor.submit] *)
| Start               (* a free worker takes the oldest queued job *)
| Finish (i : nat).   (* the [i]-th running job ends *)

Fixpoint remove_nth (i : nat) (l : list J) : list J :=
  match i, l with
  | _, [] => []
  | O, _ :: rest => rest
  | S i', x :: rest => x :: remove_nth i' rest
  end.

(** Modelled from the spec: one step of the pool; [None] when the step is
    not enabled. *)
Definition step (a : action) (p : t) : option t :=
  match a with
  | Submit j =>
      Some (mk (max_workers p) (work_queue p ++ [j]) (running p)
              (completed p) (submitted p ++ [j]))
  | Start =>
      match work_queue p with
      | [] => None
      | j :: rest =>
          if Nat.ltb (List.length (running p)) (max_workers p) then
            Some (mk (max_workers p) rest (running p ++ [j])
                    (completed p) (submitted p))
          else None
      end
  | Finish i =>
      match nth_error (running p) i with
      | None => None
      | Some j =>
          Some (mk (max_workers p) (work_queue p) (remove_nth i (running p))
                  (completed p ++ [j]) (submitted p))
      end
  end.

Fixpoint run (acts : list action) (p : t) : option t :=
  match acts with
  | [] => Some p
  | a :: rest =>
      match step a p with
      | None => None
      | Some p' => run rest p'
      end
  end.

(** Nothing queued and nothing running. *)
Definition idle (p : t) : Prop := work_queue p = [] /\ running p = [].

(** The jobs a worker has taken so far, in the order they ended or, for
    those still running, were taken. *)
Definition executed (p : t) : list J := (completed p ++ running p)%list.

Definition worker_step (a : action) : Prop :=
  match a with
  | Submit _ => False
  | _ => True
  end.

(** The steps that empty a pool: the running jobs end, then each queued job
    is taken and ends. *)
Definition drain (p : t) : list action :=
  (repeat (Finish 0) (List.length (running p))
   ++ List.concat (repeat [Start; Finish 0] (List.length (work_queue p))))%list.

(** What every step keeps: no more jobs run than there are workers, and the
    jobs ended, running and queued are the jobs submitted. *)
Definition accounted (p : t) : Prop :=
  (List.length (running p) <= max_workers p)%nat /\
  Permutation (executed p ++ work_queue p) (submitted p).

(** With one worker, they are the jobs submitted in the order of
    submission. *)
Definition in_order (p : t) : Prop :=
  (executed p ++ work_queue p)%list = submitted p.

End Pool.
End Pool.

Arguments Pool.mk {J}.
Arguments Pool.max_workers {J}.
Arguments Pool.work_queue {J}.
Arguments Pool.running {J}.
Arguments Pool.completed {J}.
Arguments Pool.submitted {J}.
Arguments Pool.create {J}.
Arguments Pool.Submit {J}.
Arguments Pool.Start {J}.
Arguments Pool.Finish {J}.
Arguments Pool.step {J}.
Arguments Pool.run {J}.
Arguments Pool.idle {J}.
Arguments Pool.executed {J}.
Arguments Pool.accounted {J}.
Arguments Pool.in_order {J}.
Arguments Pool.remove_nth {J}.
Arguments Pool.worker_step {J}.
Arguments Pool.drain {J}.

(** ** Reference collaborators

    Concrete collaborators on which the scenarios of the specification run:
    an image library that knows the PNG signature, an engine that answers
    "a cat", a broker that is either reachable or not, a UTF-8 decoder and a
    JSON decoder.  The JSON decoder covers objects, arrays, numbers, the
    literals and strings with the one-character escapes; a [\u] escape is
    outside it.  The texts of the decoders' errors are shortened. *)

Module Reference.

Definition string_of_bytes (bs : bytes) : string :=
  string_of_list_ascii (map (fun b => ascii_of_nat (Z.to_nat b)) bs).

Definition continuation (b : Z) : bool := (128 <=? b) && (b <=? 191).

Definition between (lo b hi : Z) : bool := (lo <=? b) && (b <=? hi).

(** Well-formed UTF-8 (RFC 3629). *)
Fixpoint utf8_valid (bs : bytes) : bool :=
  match bs with
  | [] => true
  | b0 :: r0 =>
      if b0 <? 128 then utf8_valid r0
      else
        match r0 with
        | [] => false
        | b1 :: r1 =>
            if between 194 b0 223 then continuation b1 && utf8_valid r1
            else
              match r1 with
              | [] => false
              | b2 :: r2 =>
                  if between 224 b0 239 then
                    (if b0 =? 224 then between 160 b1 191
                     else if b0 =? 237 then between 128 b1 159
                     else continuation b1)
                    && continuation b2 && utf8_valid r2
                  else
                    match r2 with
                    | [] => false
                    | b3 :: r3 =>
                        between 240 b0 244
                        && (if b0 =? 240 then between 144 b1 191
                            else if b0 =? 244 then between 128 b1 143
                            else continuation b1)
                        && continuation b2 && continuation b3 && utf8_valid r3
                    end
              end
        end
  end.

Definition decode_utf8 (bs : bytes) : exn + string :=
  if utf8_valid bs then inr (string_of_bytes bs)
  else inl (Raise UnicodeDecodeError "'utf-8' codec can't decode bytes")%string.

Definition is_ws (c : Z) : bool :=
  (c =? 32) || (c =? 9) || (c =? 10) || (c =? 13).

Fixpoint skip_ws (cs : bytes) : bytes :=
  match cs with
  | c :: r => if is_ws c then skip_ws r else cs
  | [] => []
  end.

Definition is_digit (c : Z) : bool := between 48 c 57.

Fixpoint take_digits (cs : bytes) : bytes * bytes :=
  match cs with
  | c :: r =>
      if is_digit c then
        match take_digits r with (ds, r') => (c :: ds, r') end
      else ([], cs)
  | [] => ([], [])
  end.

Definition digits_value (ds : bytes) : Z :=
  fold_left (fun a d => 10 * a + (d - 48)) ds 0.

(** The characters of a string up to its closing quote. *)
Fixpoint scan_string (cs : bytes) (acc : bytes) : option (string * bytes) :=
  match cs with
  | [] => None
  | c :: r =>
      if c =? 34 then Some (string_of_bytes acc, r)
      else if c <? 32 then None
      else if c =? 92 then
        match r with
        | [] => None
        | e :: r' =>
            if (e =? 34) || (e =? 92) || (e =? 47) then scan_string r' (acc ++ [e])
            else if e =? 98 then scan_string r' (acc ++ [8])
            else if e =? 102 then scan_string r' (acc ++ [12])
            else if e =? 110 then scan_string r' (acc ++ [10])
            else if e =? 114 then scan_string r' (acc ++ [13])
            else if e =? 116 then scan_string r' (acc ++ [9])
            else None
        end
      else scan_string r (acc ++ [c])
  end%list.

(** The fraction or the exponent after the integer part, if there is one. *)
Definition scan_fraction (cs : bytes) : bytes * bytes :=
  match cs with
  | 46 :: r =>
      match take_digits r with
      | ([], _) => ([], cs)
      | (ds, r') => (46 :: ds, r')
      end
  | _ => ([], cs)
  end.

Definition scan_exponent (cs : bytes) : bytes * bytes :=
  match cs with
  | e :: r =>
      if (e =? 101) || (e =? 69) then
        match r with
        | sg :: r1 =>
            if (sg =? 43) || (sg =? 45) then
              match take_digits r1 with
              | ([], _) => ([], cs)
              | (ds, r') => (e :: sg :: ds, r')
              end
            else
              match take_digits r with
              | ([], _) => ([], cs)
              | (ds, r') => (e :: ds, r')
              end
        | [] => ([], cs)
        end
      else ([], cs)
  | [] => ([], cs)
  end.

Definition scan_number (cs : bytes) : option (value * bytes) :=
  let '(sign, cs1) :=
    match cs with
    | 45 :: r => ([45], r)
    | _ => ([], cs)
    end in
  match take_digits cs1 with
  | ([], _) => None
  | (d :: ds, r) =>
      let '(int, r0) := if d =? 48 then ([d], (ds ++ r)%list) else (d :: ds, r) in
      let '(frac, r1) := scan_fraction r0 in
      let '(exp, r2) := scan_exponent r1 in
      match frac, exp with
      | [], [] =>
          Some (VInt (match sign with
                      | [] => digits_value int
                      | _ => - digits_value int
                      end), r2)
      | _, _ => Some (VFloat (string_of_bytes (sign ++ int ++ frac ++ exp)%list), r2)
      end
  end.

Fixpoint strip_prefix (p cs : bytes) : option bytes :=
  match p, cs with
  | [], _ => Some cs
  | a :: p', c :: cs' => if a =? c then strip_prefix p' cs' else None
  | _ :: _, [] => None
  end.

Definition scan_literal (cs : bytes) : option (value * bytes) :=
  match strip_prefix (bytes_of_string "true") cs with
  | Some r => Some (VBool true, r)
  | None =>
  match strip_prefix (bytes_of_string "false") cs with
  | Some r => Some (VBool false, r)
  | None =>
  match strip_prefix (bytes_of_string "null") cs with
  | Some r => Some (VNone, r)
  | None =>
  match strip_prefix (bytes_of_string "NaN") cs with
  | Some r => Some (VFloat "nan", r)
  | None =>
  match strip_prefix (bytes_of_string "Infinity") cs with
  | Some r => Some (VFloat "inf", r)
  | None =>
  match strip_prefix (bytes_of_string "-Infinity") cs with
  | Some r => Some (VFloat "-inf", r)
  | None => scan_number cs
  end end end end end end.

Fixpoint scan_value (fuel : nat) (cs : bytes) {struct fuel}
  : option (value * bytes) :=
  match fuel with
  | O => None
  | S f =>
      match skip_ws cs with
      | [] => None
      | c :: r =>
          if c =? 123 then
            match skip_ws r with
            | 125 :: r' => Some (VDict [], r')
            | _ => scan_members f r []
            end
          else if c =? 91 then
            match skip_ws r with
            | 93 :: r' => Some (VList [], r')
            | _ => scan_elements f r []
            end
          else if c =? 34 then
            match scan_string r [] with
            | Some (t, r') => Some (VStr t, r')
            | None => None
            end
          else scan_literal (c :: r)
      end
  end
with scan_elements (fuel : nat) (cs : bytes) (acc : list value) {struct fuel}
  : option (value * bytes) :=
  match fuel with
  | O => None
  | S f =>
      match scan_value f cs with
      | None => None
      | Some (v, r) =>
          match skip_ws r with
          | 44 :: r' => scan_elements f r' (acc ++ [v])%list
          | 93 :: r' => Some (VList (acc ++ [v])%list, r')
          | _ => None
          end
      end
  end
with scan_members (fuel : nat) (cs : bytes) (acc : list (string * value))
  {struct fuel} : option (value * bytes) :=
  match fuel with
  | O => None
  | S f =>
      match skip_ws cs with
      | 34 :: r =>
          match scan_string r [] with
          | None => None
          | Some (k, r1) =>
              match skip_ws r1 with
              | 58 :: r2 =>
                  match scan_value f r2 with
                  | None => None
                  | Some (v, r3) =>
                      match skip_ws r3 with
                      | 44 :: r4 => scan_members f r4 (dict_set k v acc)
                      | 125 :: r4 => Some (VDict (dict_set k v acc), r4)
                      | _ => None
                      end
                  end
              | _ => None
              end
          end
      | _ => None
      end
  end.

Definition json_loads (text : string) : exn + value :=
  let cs := bytes_of_string text in
  match scan_value (S (List.length cs)) cs with
  | None => inl (Raise JSONDecodeError "Expecting value")
  | Some (v, r) =>
      match skip_ws r with
      | [] => inr v
      | _ => inl (Raise JSONDecodeError "Extra data")
      end
  end.

Definition png_signature : bytes := [137; 80; 78; 71; 13; 10; 26; 10].

(** An image is kept as the bytes it was read from. *)
Definition Image_open (data : bytes) : exn + bytes :=
  match strip_prefix png_signature data with
  | Some _ => inr data
  | None =>
      inl (Raise (OtherError "UnidentifiedImageError") "cannot identify image file")
  end.

(** The engine counts its calls and answers "a cat". *)
Definition engine_chat (calls : nat) (question : value) (img : bytes)
  : nat * (exn + value) :=
  (S calls, inr (VStr "a cat")).

(** The broker is reachable ([true]) or not. *)
Definition broker_publish (reachable : bool) (channel : value) (r : Result)
  : bool * option exn :=
  if reachable then (reachable, None)
  else (reachable,
        Some (Raise (OtherError "ConnectionError")
                "Error 111 connecting to 127.0.0.1:7480. Connection refused.")).

Definition collaborators : Collaborators :=
  Build_Collaborators bytes nat bool
    Image_open engine_chat broker_publish decode_utf8 json_loads.

(** A state of the reference collaborators: the engine has answered no
    call yet, the broker is reachable or not. *)
Definition state (reachable : bool) : @State collaborators :=
  @mkState collaborators 0%nat reachable.

(** The scenario of the specification: a question and a PNG. *)
Definition chat_r1 : value :=
  envelope "r1" "/api/internvl/chat"
    [("text", VStr "What is this?"); ("image", VStr "iVBORw0KGgo=")].

Definition on_queue (payloads : list string) (fin : listen_end)
  : subscription :=
  Subscribed (map (fun t => mkItem "message" (bytes_of_string t)) payloads) fin.

Definition connection_reset : exn :=
  Raise (OtherError "ConnectionError") "Connection reset by peer".

End Reference.

(** ** The dispatcher's edge cases *)

(** The Result of the [except] clause of [process_api] that takes [e]. *)
Definition coded (e : exn) : Result :=
  if is_BinasciiError e then mkResult 9901 (msg_base64 ++ exn_str e) None
  else if is_JSONDecodeError e then mkResult 9902 (msg_json ++ exn_str e) None
  else mkResult 9998 (msg_unknown_error ++ exn_str e) None.

(** The characters [a2b_base64] does not skip. *)
Definition significant (c : Z) : bool := (c =? BASE64_PAD) || is_alphabet c.

(** The bytes decoded from [n] characters of the alphabet read from
    position [q] of a group of four: every character but the first of a
    group completes a byte. *)
Definition completed_bytes (q n : Z) : Z := n - ((q + n + 3) / 4 - (q + 3) / 4).

(** The padding characters a valid string ends in. *)
Definition padding (cs : bytes) : Z :=
  Z.of_nat (List.length cs) - Z.of_nat (List.length (strip_padding (rev cs))).

Section DispatcherEdges.

Context {C : Collaborators}.

(** An item whose payload, when it is a data message, decodes. *)
Definition decodable (it : item) : Prop :=
  item_type it = "message" ->
  exists msg_body, decode_payload (item_data it) = inr msg_body.

Definition is_message (it : item) : bool := String.eqb (item_type it) "message".

(** Whether the [try] block of a pass raises. *)
Definition pass_raises (queue_no : string) (s : State) (sub : subscription)
  : bool :=
  match outcome_of (listener_try queue_no sub s) with
  | inl _ => true
  | inr _ => false
  end.

End DispatcherEdges.

(** ** Python numbers

    A Python [float] is an IEEE 754 binary64 number, [PrimFloat.float]; an
    [int] is a [Z].  The operations are those [vlchat.py] uses. *)

Module Py.

Definition ZeroDivisionError : exn_class := OtherError "ZeroDivisionError".
Definition OverflowError : exn_class := OtherError "OverflowError".
Definition IndexError : exn_class := OtherError "IndexError".
Definition AssertionError : exn_class := OtherError "AssertionError".

(** An [int] as an exact, unrounded float. *)
Definition exact (z : Z) : spec_float :=
  match z with
  | Z0 => S754_zero false
  | Zpos p => S754_finite false p 0
  | Zneg p => S754_finite true p 0
  end.

(** [float(z)]: the nearest float, ties to even. *)
Definition float_of_int (z : Z) : exn + float :=
  let f := SF2Prim (binary_normalize prec emax z 0 false) in
  if PrimFloat.is_infinity f then
    inl (Raise OverflowError "int too large to convert to float")
  else inr f.

(** [a / b] on two [int]s: the exact quotient, rounded once. *)
Definition int_truediv (a b : Z) : exn + float :=
  if b =? 0 then inl (Raise ZeroDivisionError "division by zero")
  else
    let f := SF2Prim (SFdiv prec emax (exact a) (exact b)) in
    if PrimFloat.is_infinity f then
      inl (Raise OverflowError "integer division result too large for a float")
    else inr f.

(** [x / y] on two [float]s. *)
Definition float_truediv (x y : float) : exn + float :=
  if PrimFloat.eqb y 0 then
    inl (Raise ZeroDivisionError "float division by zero")
  else inr (PrimFloat.div x y).

(** [math.ceil(x)]. *)
Definition math_ceil (x : float) : exn + Z :=
  match Prim2SF x with
  | S754_zero _ => inr 0
  | S754_finite s m e =>
      let magnitude_up :=
        if 0 <=? e then Z.shiftl (Zpos m) e
        else - Z.shiftr (- Zpos m) (- e) in
      let magnitude_down :=
        if 0 <=? e then Z.shiftl (Zpos m) e
        else Z.shiftr (Zpos m) (- e) in
      inr (if s then - magnitude_down else magnitude_up)
  | S754_infinity _ =>
      inl (Raise OverflowError "cannot convert float infinity to integer")
  | S754_nan => inl (Raise ValueError "cannot convert float NaN to integer")
  end.

(** [a > x] for an [int] and a [float]: compared as they are, without
    rounding the [int]. *)
Definition int_gt_float (a : Z) (x : float) : bool :=
  match Prim2SF x with
  | S754_zero _ => 0 <? a
  | S754_finite s m e =>
      let v := if s then Zneg m else Zpos m in
      if 0 <=? e then Z.shiftl v e <? a
      else v <? Z.shiftl a (- e)
  | S754_infinity s => s
  | S754_nan => false
  end.

End Py.

(** ** vlchat.py: the device map and the tiles *)

Module Vlchat.

Definition bind {A B} (r : exn + A) (f : A -> exn + B) : exn + B :=
  match r with
  | inl e => inl e
  | inr a => f a
  end.

Notation "x <- r ;; k" := (bind r (fun x => k))
  (at level 61, r at next level, right associativity).

(** [a - x], [a / x] and [a * x] for an [int] [a] and a [float] [x]. *)
Definition int_sub_float (a : Z) (x : float) : exn + float :=
  fa <- Py.float_of_int a ;; inr (PrimFloat.sub fa x).

Definition int_div_float (a : Z) (x : float) : exn + float :=
  fa <- Py.float_of_int a ;; Py.float_truediv fa x.

Definition int_mul_float (a : Z) (x : float) : exn + float :=
  fa <- Py.float_of_int a ;; inr (PrimFloat.mul fa x).

Definition float_mul_int (x : float) (a : Z) : exn + float :=
  fa <- Py.float_of_int a ;; inr (PrimFloat.mul x fa).

(** *** split_model *)

Definition num_layers_table : list (string * Z) :=
  [("InternVL2_5-1B", 24); ("InternVL2_5-2B", 24); ("InternVL2_5-4B", 36);
   ("InternVL2_5-8B", 32); ("InternVL2_5-26B", 48); ("InternVL2_5-38B", 64);
   ("InternVL2_5-78B", 80)].

Fixpoint table_lookup (k : string) (t : list (string * Z)) : option Z :=
  match t with
  | [] => None
  | (k', v) :: rest => if String.eqb k k' then Some v else table_lookup k rest
  end.

(** [math.ceil(num_layers / (world_size - 0.5))]. *)
Definition layers_per_gpu (num_layers world_size : Z) : exn + Z :=
  d <- int_sub_float world_size 0.5 ;;
  q <- int_div_float num_layers d ;;
  Py.math_ceil q.

(** [math.ceil(n * 0.5)]. *)
Definition half_of (n : Z) : exn + Z :=
  h <- int_mul_float n 0.5 ;;
  Py.math_ceil h.

(** The list [num_layers_per_gpu] when the loops begin. *)
Definition layer_counts (num_layers world_size : Z) : exn + list Z :=
  per_gpu <- layers_per_gpu num_layers world_size ;;
  match repeat per_gpu (Z.to_nat world_size) with
  | [] => inl (Raise Py.IndexError "list index out of range")
  | first :: rest =>
      first' <- half_of first ;;
      inr (first' :: rest)
  end.

Definition layer_key (layer : Z) : string :=
  "language_model.model.layers." ++ string_of_Z layer.

(** [for j in range(num_layer): ...] for GPU [i]. *)
Fixpoint assign_gpu (device_map : list (string * value)) (layer_cnt i : Z)
    (num_layer : nat) : list (string * value) * Z :=
  match num_layer with
  | O => (device_map, layer_cnt)
  | S rest =>
      assign_gpu (dict_set (layer_key layer_cnt) (VInt i) device_map)
        (layer_cnt + 1) i rest
  end.

(** [for i, num_layer in enumerate(num_layers_per_gpu): ...]. *)
Fixpoint assign_layers (device_map : list (string * value)) (layer_cnt i : Z)
    (num_layers_per_gpu : list Z) : list (string * value) * Z :=
  match num_layers_per_gpu with
  | [] => (device_map, layer_cnt)
  | num_layer :: rest =>
      match assign_gpu device_map layer_cnt i (Z.to_nat num_layer) with
      | (device_map', layer_cnt') =>
          assign_layers device_map' layer_cnt' (i + 1) rest
      end
  end.

(** The keys set to [main_gpu] after the loops, in their order. *)
Definition main_gpu_keys (num_layers : Z) : list string :=
  ["vision_model"; "mlp1"; "language_model.model.tok_embeddings";
   "language_model.model.embed_tokens"; "language_model.output";
   "language_model.model.norm"; "language_model.model.rotary_emb";
   "language_model.lm_head"; layer_key (num_layers - 1)].

Definition split_model (model_name : string) (gpu_num main_gpu : Z)
  : exn + list (string * value) :=
  let world_size := gpu_num in
  match table_lookup model_name num_layers_table with
  | None => inl (Raise KeyError ("'" ++ model_name ++ "'"))
  | Some num_layers =>
      num_layers_per_gpu <- layer_counts num_layers world_size ;;
      let device_map := fst (assign_layers [] 0 0 num_layers_per_gpu) in
      inr (fold_left (fun dm k => dict_set k (VInt main_gpu) dm)
             (main_gpu_keys num_layers) device_map)
  end.

(** [VLChat.__init__]: the device map it asks for, if any. *)
Definition VLChat_device_map (gpu_num main_gpu : Z)
  : option (exn + list (string * value)) :=
  if 1 <? gpu_num then Some (split_model "InternVL2_5-1B" gpu_num main_gpu)
  else None.

(** *** find_closest_aspect_ratio *)

Definition ratio : Type := (Z * Z)%type.

(** [abs(aspect_ratio - ratio[0] / ratio[1])]. *)
Definition ratio_diff (aspect_ratio : float) (r : ratio) : exn + float :=
  target_aspect_ratio <- Py.int_truediv (fst r) (snd r) ;;
  inr (PrimFloat.abs (PrimFloat.sub aspect_ratio target_aspect_ratio)).

(** [area > 0.5 * image_size * image_size * ratio[0] * ratio[1]]. *)
Definition area_exceeds (area image_size : Z) (r : ratio) : exn + bool :=
  t1 <- float_mul_int 0.5 image_size ;;
  t2 <- float_mul_int t1 image_size ;;
  t3 <- float_mul_int t2 (fst r) ;;
  t4 <- float_mul_int t3 (snd r) ;;
  inr (Py.int_gt_float area t4).

(** The [for] loop, from [best_ratio_diff] and [best_ratio] so far. *)
Fixpoint closest_loop (aspect_ratio : float) (target_ratios : list ratio)
    (area image_size : Z) (best_ratio_diff : float) (best_ratio : ratio)
  : exn + (float * ratio) :=
  match target_ratios with
  | [] => inr (best_ratio_diff, best_ratio)
  | r :: rest =>
      d <- ratio_diff aspect_ratio r ;;
      if PrimFloat.ltb d best_ratio_diff then
        closest_loop aspect_ratio rest area image_size d r
      else if PrimFloat.eqb d best_ratio_diff then
        larger <- area_exceeds area image_size r ;;
        if larger : bool then
          closest_loop aspect_ratio rest area image_size best_ratio_diff r
        else
          closest_loop aspect_ratio rest area image_size best_ratio_diff
            best_ratio
      else
        closest_loop aspect_ratio rest area image_size best_ratio_diff
          best_ratio
  end.

Definition find_closest_aspect_ratio (aspect_ratio : float)
    (target_ratios : list ratio) (width height image_size : Z) : exn + ratio :=
  let area := width * height in
  found <- closest_loop aspect_ratio target_ratios area image_size
             PrimFloat.infinity (1, 1) ;;
  inr (snd found).

(** *** dynamic_preprocess *)

(** [range(lo, hi)]. *)
Definition py_range (lo hi : Z) : list Z :=
  map (fun k => lo + Z.of_nat k) (seq 0 (Z.to_nat (hi - lo))).

(** The pairs the generator yields, in the order it yields them. *)
Definition ratio_candidates (min_num max_num : Z) : list ratio :=
  flat_map (fun n =>
    flat_map (fun i =>
      flat_map (fun j =>
        if (i * j <=? max_num) && (i * j >=? min_num) then [(i, j)] else [])
        (py_range 1 (n + 1)))
      (py_range 1 (n + 1)))
    (py_range min_num (max_num + 1)).

(** [sorted(..., key=lambda x: x[0] * x[1])]: a stable sort. *)
Fixpoint insert_by_area (r : ratio) (sorted : list ratio) : list ratio :=
  match sorted with
  | [] => [r]
  | r' :: rest =>
      if fst r' * snd r' <=? fst r * snd r then r' :: insert_by_area r rest
      else r :: sorted
  end.

Definition sorted_by_area (l : list ratio) : list ratio :=
  fold_left (fun acc r => insert_by_area r acc) l [].

(** A PIL image, as the calls that made it: [Image.open], [resize] and
    [crop], which are taken to return for a positive size. *)
Inductive picture : Type :=
| Opened (width height : Z)
| Resized (src : picture) (width height : Z)
| Cropped (src : picture) (box : Z * Z * Z * Z).

(** [image.size]. *)
Definition size (image : picture) : Z * Z :=
  match image with
  | Opened w h => (w, h)
  | Resized _ w h => (w, h)
  | Cropped _ (x0, y0, x1, y1) => (x1 - x0, y1 - y0)
  end.

(** [a // b] and [a % b]. *)
Definition floordiv (a b : Z) : exn + Z :=
  if b =? 0 then
    inl (Raise Py.ZeroDivisionError "integer division or modulo by zero")
  else inr (a / b).

Definition modulo (a b : Z) : exn + Z :=
  if b =? 0 then
    inl (Raise Py.ZeroDivisionError "integer division or modulo by zero")
  else inr (a mod b).

(** The [box] of tile [i]. *)
Definition tile_box (i target_width image_size : Z) : exn + Z * Z * Z * Z :=
  n1 <- floordiv target_width image_size ;;
  c1 <- modulo i n1 ;;
  n2 <- floordiv target_width image_size ;;
  r1 <- floordiv i n2 ;;
  n3 <- floordiv target_width image_size ;;
  c2 <- modulo i n3 ;;
  n4 <- floordiv target_width image_size ;;
  r2 <- floordiv i n4 ;;
  inr (c1 * image_size, r1 * image_size,
       (c2 + 1) * image_size, (r2 + 1) * image_size).

(** [for i in range(blocks): ...]. *)
Fixpoint crop_tiles (resized_img : picture) (target_width image_size : Z)
    (tiles : list Z) (processed_images : list picture)
  : exn + list picture :=
  match tiles with
  | [] => inr processed_images
  | i :: rest =>
      box <- tile_box i target_width image_size ;;
      crop_tiles resized_img target_width image_size rest
        (processed_images ++ [Cropped resized_img box])
  end.

Section DynamicPreprocess.

(** The order in which a [set] of pairs is iterated; Python does not say. *)
Variable set_order : list ratio -> list ratio.

Definition target_ratios (min_num max_num : Z) : list ratio :=
  sorted_by_area (set_order (ratio_candidates min_num max_num)).

Definition dynamic_preprocess (image : picture)
    (min_num max_num image_size : Z) (use_thumbnail : bool)
  : exn + list picture :=
  let '(orig_width, orig_height) := size image in
  aspect_ratio <- Py.int_truediv orig_width orig_height ;;
  target_aspect_ratio <-
    find_closest_aspect_ratio aspect_ratio (target_ratios min_num max_num)
      orig_width orig_height image_size ;;
  let target_width := image_size * fst target_aspect_ratio in
  let target_height := image_size * snd target_aspect_ratio in
  let blocks := fst target_aspect_ratio * snd target_aspect_ratio in
  let resized_img := Resized image target_width target_height in
  processed_images <-
    crop_tiles resized_img target_width image_size (py_range 0 blocks) [] ;;
  if negb (Z.of_nat (List.length processed_images) =? blocks) then
    inl (Raise Py.AssertionError "")
  else if use_thumbnail
          && negb (Z.of_nat (List.length processed_images) =? 1) then
    inr (processed_images ++ [Resized image image_size image_size])%list
  else inr processed_images.

End DynamicPreprocess.

End Vlchat.

(** ** What [split_model] computes, in exact arithmetic

    [layers_on_gpu n w] is the ceiling of [n / (w - 1/2)]: the layers a GPU
    other than the first is given.  The first is given half of them, rounded
    up. *)

Module DeviceMap.

Definition layers_on_gpu (num_layers world_size : Z) : Z :=
  (2 * num_layers + 2 * world_size - 2) / (2 * world_size - 1).

Definition layers_on_first_gpu (num_layers world_size : Z) : Z :=
  (layers_on_gpu num_layers world_size + 1) / 2.

(** The layer keys the two loops write. *)
Definition layers_assigned (num_layers world_size : Z) : Z :=
  layers_on_first_gpu num_layers world_size
  + (world_size - 1) * layers_on_gpu num_layers world_size.

(** The GPU the loops give layer [j]. *)
Definition device_of_layer (num_layers world_size j : Z) : Z :=
  if j <? layers_on_first_gpu num_layers world_size then 0
  else 1 + (j - layers_on_first_gpu num_layers world_size)
           / layers_on_gpu num_layers world_size.

(** The modules [split_model] names besides the layers. *)
Definition named_modules : list string :=
  ["vision_model"; "mlp1"; "language_model.model.tok_embeddings";
   "language_model.model.embed_tokens"; "language_model.output";
   "language_model.model.norm"; "language_model.model.rotary_emb";
   "language_model.lm_head"].

(** [layers_per_gpu] and [half_of] round as the exact ceilings do. *)
Definition counts_agree (num_layers world_size : Z) : bool :=
  match Vlchat.layers_per_gpu num_layers world_size with
  | inr p =>
      (p =? layers_on_gpu num_layers world_size)
      && match Vlchat.half_of p with
         | inr h => h =? layers_on_first_gpu num_layers world_size
         | inl _ => false
         end
  | inl _ => false
  end.

End DeviceMap.

(** ** Tiles *)

Module Tiles.

Import Vlchat.

Definition ratio_eq_dec (a b : Z * Z) : {a = b} + {a <> b}.
Proof. decide equality; apply Z.eq_dec. Defined.

(** The pixel [(x, y)] lies in a crop box [(left, upper, right, lower)]. *)
Definition box_contains (x y : Z) (box : Z * Z * Z * Z) : Prop :=
  let '(x0, y0, x1, y1) := box in x0 <= x < x1 /\ y0 <= y < y1.

(** Tile [i] of an image cut into [a] columns of squares of side [s]. *)
Definition tile (resized_img : picture) (a s i : Z) : picture :=
  Cropped resized_img
    (i mod a * s, i / a * s, (i mod a + 1) * s, (i / a + 1) * s).

(** The images [load_image] transforms and stacks. *)
Definition load_image_tiles (set_order : list ratio -> list ratio)
    (image : picture) (input_size max_num : Z) : exn + list picture :=
  dynamic_preprocess set_order image 1 max_num input_size true.

(** A ratio whose quotient and whose factors have a [float]. *)
Definition ratio_computes (r : ratio) : bool :=
  match Py.int_truediv (fst r) (snd r),
        Py.float_of_int (fst r), Py.float_of_int (snd r) with
  | inr _, inr _, inr _ => true
  | _, _, _ => false
  end.

(** The order [sorted] puts the ratios in. *)
Definition area_le (r r' : ratio) : Prop :=
  fst r * snd r <= fst r' * snd r'.

End Tiles.

(** * Properties *)

(** ** The base64 decoder on the specification's inputs *)

Example b64decode_png_signature :
  b64decode (VStr "iVBORw0KGgo=") = inr [137; 80; 78; 71; 13; 10; 26; 10].
Proof. reflexivity. Qed.

Example b64decode_scenario :
  b64decode (VStr "not-base64!!") =
  inl (Raise BinasciiError
         "Invalid base64-encoded string: number of data characters (9) cannot be 1 more than a multiple of 4").
Proof. reflexivity. Qed.

Example b64decode_skips_foreign_characters :
  b64decode (VStr "ab!cd") = inr [105; 183; 29].
Proof. reflexivity. Qed.

Example b64decode_stops_at_padding :
  b64decode (VStr "ab==cd") = inr [105].
Proof. reflexivity. Qed.

Example valid_base64_png_signature : valid_base64 "iVBORw0KGgo=" = true.
Proof. reflexivity. Qed.

Example valid_base64_scenario : valid_base64 "not-base64!!" = false.
Proof. reflexivity. Qed.

Example valid_base64_foreign_character : valid_base64 "ab!cd" = false.
Proof. reflexivity. Qed.

(** ** What the decoder accepts *)

Lemma is_alphabet_char (c : Z) :
  is_alphabet c = true ->
  (c =? BASE64_PAD) = false /\ (c <? 128) = true /\
  exists v, table_a2b_base64 c = Some v.
Proof.
  unfold is_alphabet, table_a2b_base64, BASE64_PAD.
  destruct ((65 <=? c) && (c <=? 90)) eqn:H1;
    [|destruct ((97 <=? c) && (c <=? 122)) eqn:H2;
      [|destruct ((48 <=? c) && (c <=? 57)) eqn:H3;
        [|destruct (c =? 43) eqn:H4; [|destruct (c =? 47) eqn:H5]]]];
    intros H; try discriminate;
    (split; [|split; [|eexists; reflexivity]]); lia.
Qed.

Lemma loop_alphabet (l : bytes) :
  forallb is_alphabet l = true ->
  forall (q leftchar : Z) (out rest : bytes),
    q = 0 \/ q = 1 \/ q = 2 \/ q = 3 ->
    exists leftchar' out',
      a2b_base64_loop (l ++ rest)%list q leftchar 0 out =
      a2b_base64_loop rest ((q + Z.of_nat (List.length l)) mod 4) leftchar' 0 out'.
Proof.
  induction l as [|c l IH]; intros Hl q leftchar out rest Hq.
  - exists leftchar, out. destruct Hq as [-> | [-> | [-> | ->]]]; reflexivity.
  - cbn [forallb] in Hl. apply andb_prop in Hl as [Hc Hl].
    destruct (is_alphabet_char c Hc) as (Hpad & _ & v & Hv).
    cbn [app a2b_base64_loop]. rewrite Hpad, Hv.
    cbn [List.length]. rewrite Nat2Z.inj_succ.
    destruct Hq as [-> | [-> | [-> | ->]]]; cbn [Z.eqb Pos.eqb].
    + destruct (IH Hl 1 v out rest) as (lc & o & ->); [auto|].
      exists lc, o. f_equal. f_equal. lia.
    + destruct (IH Hl 2 (Z.land v 15)
                  (out ++ [Z.land (Z.lor (Z.shiftl leftchar 2) (Z.shiftr v 4)) 255])%list
                  rest) as (lc & o & ->); [auto|].
      exists lc, o. f_equal. f_equal. lia.
    + destruct (IH Hl 3 (Z.land v 3)
                  (out ++ [Z.land (Z.lor (Z.shiftl leftchar 4) (Z.shiftr v 2)) 255])%list
                  rest) as (lc & o & ->); [auto|].
      exists lc, o. f_equal. f_equal. lia.
    + destruct (IH Hl 0 0
                  (out ++ [Z.land (Z.lor (Z.shiftl leftchar 6) v) 255])%list
                  rest) as (lc & o & ->); [auto|].
      exists lc, o. f_equal.
      replace (3 + Z.succ (Z.of_nat (List.length l)))
        with (0 + Z.of_nat (List.length l) + 1 * 4) by lia.
      apply eq_sym, Z_mod_plus_full.
Qed.

Lemma forallb_rev {A} (f : A -> bool) (l : list A) :
  forallb f l = true -> forallb f (rev l) = true.
Proof.
  rewrite !forallb_forall. intros H x Hx. apply H, in_rev, Hx.
Qed.

Lemma alphabet_is_ascii (l : bytes) :
  forallb is_alphabet l = true -> is_ascii l = true.
Proof.
  unfold is_ascii. rewrite !forallb_forall. intros H x Hx.
  apply (is_alphabet_char x (H x Hx)).
Qed.

(** The decoder accepts every valid string: what it refuses is not valid
    base64. *)
Lemma valid_base64_bytes_decoded (cs : bytes) :
  valid_base64_bytes cs = true ->
  is_ascii cs = true /\ exists data, a2b_base64 cs = inr data.
Proof.
  unfold valid_base64_bytes. intros H. apply andb_prop in H as [Hlen Hall].
  apply Z.eqb_eq in Hlen.
  rewrite <- (rev_involutive cs) in Hlen |- *.
  rewrite length_rev in Hlen.
  destruct (rev cs) as [|a [|b r]].
  - split; [reflexivity|]. exists []. reflexivity.
  - discriminate Hlen.
  - cbn [strip_padding] in Hall. cbn [rev]. unfold a2b_base64.
    cbn [List.length] in Hlen. rewrite !Nat2Z.inj_succ in Hlen.
    destruct (a =? BASE64_PAD) eqn:Ha.
    + apply Z.eqb_eq in Ha. subst a.
      destruct (b =? BASE64_PAD) eqn:Hb; cbn [andb] in Hall.
      * apply Z.eqb_eq in Hb. subst b. apply forallb_rev in Hall.
        split.
        { unfold is_ascii. rewrite !forallb_app.
          fold (is_ascii (rev r)). rewrite (alphabet_is_ascii _ Hall).
          reflexivity. }
        rewrite <- app_assoc.
        destruct (loop_alphabet (rev r) Hall 0 0 [] ([BASE64_PAD] ++ [BASE64_PAD])%list)
          as (lc & o & ->); [auto|].
        rewrite length_rev.
        replace ((0 + Z.of_nat (List.length r)) mod 4) with 2
          by (revert Hlen; Z.div_mod_to_equations; lia).
        exists o. reflexivity.
      * apply forallb_rev in Hall. cbn [rev] in Hall.
        split.
        { unfold is_ascii. rewrite forallb_app.
          fold (is_ascii (rev r ++ [b])%list).
          rewrite (alphabet_is_ascii _ Hall). reflexivity. }
        destruct (loop_alphabet (rev r ++ [b])%list Hall 0 0 [] [BASE64_PAD])
          as (lc & o & ->); [auto|].
        rewrite length_app, length_rev. cbn [List.length].
        replace ((0 + Z.of_nat (List.length r + 1)) mod 4) with 3
          by (revert Hlen; rewrite Nat2Z.inj_add;
              Z.div_mod_to_equations; lia).
        exists o. reflexivity.
    + rewrite andb_false_l in Hall. apply forallb_rev in Hall.
      cbn [rev] in Hall. split; [exact (alphabet_is_ascii _ Hall)|].
      destruct (loop_alphabet _ Hall 0 0 [] [] (or_introl eq_refl))
        as (lc & o & H).
      rewrite app_nil_r in H. rewrite H.
      rewrite !length_app, length_rev. cbn [List.length].
      replace ((0 + Z.of_nat (List.length r + 1 + 1)) mod 4) with 0
        by (revert Hlen; rewrite !Nat2Z.inj_add;
            Z.div_mod_to_equations; lia).
      exists o. reflexivity.
Qed.

Lemma valid_base64_decoded (t : string) :
  valid_base64 t = true -> exists data, b64decode (VStr t) = inr data.
Proof.
  intros H. destruct (valid_base64_bytes_decoded _ H) as (Hascii & data & Hd).
  exists data. cbn [b64decode]. rewrite Hascii. exact Hd.
Qed.

Lemma refused_is_not_valid_base64 (t : string) (e : exn) :
  b64decode (VStr t) = inl e -> valid_base64 t = false.
Proof.
  intros H. destruct (valid_base64 t) eqn:Hv; [|reflexivity].
  destruct (valid_base64_decoded t Hv) as [data Hd]. congruence.
Qed.

(** Only a string can be refused with [binascii.Error]. *)
Lemma refused_is_a_string (b64 : value) (e : exn) :
  b64decode b64 = inl e -> is_BinasciiError e = true ->
  exists t, b64 = VStr t.
Proof.
  destruct b64 as [|b|n|t|t|l|m]; cbn [b64decode]; intros H Hk;
    try (injection H as <-; discriminate Hk).
  exists t. reflexivity.
Qed.

(** ** The monad *)

Section MonadLaws.

Context {C : Collaborators}.

Lemma bind_lift_inr {A B} (a : A) (f : A -> M B) (s : State) :
  bind (lift (inr a)) f s = f a s.
Proof.
  unfold bind, lift. destruct (f a s) as [[ev s'] r]. reflexivity.
Qed.

Lemma bind_lift_inl {A B} (e : exn) (f : A -> M B) (s : State) :
  bind (lift (inl e)) f s = ([], s, inl e).
Proof. reflexivity. Qed.

Lemma bind_emit {B} (e : event) (f : unit -> M B) (s : State) :
  bind (emit e) f s =
  (e :: events_of (f tt s), state_of (f tt s), outcome_of (f tt s)).
Proof.
  unfold bind, emit, events_of, state_of, outcome_of.
  destruct (f tt s) as [[ev s'] r]. reflexivity.
Qed.

Lemma run_eta {A} (r : list event * State * (exn + A)) :
  r = (events_of r, state_of r, outcome_of r).
Proof. destruct r as [[ev s] o]. reflexivity. Qed.

Lemma publish_calls_app (a b : list event) :
  publish_calls (a ++ b) = (publish_calls a ++ publish_calls b)%list.
Proof.
  induction a as [|e a IH]; [reflexivity|].
  destruct e; simpl; rewrite IH; reflexivity.
Qed.

Lemma published_app (a b : list event) :
  published (a ++ b) = (published a ++ published b)%list.
Proof.
  induction a as [|e a IH]; [reflexivity|].
  destruct e as [| | ? ? [?|] | | | | |]; simpl; rewrite IH; reflexivity.
Qed.

Lemma engine_calls_app (a b : list event) :
  engine_calls (a ++ b) = (engine_calls a ++ engine_calls b)%list.
Proof.
  induction a as [|e a IH]; [reflexivity|].
  destruct e; simpl; rewrite IH; reflexivity.
Qed.

Lemma submitted_jobs_app (a b : list event) :
  submitted_jobs (a ++ b) = (submitted_jobs a ++ submitted_jobs b)%list.
Proof.
  induction a as [|e a IH]; [reflexivity|].
  destruct e; simpl; rewrite IH; reflexivity.
Qed.

Lemma sleeps_app (a b : list event) :
  sleeps (a ++ b) = (sleeps a ++ sleeps b)%list.
Proof.
  induction a as [|e a IH]; [reflexivity|].
  destruct e; simpl; rewrite IH; reflexivity.
Qed.

Lemma subscribe_calls_app (a b : list event) :
  subscribe_calls (a ++ b) = (subscribe_calls a ++ subscribe_calls b)%list.
Proof.
  induction a as [|e a IH]; [reflexivity|].
  destruct e; simpl; rewrite IH; reflexivity.
Qed.

End MonadLaws.

(** ** The api dispatch *)

Section ApiProperties.

Context {C : Collaborators}.

Lemma bind_chat_w_image {B} (q : value) (img : Image) (f : value -> M B)
    (s : State) :
  bind (chat_w_image q img) f s =
  match engine_chat (engine s) q img with
  | (eng, inl e) => ([EvEngine q img], mkState eng (broker s), inl e)
  | (eng, inr a) =>
      let r := f a (mkState eng (broker s)) in
      (EvEngine q img :: events_of r, state_of r, outcome_of r)
  end.
Proof.
  unfold bind, chat_w_image, events_of, state_of, outcome_of.
  destruct (engine_chat (engine s) q img) as [eng [e|a]]; [reflexivity|].
  cbn. destruct (f a _) as [[ev s'] r]. reflexivity.
Qed.

(** One statement of a [try] block: a pure step that raises or returns, a
    log line, the engine call, a branch. *)
Ltac step :=
  match goal with
  | |- context [bind (lift ?x) _ _] =>
      destruct x eqn:?; [rewrite bind_lift_inl | rewrite bind_lift_inr]
  | |- context [bind (log _ _ _) _ _] => unfold log; rewrite bind_emit
  | |- context [bind (emit _) _ _] => rewrite bind_emit
  | |- context [bind (chat_w_image _ _) _ _] =>
      rewrite bind_chat_w_image;
      match goal with
      | |- context [engine_chat ?e ?q ?i] =>
          let eng := fresh "eng" in
          destruct (engine_chat e q i) as [eng [?|?]] eqn:?
      end
  | |- context [if ?b then _ else _] => destruct b eqn:?
  end.

Lemma process_api_except_shape (e : exn) (s : State) :
  exists text r,
    process_api_except e s = ([EvLog ERROR text [AExn e]], s, inr r) /\
    In (code r) [9901; 9902; 9998] /\ result r = None.
Proof.
  unfold process_api_except.
  destruct (is_BinasciiError e); [|destruct (is_JSONDecodeError e)];
    eexists; eexists; (split; [reflexivity|]); simpl; auto.
Qed.

Lemma process_api_try_shape (request : value) (s : State) :
  let r := process_api_try request s in
  publish_calls (events_of r) = [] /\
  broker (state_of r) = broker s /\
  (engine_calls (events_of r) = [] -> engine (state_of r) = engine s) /\
  (forall a, outcome_of r = inr a -> In (code a) [0; 9900]).
Proof.
  unfold process_api_try. repeat step; cbn.
  all: repeat split; auto; try discriminate.
  all: intros a Ha; inversion Ha; cbn; auto.
Qed.

(** [process_api] returns a Result, publishes nothing and leaves the broker
    alone; when it did not call the engine, the engine is as it was. *)
Lemma process_api_shape (request_id request : value) (s : State) :
  exists ev s1 r,
    process_api request_id request s = (ev, s1, inr r) /\
    publish_calls ev = [] /\
    broker s1 = broker s /\
    (engine_calls ev = [] -> engine s1 = engine s) /\
    In (code r) [0; 9900; 9901; 9902; 9998].
Proof.
  unfold process_api, try_except.
  pose proof (process_api_try_shape request s) as H. cbv zeta in H.
  destruct (process_api_try request s) as [[ev s1] [e|r]];
    unfold events_of, state_of, outcome_of in H; cbn in H;
    destruct H as (Hp & Hb & He & Hc).
  - destruct (process_api_except_shape e s1) as (text & r & -> & Hr & _).
    exists (ev ++ [EvLog ERROR text [AExn e]])%list, s1, r.
    rewrite publish_calls_app, engine_calls_app, Hp. cbn.
    rewrite app_nil_r. cbn in Hr. repeat split; auto; intuition.
  - exists ev, s1, r. repeat split; auto.
    specialize (Hc r eq_refl). cbn in Hc. cbn. intuition.
Qed.

Lemma process_api_unknown (d : list (string * value)) (api : string)
    (request_id : value) (s : State) :
  dict_lookup "api" d = Some (VStr api) ->
  api <> api_chat ->
  process_api request_id (VDict d) s =
  ([EvLog ERROR ("Unknown api: " ++ api) []], s,
   inr (mkResult 9900 msg_unknown_api None)).
Proof.
  intros Hapi Hne. apply String.eqb_neq in Hne.
  unfold process_api, process_api_try, try_except.
  cbn [subscript]. rewrite Hapi. rewrite bind_lift_inr.
  cbn [eq_str]. rewrite Hne. reflexivity.
Qed.

Lemma process_api_chat (d p : list (string * value)) (b64 : value)
    (request_id : value) (s : State) :
  dict_lookup "api" d = Some (VStr api_chat) ->
  dict_lookup "params" d = Some (VDict p) ->
  dict_lookup "image" p = Some b64 ->
  process_api request_id (VDict d) s =
  try_except
    (bind (lift (load_image_b64 b64)) (fun img =>
     bind (lift (subscript (VDict p) "text")) (fun text =>
     bind (chat_w_image text img) (fun r1 =>
     ret (mkResult 0 "success" (Some r1))))))
    process_api_except s.
Proof.
  intros Hapi Hparams Himage.
  unfold process_api, process_api_try, try_except.
  cbn [subscript]. rewrite Hapi, Hparams. rewrite !bind_lift_inr.
  cbn [eq_str]. rewrite String.eqb_refl. rewrite !bind_lift_inr.
  cbn [subscript]. rewrite Himage. rewrite !bind_lift_inr.
  destruct (load_image_b64 b64) as [e|img]; [reflexivity|].
  rewrite !bind_lift_inr. reflexivity.
Qed.

Lemma bind_run {A B} (m : M A) (f : A -> M B) (s s1 : State)
    (ev : list event) (a : A) :
  m s = (ev, s1, inr a) ->
  bind m f s =
  ((ev ++ events_of (f a s1))%list, state_of (f a s1), outcome_of (f a s1)).
Proof.
  intros H. unfold bind, events_of, state_of, outcome_of. rewrite H.
  destruct (f a s1) as [[ev' s2] r]. reflexivity.
Qed.

(** [process_thread] on a payload with a [request_id] and a [data] object:
    the first log line, what [process_api] does, the publication, and the
    last lines. *)
Lemma process_thread_envelope (m d : list (string * value)) (rid : value)
    (s s1 : State) (ev : list event) (r : Result) :
  dict_lookup "request_id" m = Some rid ->
  dict_lookup "data" m = Some (VDict d) ->
  process_api rid (VDict d) s = (ev, s1, inr r) ->
  process_thread (VDict m) s =
  (EvLog INFO "{} Calling api: {}"
     [AVal rid;
      AVal match dict_lookup "api" d with
           | Some a => a
           | None => VStr "Unknown"
           end]
   :: ev
   ++ [EvLog INFO "1 ===> [Time taken: {!s}]" [AElapsed];
       EvPublish rid r (snd (broker_publish (broker s1) rid r))]
   ++ match snd (broker_publish (broker s1) rid r) with
      | Some e => [EvLog ERROR "process_thread异常: %s" [AExn e]]
      | None =>
          match dict_lookup "api" d with
          | Some a =>
              [EvLog INFO "{} {} [Time taken: {!s}]" [AVal rid; AVal a; AElapsed];
               EvFlush]
          | None =>
              [EvLog ERROR "process_thread异常: %s"
                 [AExn (Raise KeyError "'api'")]]
          end
      end,
   mkState (engine s1) (fst (broker_publish (broker s1) rid r)),
   inr tt)%list.
Proof.
  intros Hid Hdata Hapi.
  unfold process_thread, process_thread_try, try_except.
  cbn [subscript get_method]. rewrite Hid, Hdata.
  unfold bind, lift, log, emit, redis_publish.
  rewrite Hapi.
  destruct (broker_publish (broker s1) rid r) as [b [e|]]; cbn;
    destruct (dict_lookup "api" d) as [a|]; cbn;
    rewrite <- ?app_assoc; reflexivity.
Qed.

(** What a run on such a payload publishes, given what [process_api] did. *)
Lemma process_thread_publishes (m d : list (string * value)) (rid : value)
    (s s1 : State) (ev : list event) (r : Result) :
  dict_lookup "request_id" m = Some rid ->
  dict_lookup "data" m = Some (VDict d) ->
  process_api rid (VDict d) s = (ev, s1, inr r) ->
  publish_calls ev = [] ->
  let run := process_thread (VDict m) s in
  outcome_of run = inr tt /\
  publish_calls (events_of run) = [(rid, r)] /\
  engine_calls (events_of run) = engine_calls ev /\
  engine (state_of run) = engine s1 /\
  published (events_of run) =
    match snd (broker_publish (broker s1) rid r) with
    | None => [(rid, r)]
    | Some _ => []
    end.
Proof.
  intros Hid Hdata Hapi Hnone run. subst run.
  rewrite (process_thread_envelope _ _ _ _ _ _ _ Hid Hdata Hapi).
  unfold events_of, state_of, outcome_of. cbn [fst snd].
  assert (Hpub : published ev = []).
  { clear - Hnone. induction ev as [|x l IH]; [reflexivity|].
    destruct x as [| | ? ? [?|] | | | | |]; simpl in *;
      try discriminate; auto. }
  cbn [publish_calls published engine_calls].
  rewrite publish_calls_app, published_app, engine_calls_app, Hnone, Hpub.
  destruct (snd (broker_publish (broker s1) rid r)) as [e|];
    [|destruct (dict_lookup "api" d)]; cbn;
    rewrite ?app_nil_r; repeat split; reflexivity.
Qed.

(** ** The worker *)

(** C1: for every RequestEnvelope whose api is '/api/internvl/chat', when the
    engine call succeeds with output [r], the worker publishes exactly one
    Result, [{code: 0, msg: 'success', result: r}], on the channel named by
    the envelope's request_id (and the broker, when it takes it, has exactly
    that one). *)
Theorem success_is_published :
  forall (msg_body : value) (request_id : string)
         (params : list (string * value)) (b64 question : value)
         (img : Image) (eng : Engine) (r : value) (s : State),
    is_envelope msg_body request_id api_chat params ->
    dict_lookup "image" params = Some b64 ->
    load_image_b64 b64 = inr img ->
    dict_lookup "text" params = Some question ->
    engine_chat (engine s) question img = (eng, inr r) ->
    let run := process_thread msg_body s in
    let reply := mkResult 0 "success" (Some r) in
    outcome_of run = inr tt /\
    publish_calls (events_of run) = [(VStr request_id, reply)] /\
    engine_calls (events_of run) = [(question, img)] /\
    (snd (broker_publish (broker s) (VStr request_id) reply) = None ->
     published (events_of run) = [(VStr request_id, reply)]).
Proof.
  intros msg_body request_id params b64 question img eng r s
    (m & d & -> & Hid & Hdata & Hapi & Hparams) Himage Hload Htext Hchat
    run reply.
  assert (Hrun : process_api (VStr request_id) (VDict d) s =
                 ([EvEngine question img], mkState eng (broker s), inr reply)).
  { rewrite (process_api_chat _ _ _ _ _ Hapi Hparams Himage).
    unfold try_except. rewrite Hload, bind_lift_inr.
    cbn [subscript]. rewrite Htext, bind_lift_inr.
    rewrite bind_chat_w_image, Hchat. reflexivity. }
  destruct (process_thread_publishes _ _ _ _ _ _ _ Hid Hdata Hrun eq_refl)
    as (Hout & Hcalls & Heng & _ & Hpub).
  fold run in Hout, Hcalls, Heng, Hpub. cbn [broker] in Hpub.
  repeat split; auto.
  intros Htaken. rewrite Hpub, Htaken. reflexivity.
Qed.

(** C3, as amended: for every RequestEnvelope that reaches the pool, the
    worker returns and has asked for exactly one publication on the
    request_id channel: that of the Result [process_api] built, neither a
    second nor a partial one.  The broker, when it takes it, has exactly
    that one; when it refuses it, it has none, and the worker has returned
    all the same. *)
Theorem envelope_is_answered_once :
  forall (msg_body : value) (request_id api : string)
         (params : list (string * value)) (s : State),
    is_envelope msg_body request_id api params ->
    let run := process_thread msg_body s in
    outcome_of run = inr tt /\
    exists r : Result,
      outcome_of (process_api (VStr request_id) (data_of msg_body) s) = inr r /\
      In (code r) [0; 9900; 9901; 9902; 9998] /\
      publish_calls (events_of run) = [(VStr request_id, r)] /\
      (snd (broker_publish (broker s) (VStr request_id) r) = None ->
       published (events_of run) = [(VStr request_id, r)]) /\
      (snd (broker_publish (broker s) (VStr request_id) r) <> None ->
       published (events_of run) = []).
Proof.
  intros msg_body request_id api params s
    (m & d & -> & Hid & Hdata & Hapi & Hparams) run.
  destruct (process_api_shape (VStr request_id) (VDict d) s)
    as (ev & s1 & r & Hrun & Hnone & Hbroker & _ & Hcode).
  destruct (process_thread_publishes _ _ _ _ _ _ _ Hid Hdata Hrun Hnone)
    as (Hout & Hcalls & _ & _ & Hpub).
  fold run in Hout, Hcalls, Hpub.
  split; [exact Hout|]. exists r.
  unfold data_of. cbn [subscript]. rewrite Hdata, Hrun.
  rewrite Hbroker in Hpub.
  repeat split; auto.
  - intros Htaken. rewrite Hpub, Htaken. reflexivity.
  - intros Hrefused. rewrite Hpub.
    destruct (snd (broker_publish (broker s) (VStr request_id) r));
      [reflexivity|contradiction].
Qed.

(** C4, as amended: for every RequestEnvelope whose api is the registered
    operation and whose image field [base64.b64decode] refuses with
    [binascii.Error] (such a field is a string that is not valid base64), the
    published Result has code 9901 and a msg that is 'base64编码异常: '
    followed by the error's text, and the engine is not invoked. *)
Theorem refused_base64_is_9901 :
  forall (msg_body : value) (request_id : string)
         (params : list (string * value)) (b64 : value) (e : exn) (s : State),
    is_envelope msg_body request_id api_chat params ->
    dict_lookup "image" params = Some b64 ->
    b64decode b64 = inl e ->
    is_BinasciiError e = true ->
    let run := process_thread msg_body s in
    let reply := mkResult 9901 (msg_base64 ++ exn_str e) None in
    (exists t, b64 = VStr t /\ valid_base64 t = false) /\
    publish_calls (events_of run) = [(VStr request_id, reply)] /\
    engine_calls (events_of run) = [] /\
    engine (state_of run) = engine s /\
    (snd (broker_publish (broker s) (VStr request_id) reply) = None ->
     published (events_of run) = [(VStr request_id, reply)]).
Proof.
  intros msg_body request_id params b64 e s
    (m & d & -> & Hid & Hdata & Hapi & Hparams) Himage Hdecode Hkind
    run reply.
  split.
  { destruct (refused_is_a_string _ _ Hdecode Hkind) as [t ->].
    exists t. split; [reflexivity|].
    exact (refused_is_not_valid_base64 _ _ Hdecode). }
  assert (Hrun : process_api (VStr request_id) (VDict d) s =
                 ([EvLog ERROR "编码转换异常: %s" [AExn e]], s, inr reply)).
  { rewrite (process_api_chat _ _ _ _ _ Hapi Hparams Himage).
    unfold try_except, load_image_b64. rewrite Hdecode, bind_lift_inl.
    unfold process_api_except. rewrite Hkind. reflexivity. }
  destruct (process_thread_publishes _ _ _ _ _ _ _ Hid Hdata Hrun eq_refl)
    as (_ & Hcalls & Heng & Hstate & Hpub).
  fold run in Hcalls, Heng, Hstate, Hpub.
  repeat split; auto.
  intros Htaken. rewrite Hpub, Htaken. reflexivity.
Qed.

(** C5: for every envelope whose api is not the registered operation, the
    published Result is [{code: 9900, msg: '未知 api 调用'}] and the engine is
    not invoked. *)
Theorem unknown_api_is_9900 :
  forall (msg_body : value) (request_id api : string)
         (params : list (string * value)) (s : State),
    is_envelope msg_body request_id api params ->
    api <> api_chat ->
    let run := process_thread msg_body s in
    let reply := mkResult 9900 msg_unknown_api None in
    publish_calls (events_of run) = [(VStr request_id, reply)] /\
    engine_calls (events_of run) = [] /\
    engine (state_of run) = engine s /\
    (snd (broker_publish (broker s) (VStr request_id) reply) = None ->
     published (events_of run) = [(VStr request_id, reply)]).
Proof.
  intros msg_body request_id api params s
    (m & d & -> & Hid & Hdata & Hapi & Hparams) Hne run reply.
  pose proof (process_api_unknown d api (VStr request_id) s Hapi Hne) as Hrun.
  destruct (process_thread_publishes _ _ _ _ _ _ _ Hid Hdata Hrun eq_refl)
    as (_ & Hcalls & Heng & Hstate & Hpub).
  fold run in Hcalls, Heng, Hstate, Hpub.
  repeat split; auto.
  intros Htaken. fold reply in Hpub. rewrite Hpub, Htaken. reflexivity.
Qed.

(** C6: [process_api] is total: for every input it returns a Result, with a
    code and a msg, and raises nothing; an exception of its [try] block that
    is neither [binascii.Error] nor [JSONDecodeError] gives code 9998. *)
Theorem process_api_total :
  forall (request_id request : value) (s : State),
    exists r : Result,
      outcome_of (process_api request_id request s) = inr r /\
      In (code r) [0; 9900; 9901; 9902; 9998] /\
      (forall e : exn,
         outcome_of (process_api_try request s) = inl e ->
         is_BinasciiError e = false ->
         is_JSONDecodeError e = false ->
         r = mkResult 9998 (msg_unknown_error ++ exn_str e) None).
Proof.
  intros request_id request s.
  destruct (process_api_shape request_id request s)
    as (ev & s1 & r & Hrun & _ & _ & _ & Hcode).
  exists r. rewrite Hrun. repeat split; auto.
  intros e Htry Hb Hj. revert Hrun.
  unfold process_api, try_except, outcome_of in *.
  destruct (process_api_try request s) as [[ev0 s0] [e0|r0]];
    cbn in Htry; [|discriminate].
  injection Htry as ->.
  unfold process_api_except. rewrite Hb, Hj. cbn.
  intros H. injection H as _ _ <-. reflexivity.
Qed.

(** C8: when the publication fails, the failure is logged and swallowed:
    the worker returns, it has asked for the publication once and not again,
    and the broker has no Result for the request. *)
Theorem publish_failure_is_swallowed :
  forall (msg_body : value) (request_id api : string)
         (params : list (string * value)) (s : State) (r : Result) (e : exn),
    is_envelope msg_body request_id api params ->
    outcome_of (process_api (VStr request_id) (data_of msg_body) s) = inr r ->
    snd (broker_publish (broker s) (VStr request_id) r) = Some e ->
    let run := process_thread msg_body s in
    outcome_of run = inr tt /\
    publish_calls (events_of run) = [(VStr request_id, r)] /\
    published (events_of run) = [] /\
    exists before : list event,
      events_of run =
      (before ++ [EvPublish (VStr request_id) r (Some e);
                  EvLog ERROR "process_thread异常: %s" [AExn e]])%list.
Proof.
  intros msg_body request_id api params s r e
    (m & d & -> & Hid & Hdata & Hapi & Hparams) Hr Hrefused run.
  destruct (process_api_shape (VStr request_id) (VDict d) s)
    as (ev & s1 & r' & Hrun & Hnone & Hbroker & _ & _).
  unfold data_of in Hr. cbn [subscript] in Hr. rewrite Hdata, Hrun in Hr.
  injection Hr as ->.
  destruct (process_thread_publishes _ _ _ _ _ _ _ Hid Hdata Hrun Hnone)
    as (Hout & Hcalls & _ & _ & Hpub).
  fold run in Hout, Hcalls, Hpub.
  rewrite Hbroker, Hrefused in Hpub.
  repeat split; auto.
  subst run. rewrite (process_thread_envelope _ _ _ _ _ _ _ Hid Hdata Hrun).
  rewrite Hbroker, Hrefused. unfold events_of. cbn [fst].
  eexists (_ :: ev ++ [_])%list. cbn. rewrite <- app_assoc. reflexivity.
Qed.

Lemma process_thread_missing_key (m : list (string * value)) (s : State) :
  dict_lookup "request_id" m = None \/ dict_lookup "data" m = None ->
  exists e : exn,
    exn_kind e = KeyError /\
    process_thread (VDict m) s =
      ([EvLog ERROR "process_thread异常: %s" [AExn e]], s, inr tt).
Proof.
  intros H.
  unfold process_thread, process_thread_try, try_except.
  cbn [subscript].
  destruct (dict_lookup "request_id" m) as [rid|] eqn:Hid.
  - destruct H as [H|H]; [discriminate|]. rewrite H.
    rewrite bind_lift_inr, bind_lift_inl.
    exists (Raise KeyError "'data'"). split; reflexivity.
  - rewrite bind_lift_inl.
    exists (Raise KeyError "'request_id'"). split; reflexivity.
Qed.

(** C10: for every payload that decodes to an object without a 'request_id'
    key or without a 'data' key, the worker catches the [KeyError], logs it,
    and publishes nothing on any channel. *)
Theorem missing_key_publishes_nothing :
  forall (m : list (string * value)) (s : State),
    dict_lookup "request_id" m = None \/ dict_lookup "data" m = None ->
    exists e : exn,
      exn_kind e = KeyError /\
      process_thread (VDict m) s =
        ([EvLog ERROR "process_thread异常: %s" [AExn e]], s, inr tt) /\
      publish_calls (events_of (process_thread (VDict m) s)) = [] /\
      published (events_of (process_thread (VDict m) s)) = [].
Proof.
  intros m s H.
  destruct (process_thread_missing_key m s H) as (e & Hkind & Hrun).
  exists e. rewrite Hrun. repeat split; auto.
Qed.

(** A payload that is not an object is logged and nothing is published. *)
Lemma not_an_object_publishes_nothing (msg_body : value) (s : State) :
  (forall m, msg_body <> VDict m) ->
  exists e : exn,
    exn_kind e = TypeError /\
    process_thread msg_body s =
      ([EvLog ERROR "process_thread异常: %s" [AExn e]], s, inr tt).
Proof.
  intros H.
  unfold process_thread, process_thread_try, try_except.
  destruct msg_body as [|b|n|t|t|l|m];
    try (cbn [subscript]; rewrite bind_lift_inl;
         eexists (Raise TypeError _); split; reflexivity).
  exfalso. exact (H m eq_refl).
Qed.

(** Whatever the payload, the worker returns, and it has asked for one
    publication at most. *)
Lemma process_thread_total (msg_body : value) (s : State) :
  outcome_of (process_thread msg_body s) = inr tt /\
  (List.length (publish_calls (events_of (process_thread msg_body s))) <= 1)%nat.
Proof.
  destruct msg_body as [|b|n|t|t|l|m];
    try (match goal with
         | |- context [process_thread ?v s] =>
             destruct (not_an_object_publishes_nothing v s) as (e & _ & ->);
             [intros m; discriminate | cbn; split; [reflexivity|lia]]
         end).
  destruct (dict_lookup "request_id" m) as [rid|] eqn:Hid;
    [destruct (dict_lookup "data" m) as [data|] eqn:Hdata|].
  - destruct data as [|b|n|t|t|l|d];
      try (unfold process_thread, process_thread_try, try_except;
           cbn [subscript]; rewrite Hid, Hdata, !bind_lift_inr;
           cbn [get_method]; rewrite bind_lift_inl;
           cbn; split; [reflexivity|lia]).
    destruct (process_api_shape rid (VDict d) s)
      as (ev & s1 & r & Hrun & Hnone & _).
    destruct (process_thread_publishes _ _ _ _ _ _ _ Hid Hdata Hrun Hnone)
      as (Hout & Hcalls & _).
    rewrite Hout, Hcalls. cbn. split; [reflexivity|lia].
  - destruct (process_thread_missing_key m s (or_intror Hdata)) as (e & _ & ->).
    cbn. split; [reflexivity|lia].
  - destruct (process_thread_missing_key m s (or_introl Hid)) as (e & _ & ->).
    cbn. split; [reflexivity|lia].
Qed.

End ApiProperties.

(** ** The worker on the scenarios of the specification *)

Lemma success_is_published_witness :
  publish_calls
    (events_of (process_thread (C := Reference.collaborators)
                  Reference.chat_r1 (Reference.state true))) =
    [(VStr "r1", mkResult 0 "success" (Some (VStr "a cat")))] /\
  published
    (events_of (process_thread (C := Reference.collaborators)
                  Reference.chat_r1 (Reference.state true))) =
    [(VStr "r1", mkResult 0 "success" (Some (VStr "a cat")))].
Proof.
  destruct (success_is_published (C := Reference.collaborators)
              Reference.chat_r1 "r1"
              [("text", VStr "What is this?"); ("image", VStr "iVBORw0KGgo=")]
              (VStr "iVBORw0KGgo=") (VStr "What is this?")
              Reference.png_signature 1%nat (VStr "a cat")
              (Reference.state true))
    as (_ & Hcalls & _ & Hpub).
  - eexists; eexists; repeat split; reflexivity.
  - reflexivity.
  - reflexivity.
  - reflexivity.
  - reflexivity.
  - split; [exact Hcalls | exact (Hpub eq_refl)].
Defined.

Lemma envelope_is_answered_once_witness :
  exists r : Result,
    publish_calls
      (events_of (process_thread (C := Reference.collaborators)
                    (envelope "r2" "/unknown" []) (Reference.state true))) =
    [(VStr "r2", r)].
Proof.
  destruct (envelope_is_answered_once (C := Reference.collaborators)
              (envelope "r2" "/unknown" []) "r2" "/unknown" []
              (Reference.state true))
    as (_ & r & _ & _ & Hcalls & _).
  - eexists; eexists; repeat split; reflexivity.
  - exists r. exact Hcalls.
Defined.

(** C3, as stated, fails: with the broker out of reach when the worker
    publishes, the envelope of the scenario gets no publication, and the
    worker has returned: the Result is lost and the process goes on. *)
Lemma refused_publication_loses_result :
  is_envelope Reference.chat_r1 "r1" "/api/internvl/chat"
    [("text", VStr "What is this?"); ("image", VStr "iVBORw0KGgo=")] /\
  published
    (events_of (process_thread (C := Reference.collaborators)
                  Reference.chat_r1 (Reference.state false))) = [] /\
  outcome_of (process_thread (C := Reference.collaborators)
                Reference.chat_r1 (Reference.state false)) = inr tt.
Proof.
  split; [|split; reflexivity].
  eexists; eexists; repeat split; reflexivity.
Qed.

Lemma refused_base64_is_9901_witness :
  publish_calls
    (events_of (process_thread (C := Reference.collaborators)
                  (envelope "r1" api_chat
                     [("text", VStr "What is this?");
                      ("image", VStr "not-base64!!")])
                  (Reference.state true))) =
    [(VStr "r1",
      mkResult 9901
        (msg_base64 ++
         "Invalid base64-encoded string: number of data characters (9) cannot be 1 more than a multiple of 4")
        None)].
Proof.
  destruct (refused_base64_is_9901 (C := Reference.collaborators)
              (envelope "r1" api_chat
                 [("text", VStr "What is this?");
                  ("image", VStr "not-base64!!")])
              "r1"
              [("text", VStr "What is this?"); ("image", VStr "not-base64!!")]
              (VStr "not-base64!!")
              (Raise BinasciiError
                 "Invalid base64-encoded string: number of data characters (9) cannot be 1 more than a multiple of 4")
              (Reference.state true))
    as (_ & Hcalls & _).
  - eexists; eexists; repeat split; reflexivity.
  - reflexivity.
  - reflexivity.
  - reflexivity.
  - exact Hcalls.
Defined.

(** C4, as stated, fails on an image field that is not valid base64 and that
    the decoder accepts all the same: "ab!cd" decodes to three bytes, which
    are not an image, and the published Result has code 9998. *)
Lemma invalid_base64_without_9901 :
  valid_base64 "ab!cd" = false /\
  b64decode (VStr "ab!cd") = inr [105; 183; 29] /\
  published
    (events_of (process_thread (C := Reference.collaborators)
                  (envelope "r1" api_chat
                     [("text", VStr "What is this?"); ("image", VStr "ab!cd")])
                  (Reference.state true))) =
    [(VStr "r1",
      mkResult 9998 (msg_unknown_error ++ "cannot identify image file") None)].
Proof. repeat split; reflexivity. Qed.

(** The Results of requests at the edge of the classification. *)

Example api_not_a_string_is_9998 :
  published
    (events_of (process_thread (C := Reference.collaborators)
                  (VDict [("request_id", VStr "r1");
                          ("data", VDict [("api", VInt 5)])])
                  (Reference.state true))) =
    [(VStr "r1",
      mkResult 9998
        (msg_unknown_error ++ "can only concatenate str (not " ++ dquote
           ++ "int" ++ dquote ++ ") to str")
        None)].
Proof. reflexivity. Qed.

Example api_missing_is_9998 :
  published
    (events_of (process_thread (C := Reference.collaborators)
                  (VDict [("request_id", VStr "r1"); ("data", VDict [])])
                  (Reference.state true))) =
    [(VStr "r1", mkResult 9998 (msg_unknown_error ++ "'api'") None)].
Proof. reflexivity. Qed.

Example image_not_ascii_is_9998 :
  published
    (events_of (process_thread (C := Reference.collaborators)
                  (envelope "r1" api_chat
                     [("text", VStr "What is this?"); ("image", VStr "图")])
                  (Reference.state true))) =
    [(VStr "r1",
      mkResult 9998
        (msg_unknown_error
           ++ "string argument should contain only ASCII characters")
        None)].
Proof. reflexivity. Qed.

Example unknown_api_with_refused_image_is_9900 :
  published
    (events_of (process_thread (C := Reference.collaborators)
                  (envelope "r1" "/unknown" [("image", VStr "not-base64!!")])
                  (Reference.state true))) =
    [(VStr "r1", mkResult 9900 msg_unknown_api None)].
Proof. reflexivity. Qed.

Lemma unknown_api_is_9900_witness :
  publish_calls
    (events_of (process_thread (C := Reference.collaborators)
                  (envelope "r1" "/unknown" []) (Reference.state true))) =
    [(VStr "r1", mkResult 9900 "未知 api 调用" None)].
Proof.
  destruct (unknown_api_is_9900 (C := Reference.collaborators)
              (envelope "r1" "/unknown" []) "r1" "/unknown" []
              (Reference.state true))
    as (Hcalls & _).
  - eexists; eexists; repeat split; reflexivity.
  - discriminate.
  - exact Hcalls.
Defined.

Lemma publish_failure_is_swallowed_witness :
  published
    (events_of (process_thread (C := Reference.collaborators)
                  Reference.chat_r1 (Reference.state false))) = [] /\
  outcome_of (process_thread (C := Reference.collaborators)
                Reference.chat_r1 (Reference.state false)) = inr tt.
Proof.
  destruct (publish_failure_is_swallowed (C := Reference.collaborators)
              Reference.chat_r1 "r1" "/api/internvl/chat"
              [("text", VStr "What is this?"); ("image", VStr "iVBORw0KGgo=")]
              (Reference.state false)
              (mkResult 0 "success" (Some (VStr "a cat")))
              (Raise (OtherError "ConnectionError")
                 "Error 111 connecting to 127.0.0.1:7480. Connection refused."))
    as (Hout & _ & Hpub & _).
  - eexists; eexists; repeat split; reflexivity.
  - reflexivity.
  - reflexivity.
  - split; [exact Hpub | exact Hout].
Defined.

Lemma missing_key_publishes_nothing_witness :
  publish_calls
    (events_of (process_thread (C := Reference.collaborators)
                  (VDict [("data", VDict [("api", VStr api_chat)])])
                  (Reference.state true))) = [].
Proof.
  destruct (missing_key_publishes_nothing (C := Reference.collaborators)
              [("data", VDict [("api", VStr api_chat)])]
              (Reference.state true))
    as (e & _ & _ & Hcalls & _).
  - left. reflexivity.
  - exact Hcalls.
Defined.

(** ** The listener *)

Section ListenerProperties.

Context {C : Collaborators}.

(** One turn of the [for] loop. *)
Lemma listen_loop_cons (it : item) (rest : list item) (fin : listen_end)
    (s : State) :
  listen_loop (it :: rest) fin s =
  let r := listen_loop rest fin s in
  if String.eqb (item_type it) "message" then
    match decode_payload (item_data it) with
    | inl e => ([received it], s, inl e)
    | inr msg_body =>
        (received it :: EvSubmit msg_body :: EvLog INFO "Thread future: " [AFuture]
           :: EvFlush :: events_of r,
         state_of r, outcome_of r)
    end
  else (received it :: EvFlush :: events_of r, state_of r, outcome_of r).
Proof.
  cbn [listen_loop]. unfold bind, log, emit, lift, ret, received,
    events_of, state_of, outcome_of.
  destruct (String.eqb (item_type it) "message").
  - destruct (decode_payload (item_data it)) as [e|v]; [reflexivity|].
    cbn. destruct (listen_loop rest fin s) as [[ev s'] o]. reflexivity.
  - cbn. destruct (listen_loop rest fin s) as [[ev s'] o]. reflexivity.
Qed.

(** The loop touches neither the engine nor the broker's publications, and
    it does not sleep. *)
Lemma listen_loop_quiet (items : list item) (fin : listen_end) (s : State) :
  let r := listen_loop items fin s in
  state_of r = s /\
  publish_calls (events_of r) = [] /\
  sleeps (events_of r) = [] /\
  subscribe_calls (events_of r) = [].
Proof.
  induction items as [|it rest IH].
  - destruct fin; cbn; auto.
  - cbv zeta in *. rewrite listen_loop_cons. cbv zeta.
    destruct IH as (Hs & Hp & Hz & Hc).
    destruct (String.eqb (item_type it) "message");
      [destruct (decode_payload (item_data it))|];
      unfold events_of, state_of in *; cbn; auto.
Qed.

(** A loop over [before ++ rest] is the loop over [before], and then, when
    that one did not raise, the loop over [rest]. *)
Lemma listen_loop_app (before rest : list item) (fin : listen_end)
    (s : State) :
  listen_loop (before ++ rest) fin s =
  match listen_loop before ListenReturns s with
  | (ev, s1, inl e) => (ev, s1, inl e)
  | (ev, s1, inr _) =>
      let r := listen_loop rest fin s in
      ((ev ++ events_of r)%list, state_of r, outcome_of r)
  end.
Proof.
  induction before as [|it before IH].
  - cbn. destruct (listen_loop rest fin s) as [[ev s'] o]. reflexivity.
  - rewrite <- app_comm_cons, !listen_loop_cons. cbv zeta. rewrite IH.
    destruct (String.eqb (item_type it) "message");
      [destruct (decode_payload (item_data it)) as [e|v]; [reflexivity|]|];
      destruct (listen_loop before ListenReturns s) as [[ev s1] [e'|[]]];
      reflexivity.
Qed.

Lemma listener_try_subscribed (queue_no : string) (items : list item)
    (fin : listen_end) (s : State) :
  listener_try queue_no (Subscribed items fin) s =
  let r := listen_loop items fin s in
  (EvSubscribe (request_queue queue_no) None
     :: EvExecutor MAX_DISPATCHER_WORKERS :: events_of r,
   state_of r, outcome_of r).
Proof.
  unfold listener_try, redis_subscribe, bind, emit, ret, request_queue,
    events_of, state_of, outcome_of. cbn.
  destruct (listen_loop items fin s) as [[ev s'] o]. reflexivity.
Qed.

(** What the [except] clause adds to a [try] block that raised. *)
Lemma listener_pass_raised (queue_no : string) (sub : subscription)
    (s : State) (e : exn) :
  outcome_of (listener_try queue_no sub s) = inl e ->
  listener_pass queue_no sub s =
  ((events_of (listener_try queue_no sub s)
      ++ [EvLog INFO ("Exception: " ++ exn_str e) []; EvSleep 20])%list,
   state_of (listener_try queue_no sub s), inr tt).
Proof.
  unfold listener_pass, try_except, events_of, state_of, outcome_of.
  destruct (listener_try queue_no sub s) as [[ev s1] o]. cbn.
  intros ->. reflexivity.
Qed.

Lemma listener_pass_returned (queue_no : string) (sub : subscription)
    (s : State) :
  outcome_of (listener_try queue_no sub s) = inr tt ->
  listener_pass queue_no sub s = listener_try queue_no sub s.
Proof.
  unfold listener_pass, try_except, outcome_of.
  destruct (listener_try queue_no sub s) as [[ev s1] o]. cbn.
  intros ->. reflexivity.
Qed.

(** A pass always ends normally, in the state it began in, having called
    [redis_subscribe] once; it sleeps 20 when and only when its [try] block
    raised. *)
Lemma listener_pass_shape (queue_no : string) (sub : subscription)
    (s : State) :
  let r := listener_pass queue_no sub s in
  outcome_of r = inr tt /\
  state_of r = s /\
  subscribe_calls (events_of r) = [request_queue queue_no] /\
  publish_calls (events_of r) = [] /\
  sleeps (events_of r) =
    match outcome_of (listener_try queue_no sub s) with
    | inl _ => [20]
    | inr _ => []
    end.
Proof.
  cbv zeta.
  assert (Htry : state_of (listener_try queue_no sub s) = s /\
                 subscribe_calls (events_of (listener_try queue_no sub s)) =
                   [request_queue queue_no] /\
                 publish_calls (events_of (listener_try queue_no sub s)) = [] /\
                 sleeps (events_of (listener_try queue_no sub s)) = []).
  { destruct sub as [e0|items fin].
    - cbn. auto.
    - rewrite listener_try_subscribed. cbv zeta.
      destruct (listen_loop_quiet items fin s) as (Hs & Hp & Hz & Hc).
      cbn [events_of state_of fst snd subscribe_calls publish_calls sleeps].
      rewrite Hs, Hp, Hz, Hc. auto. }
  destruct Htry as (Hs & Hc & Hp & Hz).
  destruct (outcome_of (listener_try queue_no sub s)) as [e|[]] eqn:Ho.
  - rewrite (listener_pass_raised _ _ _ _ Ho).
    cbn [events_of state_of outcome_of fst snd].
    fold (events_of (listener_try queue_no sub s)).
    fold (state_of (listener_try queue_no sub s)).
    rewrite subscribe_calls_app, publish_calls_app, sleeps_app.
    rewrite Hs, Hc, Hp, Hz. cbn. auto.
  - rewrite (listener_pass_returned _ _ _ Ho). auto.
Qed.

(** When every data message decodes, the jobs are submitted in the order
    the messages came in. *)
Lemma listen_loop_submits_in_order (items : list item) (fin : listen_end)
    (s : State) :
  Forall (fun it => item_type it = "message" ->
                    exists v, decode_payload (item_data it) = inr v) items ->
  submitted_jobs (events_of (listen_loop items fin s)) =
  decoded_messages items.
Proof.
  induction 1 as [|it rest Hit _ IH].
  - destruct fin; reflexivity.
  - rewrite listen_loop_cons. cbv zeta. cbn [decoded_messages].
    destruct (String.eqb (item_type it) "message") eqn:Htype.
    + apply String.eqb_eq in Htype. destruct (Hit Htype) as [v ->].
      cbn. rewrite IH. reflexivity.
    + cbn. exact IH.
Qed.

Lemma listen_loop_raises (items : list item) (e : exn) (s : State) :
  exists e', outcome_of (listen_loop items (ListenRaises e) s) = inl e'.
Proof.
  induction items as [|it rest [e' IH]].
  - exists e. reflexivity.
  - rewrite listen_loop_cons. cbv zeta.
    destruct (String.eqb (item_type it) "message");
      [destruct (decode_payload (item_data it)) as [e0|v]|];
      eexists; cbn [outcome_of snd]; try reflexivity; exact IH.
Qed.

Lemma listener_cons (queue_no : string) (sub : subscription)
    (rest : list subscription) (s : State) :
  listener queue_no (sub :: rest) s =
  let r := listener queue_no rest s in
  ((events_of (listener_pass queue_no sub s) ++ events_of r)%list,
   state_of r, outcome_of r).
Proof.
  cbn [listener].
  destruct (listener_pass_shape queue_no sub s) as (Ho & Hs & _).
  rewrite (bind_run _ _ s s (events_of (listener_pass queue_no sub s)) tt).
  - reflexivity.
  - rewrite (run_eta (listener_pass queue_no sub s)) at 1.
    rewrite Ho, Hs. reflexivity.
Qed.

(** C7: whatever error establishing or maintaining the subscription raises,
    the listener logs it, sleeps 20 and subscribes again; the recovery does
    not look at the kind of the error, and the loop does not end: every pass
    the broker is observed for begins with a call of [redis_subscribe]. *)
Theorem listener_recovers :
  forall (queue_no : string) (s : State),
    (forall e : exn,
       listener_pass queue_no (SubscribeRaises e) s =
       ([EvSubscribe (request_queue queue_no) (Some e);
         EvLog INFO ("Exception: " ++ exn_str e) [];
         EvSleep 20], s, inr tt)) /\
    (forall (items : list item) (e : exn),
       exists (before : list event) (e' : exn),
         listener_pass queue_no (Subscribed items (ListenRaises e)) s =
         ((before ++ [EvLog INFO ("Exception: " ++ exn_str e') [];
                      EvSleep 20])%list, s, inr tt)) /\
    (forall (sub : subscription) (e : exn),
       outcome_of (listener_try queue_no sub s) = inl e ->
       listener_pass queue_no sub s =
       ((events_of (listener_try queue_no sub s)
           ++ [EvLog INFO ("Exception: " ++ exn_str e) []; EvSleep 20])%list,
        s, inr tt)) /\
    (forall subs : list subscription,
       let r := listener queue_no subs s in
       outcome_of r = inr tt /\
       state_of r = s /\
       subscribe_calls (events_of r) =
         repeat (request_queue queue_no) (List.length subs) /\
       Forall (fun seconds => seconds = 20) (sleeps (events_of r))).
Proof.
  intros queue_no s.
  assert (Hraised : forall sub e,
             outcome_of (listener_try queue_no sub s) = inl e ->
             listener_pass queue_no sub s =
             ((events_of (listener_try queue_no sub s)
                 ++ [EvLog INFO ("Exception: " ++ exn_str e) []; EvSleep 20])%list,
              s, inr tt)).
  { intros sub e Ho. rewrite (listener_pass_raised _ _ _ _ Ho).
    destruct (listener_pass_shape queue_no sub s) as (_ & Hs & _).
    rewrite (listener_pass_raised _ _ _ _ Ho) in Hs.
    cbn [state_of fst snd] in Hs. rewrite Hs. reflexivity. }
  split; [|split; [|split]].
  - intros e. reflexivity.
  - intros items e.
    destruct (listen_loop_raises items e s) as [e' He'].
    exists (events_of (listener_try queue_no (Subscribed items (ListenRaises e)) s)), e'.
    apply Hraised. rewrite listener_try_subscribed. exact He'.
  - exact Hraised.
  - induction subs as [|sub rest IH].
    + cbn. auto.
    + cbv zeta in *. rewrite listener_cons. cbv zeta.
      destruct IH as (Ho & Hs & Hc & Hz).
      destruct (listener_pass_shape queue_no sub s) as (_ & _ & Hc1 & _ & Hz1).
      cbn [events_of state_of outcome_of fst snd].
      fold (events_of (listener queue_no rest s)).
      fold (state_of (listener queue_no rest s)).
      fold (outcome_of (listener queue_no rest s)).
      fold (events_of (listener_pass queue_no sub s)).
      rewrite subscribe_calls_app, sleeps_app, Hc1, Hc, Hz1.
      repeat split; auto.
      apply Forall_app. split; [|exact Hz].
      destruct (outcome_of (listener_try queue_no sub s)); auto.
Qed.

(** C2, as amended: a payload that fails decoding gets no Result at all: the
    listener submits no job for it (the jobs of the pass are those of the
    items before it), publishes nothing, logs the error, sleeps 20 and leaves
    the pass; a payload that decodes to something other than an object is
    logged by the worker, which publishes nothing.  Code 9902 is what
    [process_api] returns when its [try] block raises a [JSONDecodeError]. *)
Theorem undecodable_payload_is_dropped :
  forall (queue_no : string) (before after : list item) (it : item)
         (fin : listen_end) (s : State) (e : exn),
    item_type it = "message" ->
    decode_payload (item_data it) = inl e ->
    let run :=
      listener_pass queue_no (Subscribed (before ++ it :: after) fin) s in
    (outcome_of run = inr tt /\
     submitted_jobs (events_of run) =
       submitted_jobs
         (events_of (listener_pass queue_no (Subscribed before ListenReturns) s)) /\
     publish_calls (events_of run) = [] /\
     sleeps (events_of run) = [20]) /\
    (forall msg_body : value,
       (forall m, msg_body <> VDict m) ->
       publish_calls (events_of (process_thread msg_body s)) = []) /\
    (forall (request_id request : value) (e' : exn),
       outcome_of (process_api_try request s) = inl e' ->
       is_BinasciiError e' = false ->
       is_JSONDecodeError e' = true ->
       outcome_of (process_api request_id request s) =
       inr (mkResult 9902 (msg_json ++ exn_str e') None)).
Proof.
  intros queue_no before after it fin s e Htype Hdecode run.
  split; [|split].
  - destruct (listener_pass_shape queue_no
                (Subscribed (before ++ it :: after) fin) s)
      as (Ho & _ & _ & Hp & Hz).
    fold run in Ho, Hp, Hz.
    assert (Hit : listen_loop (it :: after) fin s = ([received it], s, inl e)).
    { rewrite listen_loop_cons. cbv zeta.
      rewrite Htype, Hdecode. reflexivity. }
    assert (Htry : exists e0,
               outcome_of (listener_try queue_no
                             (Subscribed (before ++ it :: after) fin) s) = inl e0 /\
               submitted_jobs
                 (events_of (listener_try queue_no
                               (Subscribed (before ++ it :: after) fin) s)) =
               submitted_jobs
                 (events_of (listener_try queue_no
                               (Subscribed before ListenReturns) s))).
    { rewrite !listener_try_subscribed. cbv zeta.
      rewrite listen_loop_app, Hit.
      destruct (listen_loop before ListenReturns s) as [[ev s1] [e0|[]]].
      - exists e0. split; reflexivity.
      - exists e. cbn [events_of state_of outcome_of fst snd submitted_jobs].
        rewrite submitted_jobs_app. cbn. rewrite app_nil_r. auto. }
    destruct Htry as (e0 & Hraise & Hjobs).
    rewrite Hraise in Hz.
    repeat split; auto.
    subst run. rewrite (listener_pass_raised _ _ _ _ Hraise).
    cbn [events_of fst].
    fold (events_of (listener_try queue_no
                       (Subscribed (before ++ it :: after) fin) s)).
    rewrite submitted_jobs_app, Hjobs. cbn [submitted_jobs]. rewrite app_nil_r.
    destruct (outcome_of (listener_try queue_no
                            (Subscribed before ListenReturns) s))
      as [e1|[]] eqn:Hb.
    + rewrite (listener_pass_raised _ _ _ _ Hb). cbn [events_of fst].
      fold (events_of (listener_try queue_no (Subscribed before ListenReturns) s)).
      rewrite submitted_jobs_app. cbn. rewrite app_nil_r. reflexivity.
    + rewrite (listener_pass_returned _ _ _ Hb). reflexivity.
  - intros msg_body Hnot.
    destruct (not_an_object_publishes_nothing msg_body s Hnot) as (e' & _ & ->).
    reflexivity.
  - intros request_id request e' Htry Hb Hj.
    unfold process_api, try_except, outcome_of in *.
    destruct (process_api_try request s) as [[ev0 s0] [e0|r0]];
      cbn in Htry; [|discriminate].
    injection Htry as ->.
    unfold process_api_except. rewrite Hb, Hj. reflexivity.
Qed.

End ListenerProperties.

(** ** The listener on the scenarios of the specification *)

Lemma undecodable_payload_is_dropped_witness :
  submitted_jobs
    (events_of (listener_pass (C := Reference.collaborators) "1"
                  (Reference.on_queue ["{"; "{}"] ListenReturns)
                  (Reference.state true))) = [] /\
  sleeps
    (events_of (listener_pass (C := Reference.collaborators) "1"
                  (Reference.on_queue ["{"; "{}"] ListenReturns)
                  (Reference.state true))) = [20].
Proof.
  destruct (undecodable_payload_is_dropped (C := Reference.collaborators)
              "1" [] [mkItem "message" (bytes_of_string "{}")]
              (mkItem "message" (bytes_of_string "{"))
              ListenReturns (Reference.state true)
              (Raise JSONDecodeError "Expecting value"))
    as ((_ & Hjobs & _ & Hsleep) & _).
  - reflexivity.
  - reflexivity.
  - split; [exact Hjobs | exact Hsleep].
Defined.

(** C2, as stated, fails: the payload "{" is not a serialized JSON object,
    and the dispatcher publishes nothing for it, on no channel; the
    listener sleeps 20 instead.  The same for "[1]", which is JSON and not
    an object: the worker logs a [TypeError] and publishes nothing. *)
Lemma undecodable_payload_without_9902 :
  Reference.json_loads "{" = inl (Raise JSONDecodeError "Expecting value") /\
  publish_calls
    (events_of (dispatcher_run (C := Reference.collaborators) "1"
                  [Reference.on_queue ["{"] ListenReturns]
                  (Reference.state true))) = [] /\
  sleeps
    (events_of (dispatcher_run (C := Reference.collaborators) "1"
                  [Reference.on_queue ["{"] ListenReturns]
                  (Reference.state true))) = [20] /\
  Reference.json_loads "[1]" = inr (VList [VInt 1]) /\
  publish_calls
    (events_of (dispatcher_run (C := Reference.collaborators) "1"
                  [Reference.on_queue ["[1]"] ListenReturns]
                  (Reference.state true))) = [].
Proof. repeat split; reflexivity. Qed.

(** The scenario of the specification, from the broker's payload to the
    reply. *)
Example dispatcher_run_scenario :
  published
    (events_of (dispatcher_run (C := Reference.collaborators) "1"
                  [Subscribed
                     [mkItem "subscribe" [];
                      mkItem "message"
                        (bytes_of_string
                           ("{" ++ dquote ++ "request_id" ++ dquote ++ ": "
                              ++ dquote ++ "r1" ++ dquote ++ ", "
                              ++ dquote ++ "data" ++ dquote ++ ": {"
                              ++ dquote ++ "api" ++ dquote ++ ": "
                              ++ dquote ++ "/api/internvl/chat" ++ dquote ++ ", "
                              ++ dquote ++ "params" ++ dquote ++ ": {"
                              ++ dquote ++ "text" ++ dquote ++ ": "
                              ++ dquote ++ "What is this?" ++ dquote ++ ", "
                              ++ dquote ++ "image" ++ dquote ++ ": "
                              ++ dquote ++ "iVBORw0KGgo=" ++ dquote ++ "}}}"))]
                     (ListenRaises Reference.connection_reset)]
                  (Reference.state true))) =
  [(VStr "r1", mkResult 0 "success" (Some (VStr "a cat")))].
Proof. reflexivity. Qed.

Example listener_recovers_scenario :
  events_of (listener (C := Reference.collaborators) "1"
               [SubscribeRaises Reference.connection_reset;
                Subscribed [] (ListenRaises Reference.connection_reset)]
               (Reference.state true)) =
  [EvSubscribe "InternVL-synchronous-asynchronous-queue1"
     (Some Reference.connection_reset);
   EvLog INFO "Exception: Connection reset by peer" [];
   EvSleep 20;
   EvSubscribe "InternVL-synchronous-asynchronous-queue1" None;
   EvExecutor 1;
   EvLog INFO "Exception: Connection reset by peer" [];
   EvSleep 20].
Proof. reflexivity. Qed.

(** ** The dispatch pool *)

Section PoolProperties.

Variable J : Type.

Implicit Types (p : Pool.t J) (a : Pool.action J).

Lemma remove_nth_perm (i : nat) (l : list J) (j : J) :
  nth_error l i = Some j -> Permutation (j :: Pool.remove_nth i l) l.
Proof.
  revert i. induction l as [|x l IH]; intros [|i] H; cbn in *;
    try discriminate.
  - injection H as ->. reflexivity.
  - rewrite perm_swap. constructor. apply IH. exact H.
Qed.

Lemma remove_nth_length (i : nat) (l : list J) (j : J) :
  nth_error l i = Some j ->
  S (List.length (Pool.remove_nth i l)) = List.length l.
Proof.
  revert i. induction l as [|x l IH]; intros [|i] H; cbn in *;
    try discriminate; auto.
Qed.

Lemma step_max_workers a p p' :
  Pool.step a p = Some p' -> Pool.max_workers p' = Pool.max_workers p.
Proof.
  destruct a as [j| |i]; unfold Pool.step.
  - intros H. injection H as <-. reflexivity.
  - destruct (Pool.work_queue p); [discriminate|].
    destruct (Nat.ltb (List.length (Pool.running p)) (Pool.max_workers p));
      [|discriminate].
    intros H. injection H as <-. reflexivity.
  - destruct (nth_error (Pool.running p) i); [|discriminate].
    intros H. injection H as <-. reflexivity.
Qed.

Lemma step_accounted a p p' :
  Pool.step a p = Some p' -> Pool.accounted p -> Pool.accounted p'.
Proof.
  unfold Pool.accounted, Pool.executed.
  destruct a as [j| |i]; unfold Pool.step; intros H [Hlen Hperm].
  - injection H as <-. cbn. split; [exact Hlen|].
    rewrite app_assoc. apply Permutation_app_tail. exact Hperm.
  - destruct (Pool.work_queue p) as [|j rest] eqn:Hq; [discriminate|].
    destruct (Nat.ltb (List.length (Pool.running p)) (Pool.max_workers p))
      eqn:Hlt; [|discriminate].
    injection H as <-. cbn. apply Nat.ltb_lt in Hlt. split.
    + rewrite length_app. cbn. lia.
    + rewrite <- Hperm, <- !app_assoc. reflexivity.
  - destruct (nth_error (Pool.running p) i) as [j|] eqn:Hn; [|discriminate].
    injection H as <-. cbn.
    pose proof (remove_nth_length _ _ _ Hn) as Hl.
    split; [lia|].
    rewrite <- Hperm. apply Permutation_app_tail.
    rewrite <- app_assoc. apply Permutation_app_head.
    apply (remove_nth_perm _ _ _ Hn).
Qed.

Lemma step_in_order a p p' :
  Pool.step a p = Some p' ->
  Pool.max_workers p = 1%nat ->
  (List.length (Pool.running p) <= 1)%nat ->
  Pool.in_order p -> Pool.in_order p'.
Proof.
  unfold Pool.in_order, Pool.executed.
  destruct a as [j| |i]; unfold Pool.step; intros H Hk Hlen Hord.
  - injection H as <-. cbn. rewrite <- Hord, <- !app_assoc. reflexivity.
  - destruct (Pool.work_queue p) as [|j rest] eqn:Hq; [discriminate|].
    destruct (Nat.ltb (List.length (Pool.running p)) (Pool.max_workers p))
      eqn:Hlt; [|discriminate].
    injection H as <-. cbn. rewrite <- Hord, <- !app_assoc. reflexivity.
  - destruct (nth_error (Pool.running p) i) as [j|] eqn:Hn; [|discriminate].
    injection H as <-. cbn. rewrite <- Hord.
    destruct (Pool.running p) as [|x [|y l]]; cbn in *; try lia.
    + destruct i; discriminate.
    + destruct i as [|[|i]]; cbn in Hn; try discriminate.
      injection Hn as ->. rewrite <- !app_assoc. reflexivity.
Qed.

Lemma run_accounted (acts : list (Pool.action J)) p p' :
  Pool.run acts p = Some p' ->
  Pool.accounted p ->
  Pool.accounted p' /\ Pool.max_workers p' = Pool.max_workers p.
Proof.
  revert p. induction acts as [|a acts IH]; cbn; intros p H Hacc.
  - injection H as <-. auto.
  - destruct (Pool.step a p) as [p1|] eqn:Hstep; [|discriminate].
    destruct (IH p1 H (step_accounted _ _ _ Hstep Hacc)) as [Hacc' Hk].
    split; [exact Hacc'|]. rewrite Hk. exact (step_max_workers _ _ _ Hstep).
Qed.

Lemma run_in_order (acts : list (Pool.action J)) p p' :
  Pool.run acts p = Some p' ->
  Pool.max_workers p = 1%nat ->
  Pool.accounted p -> Pool.in_order p -> Pool.in_order p'.
Proof.
  revert p. induction acts as [|a acts IH]; cbn; intros p H Hk Hacc Hord.
  - injection H as <-. exact Hord.
  - destruct (Pool.step a p) as [p1|] eqn:Hstep; [|discriminate].
    apply (IH p1 H).
    + rewrite (step_max_workers _ _ _ Hstep). exact Hk.
    + exact (step_accounted _ _ _ Hstep Hacc).
    + apply (step_in_order _ _ _ Hstep Hk); [|exact Hord].
      destruct Hacc as [Hlen _]. lia.
Qed.

(** While a job is queued or running, a worker can take a step. *)
Lemma progress p :
  (1 <= Pool.max_workers p)%nat ->
  (List.length (Pool.running p) <= Pool.max_workers p)%nat ->
  ~ Pool.idle p ->
  exists p', Pool.step Pool.Start p = Some p' \/
             Pool.step (Pool.Finish 0) p = Some p'.
Proof.
  intros Hk Hlen Hbusy. unfold Pool.idle in Hbusy. unfold Pool.step.
  destruct (Pool.running p) as [|j run] eqn:Hr.
  - destruct (Pool.work_queue p) as [|j rest] eqn:Hq.
    + exfalso. apply Hbusy. auto.
    + cbn [List.length].
      destruct (Nat.ltb_spec 0 (Pool.max_workers p)); [|lia].
      eexists. left. reflexivity.
  - cbn [nth_error]. eexists. right. reflexivity.
Qed.

Lemma drain_worker_steps p : Forall Pool.worker_step (Pool.drain p).
Proof.
  unfold Pool.drain. apply Forall_app. split.
  - apply Forall_forall. intros a Ha. apply repeat_spec in Ha. subst.
    exact I.
  - induction (List.length (Pool.work_queue p)) as [|n IH]; cbn.
    + constructor.
    + repeat constructor. exact IH.
Qed.

Lemma run_app (acts acts' : list (Pool.action J)) p :
  Pool.run (acts ++ acts') p =
  match Pool.run acts p with
  | Some p' => Pool.run acts' p'
  | None => None
  end.
Proof.
  revert p. induction acts as [|a acts IH]; intros p; cbn; [reflexivity|].
  destruct (Pool.step a p); [apply IH|reflexivity].
Qed.

Lemma start_finish (k : nat) (j : J) (q c sub : list J) :
  (1 <= k)%nat ->
  Pool.run [Pool.Start; Pool.Finish 0] (Pool.mk k (j :: q) [] c sub) =
  Some (Pool.mk k q [] (c ++ [j]) sub).
Proof.
  intros Hk. destruct k as [|k]; [lia|reflexivity].
Qed.

Lemma drain_queue (k : nat) (q c sub : list J) :
  (1 <= k)%nat ->
  Pool.run (List.concat (repeat [Pool.Start; Pool.Finish 0] (List.length q)))
    (Pool.mk k q [] c sub) =
  Some (Pool.mk k [] [] (c ++ q) sub).
Proof.
  intros Hk. revert c. induction q as [|j q IH]; intros c.
  - cbn. rewrite app_nil_r. reflexivity.
  - cbn [List.length repeat List.concat].
    rewrite run_app, (start_finish _ _ _ _ _ Hk), IH, <- app_assoc.
    reflexivity.
Qed.

Lemma drain_running (k : nat) (acts : list (Pool.action J))
    (q r c sub : list J) :
  Pool.run (repeat (Pool.Finish 0) (List.length r) ++ acts)
    (Pool.mk k q r c sub) =
  Pool.run acts (Pool.mk k q [] (c ++ r) sub).
Proof.
  revert c. induction r as [|j r IH]; intros c.
  - cbn. rewrite app_nil_r. reflexivity.
  - cbn [List.length repeat app Pool.run].
    unfold Pool.step.
    cbn [Pool.work_queue Pool.running Pool.max_workers Pool.completed
           Pool.submitted nth_error Pool.remove_nth].
    rewrite IH, <- app_assoc. reflexivity.
Qed.

(** Left to its workers, a pool with a worker ends every job it has. *)
Lemma drain_idle p :
  (1 <= Pool.max_workers p)%nat ->
  exists p',
    Pool.run (Pool.drain p) p = Some p' /\
    Pool.idle p' /\
    Pool.completed p' =
      (Pool.completed p ++ Pool.running p ++ Pool.work_queue p)%list /\
    Pool.submitted p' = Pool.submitted p.
Proof.
  intros Hk. destruct p as [k q r c sub]. cbn in *.
  unfold Pool.drain. cbn [Pool.running Pool.work_queue].
  rewrite drain_running, (drain_queue _ _ _ _ Hk).
  eexists. split; [reflexivity|]. cbn.
  rewrite <- app_assoc. repeat split; reflexivity.
Qed.


End PoolProperties.



(** With two workers the second job may end before the first. *)
Example pool_two_workers_out_of_order :
  Pool.run
    [Pool.Submit (VStr "first"); Pool.Submit (VStr "second"); Pool.Start;
     Pool.Start; Pool.Finish 1; Pool.Finish 0]
    (Pool.create 2) =
  Some (Pool.mk 2 [] []
          [VStr "second"; VStr "first"] [VStr "first"; VStr "second"]).
Proof. reflexivity. Qed.

(** * More of the dispatcher *)

Section WorkerEdges.

Context {C : Collaborators}.

Lemma process_api_except_coded (e : exn) (s : State) :
  exists text,
    process_api_except e s = ([EvLog ERROR text [AExn e]], s, inr (coded e)).
Proof.
  unfold process_api_except, coded.
  destruct (is_BinasciiError e); [|destruct (is_JSONDecodeError e)];
    eexists; reflexivity.
Qed.

(** X1: a chat request that lacks [params], or whose [params] lack [image]
    or, once the image is loaded, [text], is answered with code 9998 and the
    message '未知错误: ' followed by the missing key in quotes; the engine is
    not called. *)
Theorem chat_request_missing_key :
  forall (d : list (string * value)) (request_id : value) (s : State),
    dict_lookup "api" d = Some (VStr api_chat) ->
    (dict_lookup "params" d = None ->
     process_api request_id (VDict d) s =
     ([EvLog ERROR "未知异常: %s" [AExn (Raise KeyError "'params'")]], s,
      inr (mkResult 9998 (msg_unknown_error ++ "'params'") None))) /\
    (forall p,
       dict_lookup "params" d = Some (VDict p) ->
       dict_lookup "image" p = None ->
       process_api request_id (VDict d) s =
       ([EvLog ERROR "未知异常: %s" [AExn (Raise KeyError "'image'")]], s,
        inr (mkResult 9998 (msg_unknown_error ++ "'image'") None))) /\
    (forall p b64 img,
       dict_lookup "params" d = Some (VDict p) ->
       dict_lookup "image" p = Some b64 ->
       load_image_b64 b64 = inr img ->
       dict_lookup "text" p = None ->
       process_api request_id (VDict d) s =
       ([EvLog ERROR "未知异常: %s" [AExn (Raise KeyError "'text'")]], s,
        inr (mkResult 9998 (msg_unknown_error ++ "'text'") None))).
Proof.
  intros d request_id s Hapi. split; [|split].
  - intros Hp. unfold process_api, process_api_try, try_except.
    cbn [subscript]. rewrite Hapi, Hp. rewrite bind_lift_inr.
    cbn [eq_str]. rewrite String.eqb_refl. reflexivity.
  - intros p Hp Hi.
    unfold process_api, process_api_try, try_except.
    cbn [subscript]. rewrite Hapi, Hp. rewrite !bind_lift_inr.
    cbn [eq_str]. rewrite String.eqb_refl. rewrite !bind_lift_inr.
    cbn [subscript]. rewrite Hi. reflexivity.
  - intros p b64 img Hp Hi Hl Ht.
    rewrite (process_api_chat _ _ _ _ _ Hapi Hp Hi).
    unfold try_except. rewrite Hl, bind_lift_inr.
    cbn [subscript]. rewrite Ht. reflexivity.
Qed.


(** X2: a request whose [api] is not a string never gets 9900: building the
    log line 'Unknown api: ' + api raises [TypeError], and the Result is
    9998 with the text of that error. *)
Theorem non_string_api_is_9998 :
  forall (d : list (string * value)) (api request_id : value) (s : State),
    dict_lookup "api" d = Some api ->
    (forall t, api <> VStr t) ->
    let e := Raise TypeError
               ("can only concatenate str (not " ++ dquote ++ type_name api
                  ++ dquote ++ ") to str") in
    process_api request_id (VDict d) s =
    ([EvLog ERROR "未知异常: %s" [AExn e]], s,
     inr (mkResult 9998 (msg_unknown_error ++ exn_str e) None)).
Proof.
  intros d api request_id s Hapi Hnot e. subst e.
  unfold process_api, process_api_try, try_except.
  cbn [subscript]. rewrite Hapi. rewrite bind_lift_inr.
  destruct api as [|b|n|t|t|l|m]; try reflexivity.
  exfalso. exact (Hnot t eq_refl).
Qed.

(** X3: whatever exception the image loader or the engine raises for a chat
    request, [process_api] returns the Result its [except] clauses give it
    (9901 for [binascii.Error], 9902 for [JSONDecodeError], 9998 otherwise).
    A failed load calls the engine not at all and leaves the state as it
    was; a failed chat has called the engine once. *)
Theorem collaborator_failure_is_coded :
  forall (d p : list (string * value)) (b64 request_id : value) (s : State),
    dict_lookup "api" d = Some (VStr api_chat) ->
    dict_lookup "params" d = Some (VDict p) ->
    dict_lookup "image" p = Some b64 ->
    (forall e,
       load_image_b64 b64 = inl e ->
       let run := process_api request_id (VDict d) s in
       outcome_of run = inr (coded e) /\
       engine_calls (events_of run) = [] /\
       state_of run = s) /\
    (forall img question eng e,
       load_image_b64 b64 = inr img ->
       dict_lookup "text" p = Some question ->
       engine_chat (engine s) question img = (eng, inl e) ->
       let run := process_api request_id (VDict d) s in
       outcome_of run = inr (coded e) /\
       engine_calls (events_of run) = [(question, img)] /\
       state_of run = mkState eng (broker s)).
Proof.
  intros d p b64 request_id s Hapi Hp Hi. split.
  - intros e Hl run. subst run.
    rewrite (process_api_chat _ _ _ _ _ Hapi Hp Hi).
    unfold try_except. rewrite Hl, bind_lift_inl.
    destruct (process_api_except_coded e s) as [text ->].
    repeat split.
  - intros img question eng e Hl Ht Hc run. subst run.
    rewrite (process_api_chat _ _ _ _ _ Hapi Hp Hi).
    unfold try_except. rewrite Hl, bind_lift_inr.
    cbn [subscript]. rewrite Ht, bind_lift_inr.
    rewrite bind_chat_w_image, Hc.
    destruct (process_api_except_coded e (mkState eng (broker s))) as [text ->].
    repeat split.
Qed.

(** X4: an envelope whose [data] has no [api] is answered with 9998
    ("未知错误: 'api'") on its [request_id]; after the publication the last
    log line raises [KeyError] again, so the worker ends in its [except]
    clause even when the broker took the Result. *)
Theorem missing_api_is_answered_then_logged :
  forall (m d : list (string * value)) (rid : value) (s : State),
    dict_lookup "request_id" m = Some rid ->
    dict_lookup "data" m = Some (VDict d) ->
    dict_lookup "api" d = None ->
    let reply := mkResult 9998 (msg_unknown_error ++ "'api'") None in
    let refused := snd (broker_publish (broker s) rid reply) in
    events_of (process_thread (VDict m) s) =
    [EvLog INFO "{} Calling api: {}" [AVal rid; AVal (VStr "Unknown")];
     EvLog ERROR "未知异常: %s" [AExn (Raise KeyError "'api'")];
     EvLog INFO "1 ===> [Time taken: {!s}]" [AElapsed];
     EvPublish rid reply refused;
     EvLog ERROR "process_thread异常: %s"
       [AExn match refused with
             | Some e => e
             | None => Raise KeyError "'api'"
             end]].
Proof.
  intros m d rid s Hid Hdata Hapi reply refused.
  assert (Hrun : process_api rid (VDict d) s =
                 ([EvLog ERROR "未知异常: %s" [AExn (Raise KeyError "'api'")]],
                  s, inr reply)).
  { unfold process_api, process_api_try, try_except.
    cbn [subscript]. rewrite Hapi. reflexivity. }
  rewrite (process_thread_envelope _ _ _ _ _ _ _ Hid Hdata Hrun).
  rewrite Hapi. fold refused. unfold events_of. cbn [fst].
  destruct refused; reflexivity.
Qed.

(** X5: a payload whose [data] is not an object gets no Result: the first
    log line raises [AttributeError] (no [get]), the worker logs it and
    returns, and nothing is published. *)
Theorem data_not_an_object_publishes_nothing :
  forall (m : list (string * value)) (rid data : value) (s : State),
    dict_lookup "request_id" m = Some rid ->
    dict_lookup "data" m = Some data ->
    (forall d, data <> VDict d) ->
    process_thread (VDict m) s =
    ([EvLog ERROR "process_thread异常: %s"
        [AExn (Raise AttributeError
                 ("'" ++ type_name data ++ "' object has no attribute 'get'"))]],
     s, inr tt).
Proof.
  intros m rid data s Hid Hdata Hnot.
  unfold process_thread, process_thread_try, try_except.
  cbn [subscript]. rewrite Hid, Hdata, !bind_lift_inr.
  destruct data as [|b|n|t|t|l|d]; try reflexivity.
  exfalso. exact (Hnot d eq_refl).
Qed.

Ltac try_step :=
  match goal with
  | |- context [bind (lift ?x) _ _] =>
      destruct x eqn:?; [rewrite bind_lift_inl | rewrite bind_lift_inr]
  | |- context [bind (log _ _ _) _ _] => unfold log; rewrite bind_emit
  | |- context [bind (emit _) _ _] => rewrite bind_emit
  | |- context [bind (chat_w_image _ _) _ _] =>
      rewrite bind_chat_w_image;
      match goal with
      | |- context [engine_chat ?e ?q ?i] =>
          let eng := fresh "eng" in
          destruct (engine_chat e q i) as [eng [?|?]] eqn:?
      end
  | |- context [if ?b then _ else _] => destruct b eqn:?
  end.

Lemma process_api_try_calls_once (request : value) (s : State) :
  (List.length (engine_calls (events_of (process_api_try request s))) <= 1)%nat.
Proof.
  unfold process_api_try. repeat try_step; cbn; lia.
Qed.

Lemma process_api_calls_once (request_id request : value) (s : State) :
  (List.length
     (engine_calls (events_of (process_api request_id request s))) <= 1)%nat.
Proof.
  pose proof (process_api_try_calls_once request s) as H.
  unfold process_api, try_except.
  destruct (process_api_try request s) as [[ev s1] [e|r]]; cbn in *.
  - destruct (process_api_except_coded e s1) as [text ->].
    cbn. rewrite engine_calls_app. cbn. rewrite app_nil_r. exact H.
  - exact H.
Qed.

(** The worker ends in its [except] clause before it has called
    [process_api], or the payload has a [request_id] and a [data] object. *)
Lemma process_thread_cases (msg_body : value) (s : State) :
  (exists e : exn,
     process_thread msg_body s =
     ([EvLog ERROR "process_thread异常: %s" [AExn e]], s, inr tt)) \/
  (exists m d rid,
     msg_body = VDict m /\
     dict_lookup "request_id" m = Some rid /\
     dict_lookup "data" m = Some (VDict d)).
Proof.
  destruct msg_body as [|b|n|t|t|l|m];
    try (left;
         match goal with
         | |- context [process_thread ?v s] =>
             destruct (not_an_object_publishes_nothing v s) as (e & _ & He);
             [intros m; discriminate | exists e; exact He]
         end).
  destruct (dict_lookup "request_id" m) as [rid|] eqn:Hid;
    [destruct (dict_lookup "data" m) as [data|] eqn:Hdata|].
  - destruct data as [|b|n|t|t|l|d];
      try (left; eexists;
           unfold process_thread, process_thread_try, try_except;
           cbn [subscript]; rewrite Hid, Hdata, !bind_lift_inr;
           reflexivity).
    right. exists m, d, rid. repeat split; assumption.
  - left. destruct (process_thread_missing_key m s (or_intror Hdata))
      as (e & _ & He). exists e. exact He.
  - left. destruct (process_thread_missing_key m s (or_introl Hid))
      as (e & _ & He). exists e. exact He.
Qed.

(** X6: on any payload whatever the worker returns, raising nothing; it asks
    for at most one publication and calls the engine at most once; a
    publication it asks for is on the payload's [request_id], and is the
    Result [process_api] returned for the payload's [data]. *)
Theorem worker_always_returns :
  forall (msg_body : value) (s : State),
    let run := process_thread msg_body s in
    outcome_of run = inr tt /\
    (List.length (publish_calls (events_of run)) <= 1)%nat /\
    (List.length (engine_calls (events_of run)) <= 1)%nat /\
    (forall ch r,
       In (ch, r) (publish_calls (events_of run)) ->
       subscript msg_body "request_id" = inr ch /\
       outcome_of (process_api ch (data_of msg_body) s) = inr r).
Proof.
  intros msg_body s run. subst run.
  destruct (process_thread_cases msg_body s)
    as [[e He]|(m & d & rid & -> & Hid & Hdata)].
  - rewrite He. cbn. repeat split; try lia; contradiction.
  - destruct (process_api_shape rid (VDict d) s)
      as (ev & s1 & r & Hrun & Hnone & _).
    destruct (process_thread_publishes _ _ _ _ _ _ _ Hid Hdata Hrun Hnone)
      as (Hout & Hcalls & Heng & _).
    rewrite Hout, Hcalls, Heng.
    pose proof (process_api_calls_once rid (VDict d) s) as Hone.
    rewrite Hrun in Hone. cbn [events_of fst] in Hone.
    split; [reflexivity|split; [cbn; lia|split; [exact Hone|]]].
    intros ch r' [H|[]]. injection H as <- <-. split.
    + cbn [subscript]. rewrite Hid. reflexivity.
    + unfold data_of. cbn [subscript]. rewrite Hdata, Hrun. reflexivity.
Qed.

End WorkerEdges.

Lemma chat_request_missing_key_witness :
  outcome_of
    (process_api (C := Reference.collaborators) (VStr "r1")
       (VDict [("api", VStr api_chat)]) (Reference.state true)) =
  inr (mkResult 9998 (msg_unknown_error ++ "'params'") None).
Proof.
  destruct (chat_request_missing_key (C := Reference.collaborators)
              [("api", VStr api_chat)] (VStr "r1") (Reference.state true)
              eq_refl) as (H & _).
  rewrite (H eq_refl). reflexivity.
Defined.

Lemma non_string_api_is_9998_witness :
  outcome_of
    (process_api (C := Reference.collaborators) (VStr "r1")
       (VDict [("api", VInt 7)]) (Reference.state true)) =
  inr (mkResult 9998
         (msg_unknown_error ++ "can only concatenate str (not " ++ dquote
            ++ "int" ++ dquote ++ ") to str") None).
Proof.
  pose proof (non_string_api_is_9998 (C := Reference.collaborators)
                [("api", VInt 7)] (VInt 7) (VStr "r1") (Reference.state true)
                eq_refl) as H.
  cbv zeta in H. rewrite H.
  - reflexivity.
  - intros t. discriminate.
Defined.

Lemma collaborator_failure_is_coded_witness :
  outcome_of
    (process_api (C := Reference.collaborators) (VStr "r1")
       (VDict [("api", VStr api_chat);
               ("params", VDict [("text", VStr "What is this?");
                                 ("image", VStr "ab!cd")])])
       (Reference.state true)) =
  inr (mkResult 9998 (msg_unknown_error ++ "cannot identify image file") None).
Proof.
  destruct (collaborator_failure_is_coded (C := Reference.collaborators)
              [("api", VStr api_chat);
               ("params", VDict [("text", VStr "What is this?");
                                 ("image", VStr "ab!cd")])]
              [("text", VStr "What is this?"); ("image", VStr "ab!cd")]
              (VStr "ab!cd") (VStr "r1") (Reference.state true)
              eq_refl eq_refl eq_refl) as (H & _).
  destruct (H (Raise (OtherError "UnidentifiedImageError")
                 "cannot identify image file") eq_refl) as (Hout & _).
  exact Hout.
Defined.

Lemma missing_api_is_answered_then_logged_witness :
  publish_calls
    (events_of (process_thread (C := Reference.collaborators)
                  (VDict [("request_id", VStr "r1"); ("data", VDict [])])
                  (Reference.state true))) =
  [(VStr "r1", mkResult 9998 (msg_unknown_error ++ "'api'") None)].
Proof.
  pose proof (missing_api_is_answered_then_logged
                (C := Reference.collaborators)
                [("request_id", VStr "r1"); ("data", VDict [])] []
                (VStr "r1") (Reference.state true)
                eq_refl eq_refl eq_refl) as H.
  cbv zeta in H. rewrite H. reflexivity.
Defined.

Lemma data_not_an_object_publishes_nothing_witness :
  publish_calls
    (events_of (process_thread (C := Reference.collaborators)
                  (VDict [("request_id", VStr "r1"); ("data", VStr "chat")])
                  (Reference.state true))) = [].
Proof.
  rewrite (data_not_an_object_publishes_nothing
             (C := Reference.collaborators)
             [("request_id", VStr "r1"); ("data", VStr "chat")]
             (VStr "r1") (VStr "chat") (Reference.state true)
             eq_refl eq_refl).
  - reflexivity.
  - intros d. discriminate.
Defined.

Section ListenerEdges.

Context {C : Collaborators}.

Lemma listen_loop_decodable (items : list item) (fin : listen_end) (s : State) :
  Forall decodable items ->
  outcome_of (listen_loop items fin s) =
    match fin with
    | ListenRaises e => inl e
    | ListenReturns => inr tt
    end /\
  List.length (decoded_messages items) = List.length (filter is_message items).
Proof.
  induction 1 as [|it rest Hit _ [IHo IHl]].
  - destruct fin; split; reflexivity.
  - rewrite listen_loop_cons. cbv zeta.
    cbn [decoded_messages filter]. unfold is_message at 1.
    destruct (String.eqb (item_type it) "message") eqn:Htype.
    + apply String.eqb_eq in Htype. destruct (Hit Htype) as [v ->].
      cbn. rewrite IHl. auto.
    + cbn. auto.
Qed.

(** X7: when every data message of a subscription decodes, the pass submits
    one job per data message, in the order the messages came in, whatever
    other events come in between, and sleeps only when [listen()] itself
    raises. *)
Theorem decodable_subscription_submits_in_order :
  forall (queue_no : string) (items : list item) (fin : listen_end) (s : State),
    Forall decodable items ->
    let run := listener_pass queue_no (Subscribed items fin) s in
    submitted_jobs (events_of run) = decoded_messages items /\
    List.length (submitted_jobs (events_of run)) =
      List.length (filter is_message items) /\
    sleeps (events_of run) =
      match fin with
      | ListenRaises _ => [20]
      | ListenReturns => []
      end.
Proof.
  intros queue_no items fin s Hall run.
  destruct (listen_loop_decodable items fin s Hall) as [Ho Hl].
  pose proof (listen_loop_submits_in_order items fin s Hall) as Hjobs.
  destruct (listener_pass_shape queue_no (Subscribed items fin) s)
    as (_ & _ & _ & _ & Hz).
  fold run in Hz.
  assert (Htry : outcome_of (listener_try queue_no (Subscribed items fin) s) =
                 outcome_of (listen_loop items fin s)).
  { rewrite listener_try_subscribed. reflexivity. }
  assert (Hsub : submitted_jobs (events_of run) = decoded_messages items).
  { subst run.
    destruct (outcome_of (listener_try queue_no (Subscribed items fin) s))
      as [e|[]] eqn:Hr.
    - rewrite (listener_pass_raised _ _ _ _ Hr). cbn [events_of fst].
      fold (events_of (listener_try queue_no (Subscribed items fin) s)).
      rewrite submitted_jobs_app, listener_try_subscribed. cbv zeta.
      cbn [events_of fst submitted_jobs].
      fold (events_of (listen_loop items fin s)).
      rewrite Hjobs. cbn. apply app_nil_r.
    - rewrite (listener_pass_returned _ _ _ Hr), listener_try_subscribed.
      cbv zeta. cbn [events_of fst submitted_jobs].
      fold (events_of (listen_loop items fin s)). exact Hjobs. }
  split; [exact Hsub|split].
  - rewrite Hsub. exact Hl.
  - rewrite Hz, Htry, Ho. destruct fin; reflexivity.
Qed.

(** X8: the listener keeps nothing from one pass to the next: what it does
    over the observed passes is what each pass does on its own, one after
    the other, and it sleeps 20 once for each pass that raised. *)
Theorem listener_is_its_passes :
  forall (queue_no : string) (subs : list subscription) (s : State),
    events_of (listener queue_no subs s) =
      flat_map (fun sub => events_of (listener_pass queue_no sub s)) subs /\
    sleeps (events_of (listener queue_no subs s)) =
      repeat 20 (List.length (filter (pass_raises queue_no s) subs)).
Proof.
  intros queue_no subs s.
  induction subs as [|sub rest [IHe IHz]].
  - split; reflexivity.
  - rewrite listener_cons. cbv zeta. cbn [events_of fst].
    fold (events_of (listener queue_no rest s)).
    cbn [flat_map filter]. rewrite IHe. split; [reflexivity|].
    rewrite sleeps_app, <- IHe, IHz.
    destruct (listener_pass_shape queue_no sub s) as (_ & _ & _ & _ & ->).
    unfold pass_raises at 2.
    destruct (outcome_of (listener_try queue_no sub s)); reflexivity.
Qed.

End ListenerEdges.

Lemma decodable_subscription_submits_in_order_witness :
  submitted_jobs
    (events_of (listener_pass (C := Reference.collaborators) "1"
                  (Subscribed [mkItem "subscribe" [];
                               mkItem "message" (bytes_of_string "{}")]
                     ListenReturns)
                  (Reference.state true))) = [VDict []] /\
  sleeps
    (events_of (listener_pass (C := Reference.collaborators) "1"
                  (Subscribed [mkItem "subscribe" [];
                               mkItem "message" (bytes_of_string "{}")]
                     ListenReturns)
                  (Reference.state true))) = [].
Proof.
  destruct (decodable_subscription_submits_in_order
              (C := Reference.collaborators) "1"
              [mkItem "subscribe" []; mkItem "message" (bytes_of_string "{}")]
              ListenReturns (Reference.state true))
    as (Hjobs & _ & Hsleeps).
  - constructor; [intros H; discriminate H|].
    constructor; [intros _; eexists; reflexivity|constructor].
  - split; [exact Hjobs|exact Hsleeps].
Defined.

Section DispatcherRun.

Context {C : Collaborators}.

Lemma listener_quiet (queue_no : string) (subs : list subscription)
    (s : State) :
  outcome_of (listener queue_no subs s) = inr tt /\
  state_of (listener queue_no subs s) = s /\
  publish_calls (events_of (listener queue_no subs s)) = [].
Proof.
  induction subs as [|sub rest (IHo & IHs & IHp)].
  - repeat split.
  - rewrite listener_cons. cbv zeta.
    cbn [events_of state_of outcome_of fst snd].
    destruct (listener_pass_shape queue_no sub s) as (_ & _ & _ & Hp & _).
    rewrite publish_calls_app, Hp, IHp. auto.
Qed.

Lemma worker_run_publishes (jobs : list value) :
  forall s : State,
    outcome_of (worker_run jobs s) = inr tt /\
    (List.length (publish_calls (events_of (worker_run jobs s)))
     <= List.length jobs)%nat /\
    (forall ch r,
       In (ch, r) (publish_calls (events_of (worker_run jobs s))) ->
       exists job, In job jobs /\ subscript job "request_id" = inr ch).
Proof.
  induction jobs as [|job rest IH]; intros s.
  - cbn. repeat split; [lia|contradiction].
  - assert (Hjob : outcome_of (process_thread job s) = inr tt /\
                   (List.length
                      (publish_calls (events_of (process_thread job s)))
                    <= 1)%nat /\
                   forall ch r,
                     In (ch, r)
                        (publish_calls (events_of (process_thread job s))) ->
                     subscript job "request_id" = inr ch).
    { destruct (process_thread_cases job s)
        as [[e He]|(m & d & rid & -> & Hid & Hdata)].
      - rewrite He. cbn. repeat split; [lia|contradiction].
      - destruct (process_api_shape rid (VDict d) s)
          as (ev & s1 & r & Hrun & Hnone & _).
        destruct (process_thread_publishes _ _ _ _ _ _ _ Hid Hdata Hrun Hnone)
          as (Hout & Hcalls & _).
        rewrite Hout, Hcalls. split; [reflexivity|split; [cbn; lia|]].
        intros ch r' [H|[]]. injection H as <- <-.
        cbn [subscript]. rewrite Hid. reflexivity. }
    destruct Hjob as (Ho & Hp & Hin).
    cbn [worker_run].
    rewrite (bind_run _ _ s (state_of (process_thread job s))
               (events_of (process_thread job s)) tt).
    2:{ rewrite (run_eta (process_thread job s)) at 1. rewrite Ho.
        reflexivity. }
    destruct (IH (state_of (process_thread job s))) as (IHo & IHp & IHin).
    cbn [events_of outcome_of fst snd].
    fold (events_of (worker_run rest (state_of (process_thread job s)))).
    fold (outcome_of (worker_run rest (state_of (process_thread job s)))).
    rewrite publish_calls_app, length_app. cbn [List.length].
    split; [exact IHo|]. split; [lia|].
    intros ch r H. apply in_app_or in H as [H|H].
    + exists job. split; [left; reflexivity|]. exact (Hin ch r H).
    + destruct (IHin ch r H) as (j & Hj & Hid).
      exists j. split; [right; exact Hj|exact Hid].
Qed.

(** X19: the dispatcher as a whole, over any observed passes of the listener
    and with the worker running the submitted jobs in their order: it does
    not end by an exception, it asks for no more publications than jobs
    were submitted, and each publication is on the [request_id] of a
    submitted job. *)
Theorem dispatcher_publishes_only_for_submitted_jobs :
  forall (queue_no : string) (subs : list subscription) (s : State),
    let run := dispatcher_run queue_no subs s in
    let jobs := submitted_jobs (events_of (listener queue_no subs s)) in
    outcome_of run = inr tt /\
    (List.length (publish_calls (events_of run)) <= List.length jobs)%nat /\
    (forall ch r,
       In (ch, r) (publish_calls (events_of run)) ->
       exists job, In job jobs /\ subscript job "request_id" = inr ch).
Proof.
  intros queue_no subs s. cbv zeta.
  destruct (listener_quiet queue_no subs s) as (Ho & _ & Hp).
  unfold dispatcher_run.
  destruct (listener queue_no subs s) as [[ev s1] o].
  cbn [events_of outcome_of fst snd] in *. subst o.
  destruct (worker_run_publishes (submitted_jobs ev) s1) as (Wo & Wp & Win).
  destruct (worker_run (submitted_jobs ev) s1) as [[ev' s2] o'].
  cbn [events_of outcome_of fst snd] in *.
  rewrite publish_calls_app, Hp. cbn [app].
  split; [exact Wo|]. split; [exact Wp|exact Win].
Qed.

End DispatcherRun.

(** * More of [load_image_b64] *)

Lemma a2b_base64_loop_filter (data : bytes) :
  forall (q leftchar pads : Z) (out : bytes),
    a2b_base64_loop (filter significant data) q leftchar pads out =
    a2b_base64_loop data q leftchar pads out.
Proof.
  induction data as [|c data IH]; intros q leftchar pads out; [reflexivity|].
  cbn [filter]. unfold significant at 1, is_alphabet.
  destruct (c =? BASE64_PAD) eqn:Hpad.
  - cbn [orb a2b_base64_loop]. rewrite Hpad.
    destruct (2 <=? q); [destruct (4 <=? q + (pads + 1))|];
      try reflexivity; apply IH.
  - cbn [orb]. destruct (table_a2b_base64 c) as [v|] eqn:Hv.
    + cbn [a2b_base64_loop]. rewrite Hpad, Hv.
      destruct (q =? 0); [apply IH|].
      destruct (q =? 1); [apply IH|].
      destruct (q =? 2); apply IH.
    + cbn [a2b_base64_loop]. rewrite Hpad, Hv. apply IH.
Qed.

Lemma loop_alphabet_length (l : bytes) :
  forallb is_alphabet l = true ->
  forall (q leftchar : Z) (out rest : bytes),
    q = 0 \/ q = 1 \/ q = 2 \/ q = 3 ->
    exists leftchar' out',
      a2b_base64_loop (l ++ rest)%list q leftchar 0 out =
      a2b_base64_loop rest ((q + Z.of_nat (List.length l)) mod 4) leftchar' 0 out' /\
      Z.of_nat (List.length out') =
      Z.of_nat (List.length out) + completed_bytes q (Z.of_nat (List.length l)).
Proof.
  induction l as [|c l IH]; intros Hl q leftchar out rest Hq.
  - exists leftchar, out.
    split; [f_equal; cbn [List.length Z.of_nat]; rewrite Z.add_0_r;
            destruct Hq as [-> | [-> | [-> | ->]]]; reflexivity|].
    unfold completed_bytes. cbn [List.length Z.of_nat].
    rewrite !Z.add_0_r. lia.
  - cbn [forallb] in Hl. apply andb_prop in Hl as [Hc Hl].
    destruct (is_alphabet_char c Hc) as (Hpad & _ & v & Hv).
    cbn [app a2b_base64_loop]. rewrite Hpad, Hv.
    cbn [List.length]. rewrite Nat2Z.inj_succ.
    set (n := Z.of_nat (List.length l)) in *.
    assert (Hn : 0 <= n) by (subst n; lia).
    destruct Hq as [-> | [-> | [-> | ->]]]; cbn [Z.eqb Pos.eqb].
    + destruct (IH Hl 1 v out rest) as (lc & o & -> & Hlen); [auto|].
      exists lc, o. split; [f_equal; f_equal; lia|].
      rewrite Hlen. unfold completed_bytes.
      Z.div_mod_to_equations. lia.
    + destruct (IH Hl 2 (Z.land v 15)
                  (out ++ [Z.land (Z.lor (Z.shiftl leftchar 2) (Z.shiftr v 4)) 255])%list
                  rest) as (lc & o & -> & Hlen); [auto|].
      exists lc, o. split; [f_equal; f_equal; lia|].
      rewrite Hlen, length_app. cbn [List.length]. unfold completed_bytes.
      Z.div_mod_to_equations. lia.
    + destruct (IH Hl 3 (Z.land v 3)
                  (out ++ [Z.land (Z.lor (Z.shiftl leftchar 4) (Z.shiftr v 2)) 255])%list
                  rest) as (lc & o & -> & Hlen); [auto|].
      exists lc, o. split; [f_equal; f_equal; lia|].
      rewrite Hlen, length_app. cbn [List.length]. unfold completed_bytes.
      Z.div_mod_to_equations. lia.
    + destruct (IH Hl 0 0
                  (out ++ [Z.land (Z.lor (Z.shiftl leftchar 6) v) 255])%list
                  rest) as (lc & o & -> & Hlen); [auto|].
      exists lc, o. split.
      * f_equal.
        replace (3 + Z.succ n) with (0 + n + 1 * 4) by lia.
        apply eq_sym, Z_mod_plus_full.
      * rewrite Hlen, length_app. cbn [List.length]. unfold completed_bytes.
        Z.div_mod_to_equations. lia.
Qed.

Lemma valid_base64_bytes_length (cs : bytes) :
  valid_base64_bytes cs = true ->
  exists data,
    a2b_base64 cs = inr data /\
    0 <= padding cs <= 2 /\
    Z.of_nat (List.length data) =
      3 * (Z.of_nat (List.length cs) / 4) - padding cs.
Proof.
  unfold valid_base64_bytes, padding. intros H.
  apply andb_prop in H as [Hlen Hall]. apply Z.eqb_eq in Hlen.
  rewrite <- (rev_involutive cs) in Hlen |- *.
  rewrite (rev_involutive (rev cs)).
  rewrite length_rev in Hlen |- *.
  destruct (rev cs) as [|a [|b r]].
  - exists []. repeat split; cbn; lia.
  - discriminate Hlen.
  - cbn [strip_padding] in Hall |- *. cbn [rev]. unfold a2b_base64.
    cbn [List.length] in Hlen |- *. rewrite !Nat2Z.inj_succ in Hlen |- *.
    set (n := Z.of_nat (List.length r)) in *.
    assert (Hn : 0 <= n) by (subst n; lia).
    destruct (a =? BASE64_PAD) eqn:Ha.
    + apply Z.eqb_eq in Ha. subst a.
      destruct (b =? BASE64_PAD) eqn:Hb; cbn [andb] in Hall |- *.
      * apply Z.eqb_eq in Hb. subst b. apply forallb_rev in Hall.
        rewrite <- app_assoc.
        destruct (loop_alphabet_length (rev r) Hall 0 0 []
                    ([BASE64_PAD] ++ [BASE64_PAD])%list)
          as (lc & o & -> & Hout); [auto|].
        rewrite length_rev in *. fold n in Hout |- *.
        replace ((0 + n) mod 4) with 2
          by (revert Hlen; Z.div_mod_to_equations; lia).
        exists o. split; [reflexivity|]. fold n.
        split; [lia|]. rewrite Hout. cbn [List.length Z.of_nat].
        unfold completed_bytes. revert Hlen. Z.div_mod_to_equations. lia.
      * apply forallb_rev in Hall. cbn [rev] in Hall.
        destruct (loop_alphabet_length (rev r ++ [b])%list Hall 0 0 []
                    [BASE64_PAD])
          as (lc & o & -> & Hout); [auto|].
        rewrite length_app, length_rev in *. cbn [List.length] in *.
        rewrite Nat2Z.inj_add in *. fold n in Hout |- *.
        replace ((0 + (n + Z.of_nat 1)) mod 4) with 3
          by (revert Hlen; cbn [Z.of_nat Pos.of_succ_nat];
              Z.div_mod_to_equations; lia).
        exists o. split; [reflexivity|]. rewrite Nat2Z.inj_succ. fold n.
        split; [lia|]. rewrite Hout. cbn [List.length Z.of_nat Pos.of_succ_nat].
        unfold completed_bytes. revert Hlen. Z.div_mod_to_equations. lia.
    + rewrite andb_false_l in Hall |- *. apply forallb_rev in Hall.
      cbn [rev] in Hall.
      destruct (loop_alphabet_length _ Hall 0 0 [] [] (or_introl eq_refl))
        as (lc & o & H & Hout).
      rewrite app_nil_r in H. rewrite H.
      rewrite !length_app, length_rev in *. cbn [List.length] in *.
      rewrite !Nat2Z.inj_add in *. fold n in Hout |- *.
      replace ((0 + (n + Z.of_nat 1 + Z.of_nat 1)) mod 4) with 0
        by (revert Hlen; cbn [Z.of_nat Pos.of_succ_nat];
            Z.div_mod_to_equations; lia).
      exists o. split; [reflexivity|]. rewrite !Nat2Z.inj_succ. fold n.
      split; [lia|]. rewrite Hout. cbn [List.length Z.of_nat Pos.of_succ_nat].
      unfold completed_bytes. revert Hlen. Z.div_mod_to_equations. lia.
Qed.

Section ImageLoading.

Context {C : Collaborators}.

(** X9: [load_image_b64] decodes leniently: two ASCII strings that differ
    only in characters outside the base64 alphabet and the padding sign
    (line breaks, blanks, punctuation) decode to the same bytes and load
    the same image, or fail with the same exception. *)
Theorem load_image_b64_skips_foreign_characters :
  forall t1 t2 : string,
    is_ascii (bytes_of_string t1) = true ->
    is_ascii (bytes_of_string t2) = true ->
    filter significant (bytes_of_string t1) =
    filter significant (bytes_of_string t2) ->
    b64decode (VStr t1) = b64decode (VStr t2) /\
    load_image_b64 (VStr t1) = load_image_b64 (VStr t2).
Proof.
  intros t1 t2 H1 H2 Hsame.
  assert (Hd : b64decode (VStr t1) = b64decode (VStr t2)).
  { cbn [b64decode]. rewrite H1, H2. unfold a2b_base64.
    rewrite <- (a2b_base64_loop_filter (bytes_of_string t1)).
    rewrite <- (a2b_base64_loop_filter (bytes_of_string t2)).
    rewrite Hsame. reflexivity. }
  split; [exact Hd|]. unfold load_image_b64. rewrite Hd. reflexivity.
Qed.


End ImageLoading.

Lemma load_image_b64_skips_foreign_characters_witness :
  load_image_b64 (C := Reference.collaborators) (VStr "iVBO Rw0K Ggo=") =
  inr Reference.png_signature.
Proof.
  destruct (load_image_b64_skips_foreign_characters
              (C := Reference.collaborators) "iVBO Rw0K Ggo=" "iVBORw0KGgo="
              eq_refl eq_refl eq_refl) as (_ & H).
  rewrite H. reflexivity.
Defined.


(** * The device map of [split_model] *)

Lemma dict_lookup_set_same (k : string) (v : value) (d : list (string * value)) :
  dict_lookup k (dict_set k v d) = Some v.
Proof.
  induction d as [|[k' v'] d IH]; cbn.
  - rewrite String.eqb_refl. reflexivity.
  - destruct (String.eqb k k') eqn:E; cbn.
    + rewrite String.eqb_refl. reflexivity.
    + rewrite E. exact IH.
Qed.

Lemma dict_lookup_set_other (k k' : string) (v : value)
    (d : list (string * value)) :
  k <> k' -> dict_lookup k (dict_set k' v d) = dict_lookup k d.
Proof.
  intros Hne. induction d as [|[k'' v''] d IH]; cbn.
  - apply String.eqb_neq in Hne. rewrite Hne. reflexivity.
  - destruct (String.eqb k' k'') eqn:E; cbn.
    + apply String.eqb_eq in E. subst k''.
      apply String.eqb_neq in Hne. rewrite Hne. reflexivity.
    + destruct (String.eqb k k''); [reflexivity|exact IH].
Qed.

Lemma string_of_Z_inj (a b : Z) : string_of_Z a = string_of_Z b -> a = b.
Proof.
  unfold string_of_Z. intros H.
  assert (Hpos : forall z, Z.to_int z <> Decimal.Pos Decimal.Nil).
  { intros z Hz. pose proof (DecimalZ.of_to z) as Hof. rewrite Hz in Hof.
    cbn in Hof. subst z. discriminate Hz. }
  assert (Hneg : forall z, Z.to_int z <> Decimal.Neg Decimal.Nil).
  { intros z Hz. pose proof (DecimalZ.of_to z) as Hof. rewrite Hz in Hof.
    cbn in Hof. subst z. discriminate Hz. }
  apply (f_equal NilZero.int_of_string) in H.
  rewrite !NilZero.isi in H by auto.
  injection H as H. apply (f_equal Z.of_int) in H.
  rewrite !DecimalZ.of_to in H. exact H.
Qed.

Lemma append_inj_l (p s1 s2 : string) : (p ++ s1 = p ++ s2)%string -> s1 = s2.
Proof.
  induction p as [|c p IH]; cbn; intros H; [exact H|].
  injection H as H. exact (IH H).
Qed.

Lemma py_range_in (lo hi k : Z) :
  In k (Vlchat.py_range lo hi) <-> lo <= k < hi.
Proof.
  unfold Vlchat.py_range. rewrite in_map_iff. split.
  - intros (x & <- & Hx). apply in_seq in Hx. lia.
  - intros H. exists (Z.to_nat (k - lo)). split; [lia|].
    apply in_seq. lia.
Qed.

Section SplitModel.

Import Vlchat DeviceMap.

Lemma layer_key_inj (a b : Z) : layer_key a = layer_key b -> a = b.
Proof.
  unfold layer_key. intros H. apply append_inj_l in H.
  exact (string_of_Z_inj _ _ H).
Qed.

Lemma layer_key_not_named (j : Z) : ~ In (layer_key j) named_modules.
Proof.
  unfold layer_key, named_modules. cbn [In append].
  intros [H | [H | [H | [H | [H | [H | [H | [H | []]]]]]]]]; congruence.
Qed.

Lemma assign_gpu_count (num_layer : nat) :
  forall dm layer_cnt i,
    snd (assign_gpu dm layer_cnt i num_layer) = layer_cnt + Z.of_nat num_layer.
Proof.
  induction num_layer as [|m IH]; intros dm c i; cbn [assign_gpu snd].
  - lia.
  - rewrite IH. lia.
Qed.

Lemma assign_gpu_other (num_layer : nat) :
  forall dm layer_cnt i k,
    (forall j, layer_cnt <= j < layer_cnt + Z.of_nat num_layer ->
               k <> layer_key j) ->
    dict_lookup k (fst (assign_gpu dm layer_cnt i num_layer)) = dict_lookup k dm.
Proof.
  induction num_layer as [|m IH]; intros dm c i k Hk; cbn [assign_gpu fst].
  - reflexivity.
  - rewrite IH by (intros j Hj; apply Hk; lia).
    apply dict_lookup_set_other. apply Hk. lia.
Qed.

Lemma assign_gpu_layer (num_layer : nat) :
  forall dm layer_cnt i j,
    layer_cnt <= j < layer_cnt + Z.of_nat num_layer ->
    dict_lookup (layer_key j) (fst (assign_gpu dm layer_cnt i num_layer)) =
    Some (VInt i).
Proof.
  induction num_layer as [|m IH]; intros dm c i j Hj; cbn [assign_gpu fst].
  - lia.
  - destruct (Z.eq_dec j c) as [->|Hne].
    + rewrite assign_gpu_other.
      * apply dict_lookup_set_same.
      * intros j Hj' Heq. apply layer_key_inj in Heq. lia.
    + apply IH. lia.
Qed.

Lemma assign_layers_count (p : Z) (m : nat) :
  0 <= p ->
  forall dm layer_cnt i,
    snd (assign_layers dm layer_cnt i (repeat p m)) =
    layer_cnt + Z.of_nat m * p.
Proof.
  intros Hp. induction m as [|m IH]; intros dm c i; cbn [repeat assign_layers].
  - cbn. lia.
  - destruct (assign_gpu dm c i (Z.to_nat p)) as [dm' c'] eqn:E.
    rewrite IH. pose proof (assign_gpu_count (Z.to_nat p) dm c i) as Hc.
    rewrite E in Hc. cbn [snd] in Hc. lia.
Qed.

Lemma assign_layers_other (p : Z) (m : nat) :
  0 <= p ->
  forall dm layer_cnt i k,
    (forall j, layer_cnt <= j < layer_cnt + Z.of_nat m * p -> k <> layer_key j) ->
    dict_lookup k (fst (assign_layers dm layer_cnt i (repeat p m))) =
    dict_lookup k dm.
Proof.
  intros Hp. induction m as [|m IH]; intros dm c i k Hk;
    cbn [repeat assign_layers].
  - reflexivity.
  - destruct (assign_gpu dm c i (Z.to_nat p)) as [dm' c'] eqn:E.
    pose proof (assign_gpu_count (Z.to_nat p) dm c i) as Hc.
    rewrite E in Hc. cbn [snd] in Hc.
    rewrite IH by (intros j Hj; apply Hk; lia).
    replace dm' with (fst (assign_gpu dm c i (Z.to_nat p))) by (rewrite E; reflexivity).
    apply assign_gpu_other. intros j Hj. apply Hk. lia.
Qed.

Lemma assign_layers_layer (p : Z) (m : nat) :
  0 < p ->
  forall dm layer_cnt i j,
    layer_cnt <= j < layer_cnt + Z.of_nat m * p ->
    dict_lookup (layer_key j) (fst (assign_layers dm layer_cnt i (repeat p m))) =
    Some (VInt (i + (j - layer_cnt) / p)).
Proof.
  intros Hp. induction m as [|m IH]; intros dm c i j Hj;
    cbn [repeat assign_layers].
  - cbn in Hj. lia.
  - destruct (assign_gpu dm c i (Z.to_nat p)) as [dm' c'] eqn:E.
    pose proof (assign_gpu_count (Z.to_nat p) dm c i) as Hc.
    rewrite E in Hc. cbn [snd] in Hc. rewrite Z2Nat.id in Hc by lia.
    destruct (Z_lt_ge_dec j c') as [Hlt|Hge].
    + rewrite assign_layers_other; [|lia|].
      * replace dm' with (fst (assign_gpu dm c i (Z.to_nat p)))
          by (rewrite E; reflexivity).
        rewrite assign_gpu_layer by lia.
        rewrite Z.div_small by lia. rewrite Z.add_0_r. reflexivity.
      * intros j' Hj' Heq. apply layer_key_inj in Heq. lia.
    + rewrite IH by lia. do 2 f_equal.
      replace (j - c) with ((j - c') + 1 * p) by lia.
      rewrite Z.div_add by lia. lia.
Qed.

Lemma set_keys_in (v : value) (keys : list string) :
  forall dm k,
    In k keys ->
    dict_lookup k (fold_left (fun dm k => dict_set k v dm) keys dm) = Some v.
Proof.
  induction keys as [|k' keys IH]; intros dm k Hin; [destruct Hin|].
  cbn [fold_left]. destruct (in_dec string_dec k keys) as [Hk|Hk].
  - apply IH, Hk.
  - destruct Hin as [->|Hin]; [|contradiction].
    revert dm Hk. clear IH. induction keys as [|k'' keys IH]; intros dm Hk.
    + apply dict_lookup_set_same.
    + cbn [fold_left]. cbn [In] in Hk.
      assert (Hne : k <> k'') by (intros ->; apply Hk; left; reflexivity).
      assert (Hk' : ~ In k keys) by (intros H; apply Hk; right; exact H).
      specialize (IH (dict_set k'' v dm)).
      revert IH. generalize (dict_set k'' v dm). intros dm0 IH0.
      clear IH0.
      assert (Hgen : forall dm1,
                 dict_lookup k (fold_left (fun dm k => dict_set k v dm) keys dm1)
                 = dict_lookup k dm1).
      { clear - Hk'. induction keys as [|k0 keys IHk]; intros dm1; [reflexivity|].
        cbn [fold_left]. rewrite IHk.
        - apply dict_lookup_set_other. intros ->. apply Hk'. left. reflexivity.
        - intros H. apply Hk'. right. exact H. }
      rewrite Hgen. rewrite dict_lookup_set_other by exact Hne.
      apply dict_lookup_set_same.
Qed.

Lemma set_keys_other (v : value) (keys : list string) :
  forall dm k,
    ~ In k keys ->
    dict_lookup k (fold_left (fun dm k => dict_set k v dm) keys dm) =
    dict_lookup k dm.
Proof.
  induction keys as [|k0 keys IH]; intros dm k Hk; [reflexivity|].
  cbn [fold_left]. rewrite IH.
  - apply dict_lookup_set_other. intros ->. apply Hk. left. reflexivity.
  - intros H. apply Hk. right. exact H.
Qed.

Lemma counts_agree_up_to_1024 :
  forallb (fun n => forallb (counts_agree n) (py_range 1 1025))
    (map snd num_layers_table) = true.
Proof. vm_compute. reflexivity. Qed.

Lemma table_lookup_in (k : string) (t : list (string * Z)) (n : Z) :
  table_lookup k t = Some n -> In n (map snd t).
Proof.
  induction t as [|[k' v] t IH]; cbn; [discriminate|].
  destruct (String.eqb k k'); intros H.
  - injection H as ->. left. reflexivity.
  - right. exact (IH H).
Qed.

Lemma layer_counts_exact (model : string) (num_layers gpu_num : Z) :
  table_lookup model num_layers_table = Some num_layers ->
  1 <= gpu_num <= 1024 ->
  layer_counts num_layers gpu_num =
  inr (layers_on_first_gpu num_layers gpu_num
       :: repeat (layers_on_gpu num_layers gpu_num) (Z.to_nat (gpu_num - 1))).
Proof.
  intros Hn Hw. apply table_lookup_in in Hn.
  pose proof counts_agree_up_to_1024 as H.
  rewrite forallb_forall in H. specialize (H _ Hn).
  rewrite forallb_forall in H.
  specialize (H gpu_num (proj2 (py_range_in 1 1025 gpu_num) ltac:(lia))).
  unfold counts_agree in H. unfold layer_counts.
  destruct (layers_per_gpu num_layers gpu_num) as [e|p]; [discriminate|].
  apply andb_prop in H as [Hp Hh]. apply Z.eqb_eq in Hp. subst p.
  cbn [bind].
  replace (Z.to_nat gpu_num) with (S (Z.to_nat (gpu_num - 1))) by lia.
  cbn [repeat].
  destruct (half_of (layers_on_gpu num_layers gpu_num)) as [e|h];
    [discriminate|].
  apply Z.eqb_eq in Hh. subst h. reflexivity.
Qed.

Lemma table_layers_positive (model : string) (num_layers : Z) :
  table_lookup model num_layers_table = Some num_layers -> 24 <= num_layers <= 80.
Proof.
  intros H. apply table_lookup_in in H. cbn in H.
  repeat (destruct H as [<-|H]; [lia|]). destruct H.
Qed.

Lemma layers_on_gpu_bounds (n w : Z) :
  1 <= n -> 1 <= w ->
  1 <= layers_on_gpu n w /\
  2 * n <= layers_on_gpu n w * (2 * w - 1) /\
  layers_on_gpu n w <= 2 * layers_on_first_gpu n w /\
  1 <= layers_on_first_gpu n w /\
  n <= layers_assigned n w.
Proof.
  intros Hn Hw. unfold layers_assigned, layers_on_first_gpu.
  set (p := layers_on_gpu n w).
  assert (Hp : 2 * n <= p * (2 * w - 1) /\ 1 <= p).
  { subst p. unfold layers_on_gpu.
    pose proof (Z.div_mod (2 * n + 2 * w - 2) (2 * w - 1) ltac:(lia)) as Hd.
    pose proof (Z.mod_pos_bound (2 * n + 2 * w - 2) (2 * w - 1) ltac:(lia)) as Hm.
    split; [nia|].
    apply Z.div_le_lower_bound; lia. }
  destruct Hp as [Hp1 Hp2].
  pose proof (Z.div_mod (p + 1) 2 ltac:(lia)) as Hd.
  pose proof (Z.mod_pos_bound (p + 1) 2 ltac:(lia)) as Hm.
  repeat split; try lia; nia.
Qed.

Lemma loops_lookup (h p : Z) (m : nat) (j : Z) :
  0 <= h -> 0 < p -> 0 <= j ->
  dict_lookup (layer_key j) (fst (assign_layers [] 0 0 (h :: repeat p m))) =
  if j <? h + Z.of_nat m * p
  then Some (VInt (if j <? h then 0 else 1 + (j - h) / p))
  else None.
Proof.
  intros Hh Hp Hj. cbn [assign_layers].
  destruct (assign_gpu [] 0 0 (Z.to_nat h)) as [dm' c'] eqn:E.
  pose proof (assign_gpu_count (Z.to_nat h) [] 0 0) as Hc.
  rewrite E in Hc. cbn [snd] in Hc. rewrite Z2Nat.id in Hc by lia.
  assert (Hdm : dm' = fst (assign_gpu [] 0 0 (Z.to_nat h)))
    by (rewrite E; reflexivity).
  cbn [Z.add] in Hc. subst c'.
  destruct (Z.ltb_spec j h) as [Hjh|Hjh].
  - replace (j <? h + Z.of_nat m * p) with true
      by (symmetry; apply Z.ltb_lt; nia).
    rewrite assign_layers_other; [|lia|].
    + rewrite Hdm. apply assign_gpu_layer. lia.
    + intros j' Hj' Heq. apply layer_key_inj in Heq. lia.
  - destruct (Z.ltb_spec j (h + Z.of_nat m * p)) as [Hjt|Hjt].
    + rewrite assign_layers_layer by lia. reflexivity.
    + rewrite assign_layers_other; [|lia|].
      * rewrite Hdm. rewrite assign_gpu_other; [reflexivity|].
        intros j' Hj' Heq. apply layer_key_inj in Heq. lia.
      * intros j' Hj' Heq. apply layer_key_inj in Heq. lia.
Qed.

Lemma main_gpu_keys_split (num_layers : Z) :
  main_gpu_keys num_layers =
  (named_modules ++ [layer_key (num_layers - 1)])%list.
Proof. reflexivity. Qed.

Lemma device_in_range (n w j : Z) :
  1 <= n -> 1 <= w ->
  0 <= j < layers_assigned n w ->
  0 <= device_of_layer n w j < w.
Proof.
  intros Hn Hw Hj.
  destruct (layers_on_gpu_bounds n w Hn Hw) as (Hp & _ & _ & Hh & _).
  unfold device_of_layer, layers_assigned in *.
  set (p := layers_on_gpu n w) in *.
  set (h := layers_on_first_gpu n w) in *.
  destruct (Z.ltb_spec j h) as [Hjh|Hjh]; [lia|].
  assert (0 <= (j - h) / p) by (apply Z.div_pos; lia).
  assert ((j - h) / p < w - 1) by (apply Z.div_lt_upper_bound; nia).
  lia.
Qed.

(** X11: for a model of the table and 1 to 1024 GPUs [split_model] returns
    a device map in which the eight named modules and the last layer are on
    [main_gpu], and every other layer [j] is on the GPU the loops gave it:
    GPU 0 for the first [layers_on_first_gpu] layers (half a share, since
    it also holds the vision model), then [layers_on_gpu] layers for each
    following GPU.  The shares cover every layer of the model, so each
    layer has a device, and that device is one of the [gpu_num] GPUs; the
    map may name layers beyond the last one. *)
Theorem split_model_assigns_every_layer :
  forall (model_name : string) (num_layers gpu_num main_gpu : Z),
    table_lookup model_name num_layers_table = Some num_layers ->
    1 <= gpu_num <= 1024 ->
    exists device_map : list (string * value),
      split_model model_name gpu_num main_gpu = inr device_map /\
      (forall k, In k named_modules ->
                 dict_lookup k device_map = Some (VInt main_gpu)) /\
      dict_lookup (layer_key (num_layers - 1)) device_map =
        Some (VInt main_gpu) /\
      (forall j, 0 <= j -> j <> num_layers - 1 ->
         dict_lookup (layer_key j) device_map =
         if j <? layers_assigned num_layers gpu_num
         then Some (VInt (device_of_layer num_layers gpu_num j))
         else None) /\
      num_layers <= layers_assigned num_layers gpu_num /\
      (forall j, 0 <= j < layers_assigned num_layers gpu_num ->
         0 <= device_of_layer num_layers gpu_num j < gpu_num).
Proof.
  intros model_name n w main_gpu Hn Hw.
  pose proof (table_layers_positive _ _ Hn) as Hn'.
  destruct (layers_on_gpu_bounds n w ltac:(lia) ltac:(lia))
    as (Hp & Hpn & Hhalf & Hfirst & Htotal).
  unfold split_model. rewrite Hn, (layer_counts_exact _ _ _ Hn Hw).
  cbn [bind]. eexists. split; [reflexivity|].
  rewrite main_gpu_keys_split.
  split; [|split; [|split; [|split]]].
  - intros k Hk. apply set_keys_in. apply in_or_app. left. exact Hk.
  - apply set_keys_in. apply in_or_app. right. left. reflexivity.
  - intros j Hj Hne.
    rewrite set_keys_other.
    2:{ intros Hin. apply in_app_or in Hin as [Hin|[Hin|[]]].
        - exact (layer_key_not_named j Hin).
        - apply layer_key_inj in Hin. lia. }
    rewrite loops_lookup by lia.
    unfold layers_assigned, device_of_layer.
    rewrite Z2Nat.id by lia. reflexivity.
  - exact Htotal.
  - intros j Hj. apply device_in_range; lia.
Qed.

(** X12: with no GPU to share the layers among (a [gpu_num] from -1024 to
    0) [split_model] raises [IndexError]: the list of shares is empty when
    its first element is halved. *)
Theorem split_model_without_gpus :
  forall (model_name : string) (num_layers gpu_num main_gpu : Z),
    table_lookup model_name num_layers_table = Some num_layers ->
    -1024 <= gpu_num <= 0 ->
    split_model model_name gpu_num main_gpu =
    inl (Raise Py.IndexError "list index out of range").
Proof.
  intros model_name n w main_gpu Hn Hw.
  assert (Hall : forallb (fun n => forallb (fun w =>
              match layers_per_gpu n w with inr _ => true | inl _ => false end)
              (py_range (-1024) 1)) (map snd num_layers_table) = true)
    by (vm_compute; reflexivity).
  rewrite forallb_forall in Hall.
  specialize (Hall _ (table_lookup_in _ _ _ Hn)).
  rewrite forallb_forall in Hall.
  specialize (Hall w (proj2 (py_range_in (-1024) 1 w) ltac:(lia))).
  unfold split_model, layer_counts. rewrite Hn.
  destruct (layers_per_gpu n w) as [e|p]; [discriminate|].
  cbn [bind]. replace (Z.to_nat w) with O by lia. reflexivity.
Qed.

(** X13: [VLChat.__init__] asks for a device map only when [gpu_num]
    exceeds 1, so the [IndexError] of [split_model] is out of reach, and
    the model name it passes is in the table: for every [gpu_num] up to
    1024 it gets no map (one GPU or less) or a map that gives each of the
    24 layers of InternVL2_5-1B one of the GPUs, or [main_gpu]. *)
Theorem VLChat_device_map_never_raises :
  forall gpu_num main_gpu : Z,
    gpu_num <= 1024 ->
    VLChat_device_map gpu_num main_gpu = None /\ gpu_num <= 1 \/
    exists device_map,
      VLChat_device_map gpu_num main_gpu = Some (inr device_map) /\
      1 < gpu_num /\
      forall j, 0 <= j < 24 ->
        exists d, dict_lookup (layer_key j) device_map = Some (VInt d) /\
                  (0 <= d < gpu_num \/ d = main_gpu).
Proof.
  intros w main_gpu Hw. unfold VLChat_device_map.
  destruct (Z.ltb_spec 1 w) as [H1|H1]; [right|left; split; [reflexivity|lia]].
  assert (Hn : table_lookup "InternVL2_5-1B" num_layers_table = Some 24)
    by reflexivity.
  destruct (layers_on_gpu_bounds 24 w ltac:(lia) ltac:(lia))
    as (Hp & _ & _ & Hfirst & Htotal).
  unfold split_model. rewrite Hn, (layer_counts_exact _ _ w Hn ltac:(lia)).
  cbn [bind]. eexists. split; [reflexivity|]. split; [exact H1|].
  intros j Hj.
  assert (Hkeys : main_gpu_keys 24 = (named_modules ++ [layer_key (24 - 1)])%list)
    by reflexivity.
  rewrite Hkeys.
  destruct (Z.eq_dec j 23) as [->|Hne].
  - exists main_gpu. split; [|right; reflexivity].
    apply set_keys_in. apply in_or_app. right. left. reflexivity.
  - exists (device_of_layer 24 w j). split.
    + rewrite set_keys_other.
      2:{ intros Hin. apply in_app_or in Hin as [Hin|[Hin|[]]].
          - exact (layer_key_not_named j Hin).
          - apply layer_key_inj in Hin. lia. }
      rewrite loops_lookup by lia.
      rewrite Z2Nat.id by lia. fold (layers_assigned 24 w).
      replace (j <? layers_assigned 24 w) with true
        by (symmetry; apply Z.ltb_lt; lia).
      reflexivity.
    + left. apply device_in_range; lia.
Qed.

End SplitModel.

Lemma split_model_assigns_every_layer_witness :
  exists device_map : list (string * value),
    Vlchat.split_model "InternVL2_5-1B" 3 1 = inr device_map /\
    dict_lookup (Vlchat.layer_key 4) device_map = Some (VInt 0) /\
    dict_lookup (Vlchat.layer_key 5) device_map = Some (VInt 1) /\
    dict_lookup (Vlchat.layer_key 22) device_map = Some (VInt 2) /\
    dict_lookup (Vlchat.layer_key 23) device_map = Some (VInt 1).
Proof.
  destruct (split_model_assigns_every_layer "InternVL2_5-1B" 24 3 1 eq_refl)
    as (device_map & Hmap & _ & Hlast & Hlayer & _).
  - lia.
  - exists device_map. split; [exact Hmap|].
    rewrite (Hlayer 4), (Hlayer 5), (Hlayer 22) by lia.
    repeat split. exact Hlast.
Defined.

Lemma split_model_without_gpus_witness :
  Vlchat.split_model "InternVL2_5-1B" 0 0 =
  inl (Raise Py.IndexError "list index out of range").
Proof.
  apply (split_model_without_gpus "InternVL2_5-1B" 24 0 0 eq_refl). lia.
Defined.

Lemma VLChat_device_map_never_raises_witness :
  exists device_map : list (string * value),
    Vlchat.VLChat_device_map 2 0 = Some (inr device_map).
Proof.
  destruct (VLChat_device_map_never_raises 2 0) as [[_ H]|(dm & H & _)].
  - lia.
  - lia.
  - exists dm. exact H.
Defined.

(** * The order of floats *)

Ltac order_cases :=
  repeat match goal with
  | H : context [Z.compare ?a ?b] |- _ => destruct (Z.compare_spec a b); try subst
  | |- context [Z.compare ?a ?b] => destruct (Z.compare_spec a b); try subst
  | H : context [Pos.compare_cont Eq ?a ?b] |- _ =>
      change (Pos.compare_cont Eq a b) with (Pos.compare a b) in H;
      destruct (Pos.compare_spec a b); try subst
  | |- context [Pos.compare_cont Eq ?a ?b] =>
      change (Pos.compare_cont Eq a b) with (Pos.compare a b);
      destruct (Pos.compare_spec a b); try subst
  end.

Ltac float_cases :=
  cbn; try discriminate; try reflexivity;
  repeat match goal with s : bool |- _ => destruct s end;
  cbn; try discriminate; try reflexivity;
  order_cases; cbn; intros; try discriminate; try reflexivity; try lia.

Lemma SFltb_trans (x y z : spec_float) :
  SFltb x y = true -> SFltb y z = true -> SFltb x z = true.
Proof.
  unfold SFltb.
  destruct x as [sx|sx| |sx mx ex], y as [sy|sy| |sy my ey],
           z as [sz|sz| |sz mz ez]; float_cases.
Qed.

Lemma SFltb_irrefl (x : spec_float) : SFltb x x = false.
Proof.
  unfold SFltb. destruct x as [s|s| |s m e]; cbn; try reflexivity;
    try (destruct s; reflexivity).
  destruct s; rewrite Z.compare_refl;
    change (Pos.compare_cont Eq m m) with (Pos.compare m m);
    rewrite Pos.compare_refl; reflexivity.
Qed.

Lemma SFeqb_ltb (x y z : spec_float) :
  SFeqb x y = true -> SFltb z x = SFltb z y.
Proof.
  unfold SFeqb, SFltb.
  destruct x as [sx|sx| |sx mx ex], y as [sy|sy| |sy my ey],
           z as [sz|sz| |sz mz ez]; float_cases.
Qed.

Lemma SFltb_eqb_refl (x y : spec_float) :
  SFltb x y = true -> SFeqb x x = true.
Proof.
  unfold SFltb, SFeqb.
  destruct x as [sx|sx| |sx mx ex], y as [sy|sy| |sy my ey]; float_cases;
    rewrite ?Z.compare_refl;
    change (Pos.compare_cont Eq mx mx) with (Pos.compare mx mx);
    rewrite ?Pos.compare_refl; reflexivity.
Qed.

Lemma SFltb_not_below_infinity (x y : spec_float) :
  SFltb x (S754_infinity false) = false -> SFltb x y = false.
Proof.
  unfold SFltb.
  destruct x as [sx|sx| |sx mx ex], y as [sy|sy| |sy my ey]; float_cases.
Qed.

Lemma ltb_trans (x y z : float) :
  PrimFloat.ltb x y = true -> PrimFloat.ltb y z = true ->
  PrimFloat.ltb x z = true.
Proof. rewrite !ltb_spec. apply SFltb_trans. Qed.

Lemma ltb_irrefl (x : float) : PrimFloat.ltb x x = false.
Proof. rewrite ltb_spec. apply SFltb_irrefl. Qed.

Lemma eqb_ltb (x y z : float) :
  PrimFloat.eqb x y = true -> PrimFloat.ltb z x = PrimFloat.ltb z y.
Proof. rewrite eqb_spec, !ltb_spec. apply SFeqb_ltb. Qed.

Lemma ltb_eqb_refl (x y : float) :
  PrimFloat.ltb x y = true -> PrimFloat.eqb x x = true.
Proof. rewrite eqb_spec, ltb_spec. apply SFltb_eqb_refl. Qed.

Lemma ltb_not_below_infinity (x y : float) :
  PrimFloat.ltb x PrimFloat.infinity = false -> PrimFloat.ltb x y = false.
Proof. rewrite !ltb_spec. apply SFltb_not_below_infinity. Qed.

(** [x] is not below [y], and [z] is [y] or below it: [x] is not below [z]. *)
Lemma ltb_false_down (x y z : float) :
  PrimFloat.ltb x y = false ->
  z = y \/ PrimFloat.ltb z y = true ->
  PrimFloat.ltb x z = false.
Proof.
  intros Hxy [->|Hzy]; [exact Hxy|].
  destruct (PrimFloat.ltb x z) eqn:Hxz; [|reflexivity].
  rewrite (ltb_trans _ _ _ Hxz Hzy) in Hxy. discriminate.
Qed.

(** * The tiles of [dynamic_preprocess] *)

Section TileProperties.

Import Vlchat Tiles.

Lemma ratio_candidates_in :
  forall min_num max_num i j : Z,
    In (i, j) (ratio_candidates min_num max_num) <->
    1 <= i /\ 1 <= j /\ min_num <= i * j <= max_num.
Proof.
  intros min_num max_num i j. unfold ratio_candidates.
  rewrite in_flat_map. split.
  - intros (n & Hn & H). apply in_flat_map in H as (i' & Hi & H).
    apply in_flat_map in H as (j' & Hj & H).
    apply py_range_in in Hn, Hi, Hj.
    destruct ((i' * j' <=? max_num) && (i' * j' >=? min_num)) eqn:E;
      [|destruct H].
    destruct H as [H|[]]. injection H as -> ->.
    apply andb_prop in E as [E1 E2]. lia.
  - intros (Hi & Hj & Hmin & Hmax).
    exists max_num. split; [apply py_range_in; lia|].
    apply in_flat_map. exists i. split; [apply py_range_in; nia|].
    apply in_flat_map. exists j. split; [apply py_range_in; nia|].
    replace ((i * j <=? max_num) && (i * j >=? min_num)) with true
      by (symmetry; apply andb_true_intro; lia).
    left. reflexivity.
Qed.

Lemma insert_by_area_in (r x : ratio) (l : list ratio) :
  In x (insert_by_area r l) <-> x = r \/ In x l.
Proof.
  induction l as [|r' l IH]; cbn [insert_by_area].
  - cbn. intuition.
  - destruct (fst r' * snd r' <=? fst r * snd r); cbn [In];
      [rewrite IH|]; intuition.
Qed.

Lemma sorted_by_area_in (x : ratio) (l : list ratio) :
  In x (sorted_by_area l) <-> In x l.
Proof.
  unfold sorted_by_area.
  assert (H : forall acc, In x (fold_left (fun acc r => insert_by_area r acc) l acc)
                          <-> In x acc \/ In x l).
  { induction l as [|r l IH]; intros acc; cbn [fold_left].
    - cbn. intuition.
    - rewrite IH, insert_by_area_in. cbn [In]. intuition. }
  rewrite H. cbn. intuition.
Qed.

(** ** find_closest_aspect_ratio *)

Lemma closest_loop_spec (aspect_ratio : float) (area image_size : Z)
    (targets : list ratio) :
  forall (best_ratio_diff : float) (best_ratio : ratio) (d : float) (r : ratio),
    closest_loop aspect_ratio targets area image_size best_ratio_diff
      best_ratio = inr (d, r) ->
    (r = best_ratio /\ d = best_ratio_diff \/
     In r targets /\
     exists d0, ratio_diff aspect_ratio r = inr d0 /\
                PrimFloat.eqb d0 d = true) /\
    (d = best_ratio_diff \/ PrimFloat.ltb d best_ratio_diff = true) /\
    (forall r', In r' targets ->
       exists d', ratio_diff aspect_ratio r' = inr d' /\
                  PrimFloat.ltb d' d = false).
Proof.
  induction targets as [|t targets IH]; intros bd br d r H.
  - cbn in H. injection H as <- <-.
    split; [left; split; reflexivity|]. split; [left; reflexivity|].
    intros r' [].
  - cbn [closest_loop] in H.
    destruct (ratio_diff aspect_ratio t) as [e|dt] eqn:Hdt; [discriminate|].
    cbn [bind] in H.
    destruct (PrimFloat.ltb dt bd) eqn:Hlt.
    + destruct (IH _ _ _ _ H) as (Ha & Hc & Hb).
      split; [|split].
      * right. destruct Ha as [[-> ->]|[Hin Hd]].
        -- split; [left; reflexivity|]. exists dt. split; [exact Hdt|].
           exact (ltb_eqb_refl _ _ Hlt).
        -- split; [right; exact Hin|exact Hd].
      * right. destruct Hc as [->|Hc]; [exact Hlt|].
        exact (ltb_trans _ _ _ Hc Hlt).
      * intros r' [<-|Hin]; [|exact (Hb r' Hin)].
        exists dt. split; [exact Hdt|].
        apply (ltb_false_down dt dt d (ltb_irrefl dt) Hc).
    + assert (Hrest : forall br',
                closest_loop aspect_ratio targets area image_size bd br'
                  = inr (d, r) ->
                (r = br' /\ d = bd \/
                 In r (t :: targets) /\
                 exists d0, ratio_diff aspect_ratio r = inr d0 /\
                            PrimFloat.eqb d0 d = true) /\
                (d = bd \/ PrimFloat.ltb d bd = true) /\
                (forall r', In r' (t :: targets) ->
                   exists d', ratio_diff aspect_ratio r' = inr d' /\
                              PrimFloat.ltb d' d = false)).
      { intros br' H'. destruct (IH _ _ _ _ H') as (Ha & Hc & Hb).
        split; [|split].
        - destruct Ha as [Ha|[Hin Hd]]; [left; exact Ha|].
          right. split; [right; exact Hin|exact Hd].
        - exact Hc.
        - intros r' [<-|Hin]; [|exact (Hb r' Hin)].
          exists dt. split; [exact Hdt|].
          exact (ltb_false_down dt bd d Hlt Hc). }
      destruct (PrimFloat.eqb dt bd) eqn:Heq; [|exact (Hrest _ H)].
      destruct (area_exceeds area image_size t) as [e|larger];
        [discriminate|].
      cbn [bind] in H. destruct larger; [|exact (Hrest _ H)].
      destruct (Hrest _ H) as (Ha & Hc & Hb).
      split; [|split; [exact Hc|exact Hb]].
      right. destruct Ha as [[-> ->]|Ha]; [|exact Ha].
      split; [left; reflexivity|]. exists dt. split; [exact Hdt|exact Heq].
Qed.

Lemma closest_loop_returns (aspect_ratio : float) (area image_size : Z)
    (targets : list ratio) :
  (forall r, In r targets ->
     exists d b, ratio_diff aspect_ratio r = inr d /\
                 area_exceeds area image_size r = inr b) ->
  forall best_ratio_diff best_ratio,
    exists found,
      closest_loop aspect_ratio targets area image_size best_ratio_diff
        best_ratio = inr found.
Proof.
  induction targets as [|t targets IH]; intros Hok bd br.
  - eexists. reflexivity.
  - cbn [closest_loop].
    destruct (Hok t (or_introl eq_refl)) as (d & b & -> & ->). cbn [bind].
    assert (Hok' : forall r, In r targets ->
              exists d b, ratio_diff aspect_ratio r = inr d /\
                          area_exceeds area image_size r = inr b)
      by (intros r Hr; apply Hok; right; exact Hr).
    destruct (PrimFloat.ltb d bd); [apply IH, Hok'|].
    destruct (PrimFloat.eqb d bd); [|apply IH, Hok'].
    destruct b; apply IH, Hok'.
Qed.

(** X15: when the quotient of each target ratio and the area threshold can
    be computed, [find_closest_aspect_ratio] returns a ratio; it is one of
    the target ratios, or (1, 1) when none of them is better than the
    initial infinity; and no target ratio is strictly closer to the
    aspect ratio than the one returned. *)
Theorem find_closest_aspect_ratio_is_closest :
  forall (aspect_ratio : float) (target_ratios : list ratio)
         (width height image_size : Z),
    (forall r, In r target_ratios ->
       exists d b, ratio_diff aspect_ratio r = inr d /\
                   area_exceeds (width * height) image_size r = inr b) ->
    exists best_ratio : ratio,
      find_closest_aspect_ratio aspect_ratio target_ratios width height
        image_size = inr best_ratio /\
      (best_ratio = (1, 1) \/ In best_ratio target_ratios) /\
      forall r d_best d,
        In r target_ratios ->
        ratio_diff aspect_ratio best_ratio = inr d_best ->
        ratio_diff aspect_ratio r = inr d ->
        PrimFloat.ltb d d_best = false.
Proof.
  intros ar targets w h s Hok. unfold find_closest_aspect_ratio.
  destruct (closest_loop_returns ar (w * h) s targets Hok PrimFloat.infinity
              (1, 1)) as ([d r] & Hfound).
  rewrite Hfound. cbn [bind snd]. exists r. split; [reflexivity|].
  destruct (closest_loop_spec _ _ _ _ _ _ _ _ Hfound) as (Ha & _ & Hb).
  split.
  - destruct Ha as [[-> _]|[Hin _]]; [left; reflexivity|right; exact Hin].
  - intros r' d_best d' Hin Hbest Hd'.
    destruct (Hb r' Hin) as (d'' & Hd'' & Hnot).
    rewrite Hd' in Hd''. injection Hd'' as <-.
    destruct Ha as [[_ ->]|[_ (d0 & Hd0 & Heq)]].
    + exact (ltb_not_below_infinity _ _ Hnot).
    + rewrite Hbest in Hd0. injection Hd0 as <-.
      rewrite (eqb_ltb _ _ d' Heq). exact Hnot.
Qed.

(** ** The boxes *)

Lemma tile_box_columns (i a s : Z) :
  s <> 0 -> a <> 0 ->
  tile_box i (s * a) s =
  inr (i mod a * s, i / a * s, (i mod a + 1) * s, (i / a + 1) * s).
Proof.
  intros Hs Ha. unfold tile_box, floordiv, modulo.
  replace (s =? 0) with false by (symmetry; apply Z.eqb_neq; exact Hs).
  cbn [bind]. replace (s * a / s) with a by (rewrite Z.mul_comm, Z.div_mul; lia).
  replace (a =? 0) with false by (symmetry; apply Z.eqb_neq; exact Ha).
  reflexivity.
Qed.

(** X16: the crop boxes tile the resized image: for [a] columns and [b]
    rows of squares of side [image_size], every pixel of the resized
    image lies in the box of exactly one of the [a * b] tiles. *)
Theorem tiles_partition_the_resized_image :
  forall a b s x y : Z,
    0 < s -> 0 < a ->
    0 <= x < s * a -> 0 <= y < s * b ->
    exists i box,
      In i (py_range 0 (a * b)) /\
      tile_box i (s * a) s = inr box /\
      box_contains x y box /\
      forall i' box',
        In i' (py_range 0 (a * b)) ->
        tile_box i' (s * a) s = inr box' ->
        box_contains x y box' -> i' = i.
Proof.
  intros a b s x y Hs Ha Hx Hy.
  assert (Hxs : 0 <= x / s < a).
  { split; [apply Z.div_pos; lia|apply Z.div_lt_upper_bound; lia]. }
  assert (Hys : 0 <= y / s < b).
  { split; [apply Z.div_pos; lia|apply Z.div_lt_upper_bound; nia]. }
  pose proof (Z.div_mod x s ltac:(lia)) as Hdx.
  pose proof (Z.mod_pos_bound x s Hs) as Hmx.
  pose proof (Z.div_mod y s ltac:(lia)) as Hdy.
  pose proof (Z.mod_pos_bound y s Hs) as Hmy.
  set (i := y / s * a + x / s).
  assert (Hmod : i mod a = x / s).
  { subst i. rewrite Z.add_comm, Z_mod_plus_full. apply Z.mod_small. lia. }
  assert (Hdiv : i / a = y / s).
  { subst i. rewrite Z.add_comm, Z.div_add by lia.
    rewrite (Z.div_small (x / s) a) by lia. lia. }
  exists i. eexists. split; [|split; [apply tile_box_columns; lia|split]].
  - apply py_range_in. subst i. nia.
  - unfold box_contains. rewrite Hmod, Hdiv. nia.
  - intros i' box' Hi' Hbox' Hin.
    rewrite tile_box_columns in Hbox' by lia. injection Hbox' as <-.
    unfold box_contains in Hin. destruct Hin as [Hix Hiy].
    pose proof (Z.div_mod i' a ltac:(lia)) as Hdi.
    pose proof (Z.mod_pos_bound i' a Ha) as Hmi.
    assert (i' mod a = x / s) by nia.
    assert (i' / a = y / s) by nia.
    subst i. nia.
Qed.

Lemma crop_tiles_columns (resized_img : picture) (a s : Z) (tiles : list Z) :
  s <> 0 -> a <> 0 ->
  forall processed_images,
    crop_tiles resized_img (s * a) s tiles processed_images =
    inr (processed_images ++ map (tile resized_img a s) tiles)%list.
Proof.
  intros Hs Ha. induction tiles as [|i tiles IH]; intros acc;
    cbn [crop_tiles map].
  - rewrite app_nil_r. reflexivity.
  - rewrite tile_box_columns by assumption. cbn [bind].
    rewrite IH, <- app_assoc. reflexivity.
Qed.

Lemma py_range_length (lo hi : Z) :
  lo <= hi -> Z.of_nat (List.length (py_range lo hi)) = hi - lo.
Proof.
  intros H. unfold py_range. rewrite length_map, length_seq. lia.
Qed.

Lemma ratios_compute_up_to_1024 :
  forallb (fun i =>
    forallb (fun j => ratio_computes (i, j)) (py_range 1 (1024 / i + 1)))
    (py_range 1 1025) = true.
Proof. vm_compute. reflexivity. Qed.

Lemma ratio_computes_small (i j : Z) :
  1 <= i -> 1 <= j -> i * j <= 1024 -> ratio_computes (i, j) = true.
Proof.
  intros Hi Hj Hij. pose proof ratios_compute_up_to_1024 as H.
  rewrite forallb_forall in H.
  specialize (H i (proj2 (py_range_in 1 1025 i) ltac:(nia))).
  rewrite forallb_forall in H. apply H. apply py_range_in.
  assert (j <= 1024 / i) by (apply Z.div_le_lower_bound; lia). lia.
Qed.

Lemma insert_by_area_sorted (r : ratio) (l : list ratio) :
  Sorted area_le l -> Sorted area_le (insert_by_area r l).
Proof.
  induction 1 as [|r' l Hl IH Hhd]; cbn [insert_by_area].
  - repeat constructor.
  - destruct (Z.leb_spec (fst r' * snd r') (fst r * snd r)) as [Hle|Hgt].
    + constructor; [exact IH|].
      destruct l as [|r'' l]; cbn [insert_by_area].
      * constructor. exact Hle.
      * inversion Hhd; subst.
        destruct (fst r'' * snd r'' <=? fst r * snd r); constructor;
          assumption.
    + constructor; [constructor; assumption|].
      constructor. unfold area_le. lia.
Qed.

Lemma sorted_by_area_sorted (l : list ratio) : Sorted area_le (sorted_by_area l).
Proof.
  unfold sorted_by_area.
  assert (H : forall acc, Sorted area_le acc ->
            Sorted area_le (fold_left (fun acc r => insert_by_area r acc) l acc)).
  { induction l as [|r l IH]; intros acc Hacc; cbn [fold_left];
      [exact Hacc|]. apply IH, insert_by_area_sorted, Hacc. }
  apply H. constructor.
Qed.

Lemma ratio_ok (aspect_ratio fs : float) (area image_size : Z) (r : ratio) :
  ratio_computes r = true ->
  Py.float_of_int image_size = inr fs ->
  exists d b, ratio_diff aspect_ratio r = inr d /\
              area_exceeds area image_size r = inr b.
Proof.
  unfold ratio_computes, ratio_diff, area_exceeds, float_mul_int.
  intros Hr ->.
  destruct (Py.int_truediv (fst r) (snd r)) as [e|q]; [discriminate|].
  destruct (Py.float_of_int (fst r)) as [e|f1]; [discriminate|].
  destruct (Py.float_of_int (snd r)) as [e|f2]; [discriminate|].
  cbn [bind]. eexists. eexists. split; reflexivity.
Qed.

Lemma find_closest_member (aspect_ratio : float) (targets : list ratio)
    (width height image_size : Z) :
  (forall r, In r targets ->
     exists d b, ratio_diff aspect_ratio r = inr d /\
                 area_exceeds (width * height) image_size r = inr b) ->
  exists r,
    find_closest_aspect_ratio aspect_ratio targets width height image_size
      = inr r /\
    (r = (1, 1) \/ In r targets).
Proof.
  intros Hok. unfold find_closest_aspect_ratio.
  destruct (closest_loop_returns aspect_ratio (width * height) image_size
              targets Hok PrimFloat.infinity (1, 1)) as ([d r] & Hfound).
  rewrite Hfound. cbn [bind snd]. exists r. split; [reflexivity|].
  destruct (closest_loop_spec _ _ _ _ _ _ _ _ Hfound) as (Ha & _).
  destruct Ha as [[-> _]|[Hin _]]; [left; reflexivity|right; exact Hin].
Qed.

Section Preprocess.

Variable set_order : list ratio -> list ratio.
Hypothesis set_order_in : forall l r, In r (set_order l) -> In r l.

Lemma target_ratios_in (min_num max_num : Z) (r : ratio) :
  In r (target_ratios set_order min_num max_num) ->
  1 <= fst r /\ 1 <= snd r /\ min_num <= fst r * snd r <= max_num.
Proof.
  unfold target_ratios. rewrite sorted_by_area_in. intros H.
  apply set_order_in in H. destruct r as [i j].
  apply ratio_candidates_in in H. exact H.
Qed.

(** X14: the [target_ratios] of [dynamic_preprocess] are the pairs of
    positive integers whose product lies between [min_num] and [max_num],
    by increasing product, in whatever order the set is iterated: the
    outer loop over [n] adds nothing. *)
Theorem target_ratios_are_the_factor_pairs_by_area :
  forall min_num max_num : Z,
    (forall l r, In r l -> In r (set_order l)) ->
    (forall i j : Z,
       In (i, j) (target_ratios set_order min_num max_num) <->
       1 <= i /\ 1 <= j /\ min_num <= i * j <= max_num) /\
    Sorted area_le (target_ratios set_order min_num max_num).
Proof.
  intros min_num max_num set_order_all. split.
  - intros i j. split.
    + exact (target_ratios_in min_num max_num (i, j)).
    + intros H. unfold target_ratios. apply sorted_by_area_in, set_order_all.
      apply ratio_candidates_in. exact H.
  - apply sorted_by_area_sorted.
Qed.

Lemma dynamic_preprocess_tiles (image : picture)
    (w h min_num max_num s : Z) (use_thumbnail : bool) (ar fs : float) :
  size image = (w, h) ->
  Py.int_truediv w h = inr ar ->
  max_num <= 1024 ->
  s <> 0 ->
  Py.float_of_int s = inr fs ->
  exists a b : Z,
    1 <= a /\ 1 <= b /\
    (a = 1 /\ b = 1 \/ min_num <= a * b <= max_num) /\
    dynamic_preprocess set_order image min_num max_num s use_thumbnail =
    inr (map (tile (Resized image (s * a) (s * b)) a s) (py_range 0 (a * b))
         ++ (if use_thumbnail && negb (a * b =? 1)
             then [Resized image s s] else []))%list.
Proof.
  intros Hsize Har Hmax Hs Hfs. unfold dynamic_preprocess.
  rewrite Hsize, Har. cbn [bind].
  destruct (find_closest_member ar (target_ratios set_order min_num max_num)
              w h s) as ([a b] & -> & Hr).
  { intros r Hr. apply target_ratios_in in Hr. destruct r as [i j].
    cbn [fst snd] in Hr. apply (ratio_ok ar fs); [|exact Hfs].
    apply ratio_computes_small; lia. }
  assert (Hab : 1 <= a /\ 1 <= b /\
                (a = 1 /\ b = 1 \/ min_num <= a * b <= max_num)).
  { destruct Hr as [Hr|Hr].
    - injection Hr as -> ->. lia.
    - apply target_ratios_in in Hr. cbn [fst snd] in Hr. lia. }
  destruct Hab as (Ha & Hb & Hab).
  exists a, b. split; [exact Ha|]. split; [exact Hb|]. split; [exact Hab|].
  cbn [bind fst snd].
  rewrite crop_tiles_columns by lia. cbn [bind app].
  rewrite length_map, py_range_length by nia.
  rewrite Z.sub_0_r, Z.eqb_refl. cbn [negb].
  destruct (use_thumbnail && negb (a * b =? 1)).
  - reflexivity.
  - rewrite app_nil_r. reflexivity.
Qed.

(** X17: with at most 1024 tiles and a positive [image_size] that has a
    float, [dynamic_preprocess] fails only where it divides the width by
    the height (an image of height 0, or a quotient too large for a
    float), with that exception.  Otherwise it returns, for some [a]
    columns and [b] rows with [a * b] within [min_num] and [max_num] (or
    a single tile), the [a * b] crops of the image resized to
    [image_size * a] by [image_size * b], row by row, followed by the
    thumbnail when [use_thumbnail] is set and there is more than one
    crop; the assertion on the number of crops never fails. *)
Theorem dynamic_preprocess_fails_only_on_the_aspect_ratio :
  forall (image : picture) (w h min_num max_num image_size : Z)
         (use_thumbnail : bool) (fs : float),
    size image = (w, h) ->
    max_num <= 1024 ->
    0 < image_size ->
    Py.float_of_int image_size = inr fs ->
    match Py.int_truediv w h with
    | inl e =>
        dynamic_preprocess set_order image min_num max_num image_size
          use_thumbnail = inl e
    | inr _ =>
        exists a b : Z,
          1 <= a /\ 1 <= b /\
          (a = 1 /\ b = 1 \/ min_num <= a * b <= max_num) /\
          dynamic_preprocess set_order image min_num max_num image_size
            use_thumbnail =
          inr (map (tile (Resized image (image_size * a) (image_size * b))
                      a image_size)
                 (py_range 0 (a * b))
               ++ (if use_thumbnail && negb (a * b =? 1)
                   then [Resized image image_size image_size] else []))%list
    end.
Proof.
  intros image w h min_num max_num s use_thumbnail fs Hsize Hmax Hs Hfs.
  destruct (Py.int_truediv w h) as [e|ar] eqn:Har.
  - unfold dynamic_preprocess. rewrite Hsize, Har. reflexivity.
  - apply (dynamic_preprocess_tiles image w h min_num max_num s use_thumbnail
             ar fs Hsize Har Hmax); [lia|exact Hfs].
Qed.

(** X18: what [load_image] hands to the transform: every image is
    [input_size] by [input_size], and there are either one of them or
    between 3 and [max_num + 1]: never two, since the thumbnail is added
    exactly when the image was cut in two tiles or more. *)
Theorem load_image_tile_count :
  forall (image : picture) (w h input_size max_num : Z) (ar fs : float),
    size image = (w, h) ->
    Py.int_truediv w h = inr ar ->
    max_num <= 1024 ->
    0 < input_size ->
    Py.float_of_int input_size = inr fs ->
    exists tiles : list picture,
      load_image_tiles set_order image input_size max_num = inr tiles /\
      Forall (fun t => size t = (input_size, input_size)) tiles /\
      (List.length tiles = 1%nat \/
       3 <= Z.of_nat (List.length tiles) <= max_num + 1).
Proof.
  intros image w h s max_num ar fs Hsize Har Hmax Hs Hfs.
  unfold load_image_tiles.
  destruct (dynamic_preprocess_tiles image w h 1 max_num s true ar fs
              Hsize Har Hmax ltac:(lia) Hfs) as (a & b & Ha & Hb & Hab & ->).
  eexists. split; [reflexivity|]. split.
  - apply Forall_app. split.
    + apply Forall_forall. intros t Ht. apply in_map_iff in Ht as (i & <- & _).
      unfold tile. cbn [size]. f_equal; lia.
    + destruct (true && negb (a * b =? 1)); repeat constructor.
  - rewrite length_app, length_map. cbn [andb].
    pose proof (py_range_length 0 (a * b) ltac:(nia)) as Hlen.
    destruct (Z.eqb_spec (a * b) 1) as [H1|H1]; cbn [negb List.length].
    + left. lia.
    + right. lia.
Qed.

End Preprocess.

End TileProperties.

Lemma target_ratios_are_the_factor_pairs_by_area_witness :
  In (3, 2) (Vlchat.target_ratios (nodup Tiles.ratio_eq_dec) 1 12) /\
  ~ In (4, 4) (Vlchat.target_ratios (nodup Tiles.ratio_eq_dec) 1 12).
Proof.
  destruct (target_ratios_are_the_factor_pairs_by_area
              (nodup Tiles.ratio_eq_dec)
              (fun l r => proj1 (nodup_In Tiles.ratio_eq_dec l r)) 1 12
              (fun l r => proj2 (nodup_In Tiles.ratio_eq_dec l r)))
    as (Hin & _).
  split.
  - apply (proj2 (Hin 3 2)). lia.
  - intros H. pose proof (proj1 (Hin 4 4) H) as H'. lia.
Defined.

Lemma find_closest_aspect_ratio_is_closest_witness :
  exists best_ratio : Vlchat.ratio,
    Vlchat.find_closest_aspect_ratio 1.5 [(1, 1); (2, 1); (3, 2)] 600 400 448
      = inr best_ratio /\
    (best_ratio = (1, 1) \/ In best_ratio [(1, 1); (2, 1); (3, 2)]).
Proof.
  destruct (find_closest_aspect_ratio_is_closest 1.5
              [(1, 1); (2, 1); (3, 2)] 600 400 448)
    as (best_ratio & Hbest & Hin & _).
  - intros r [<-|[<-|[<-|[]]]]; eexists; eexists; split; reflexivity.
  - exists best_ratio. split; [exact Hbest|exact Hin].
Defined.

Lemma tiles_partition_the_resized_image_witness :
  exists i box,
    In i (Vlchat.py_range 0 (2 * 2)) /\
    Vlchat.tile_box i (448 * 2) 448 = inr box /\
    Tiles.box_contains 500 100 box.
Proof.
  destruct (tiles_partition_the_resized_image 2 2 448 500 100)
    as (i & box & Hi & Hbox & Hin & _); try lia.
  exists i, box. split; [exact Hi|]. split; [exact Hbox|exact Hin].
Defined.

Lemma dynamic_preprocess_fails_only_on_the_aspect_ratio_witness :
  (exists tiles,
     Vlchat.dynamic_preprocess (nodup Tiles.ratio_eq_dec)
       (Vlchat.Opened 800 600) 1 12 448 true = inr tiles) /\
  Vlchat.dynamic_preprocess (nodup Tiles.ratio_eq_dec)
    (Vlchat.Opened 800 0) 1 12 448 true =
  inl (Raise Py.ZeroDivisionError "division by zero").
Proof.
  split.
  - pose proof (dynamic_preprocess_fails_only_on_the_aspect_ratio
                  (nodup Tiles.ratio_eq_dec)
                  (fun l r => proj1 (nodup_In Tiles.ratio_eq_dec l r))
                  (Vlchat.Opened 800 600) 800 600 1 12 448 true 448
                  eq_refl) as H.
    destruct (Py.int_truediv 800 600) as [e|ar] eqn:E.
    + vm_compute in E. discriminate E.
    + destruct H as (a & b & _ & _ & _ & H); [lia|lia|reflexivity|].
      eexists. exact H.
  - apply (dynamic_preprocess_fails_only_on_the_aspect_ratio
             (nodup Tiles.ratio_eq_dec)
             (fun l r => proj1 (nodup_In Tiles.ratio_eq_dec l r))
             (Vlchat.Opened 800 0) 800 0 1 12 448 true 448 eq_refl);
      [lia|lia|reflexivity].
Defined.

Lemma load_image_tile_count_witness :
  exists tiles : list Vlchat.picture,
    Tiles.load_image_tiles (nodup Tiles.ratio_eq_dec) (Vlchat.Opened 800 600)
      448 12 = inr tiles /\
    (List.length tiles = 1%nat \/ 3 <= Z.of_nat (List.length tiles) <= 12 + 1).
Proof.
  destruct (load_image_tile_count
              (nodup Tiles.ratio_eq_dec)
              (fun l r => proj1 (nodup_In Tiles.ratio_eq_dec l r))
              (Vlchat.Opened 800 600) 800 600 448 12 _ 448
              eq_refl eq_refl) as (tiles & Htiles & _ & Hcount);
    [lia|lia|reflexivity|].
  exists tiles. split; [exact Htiles|exact Hcount].
Defined.
